(** * Stateless MCP test runner: plan execution, outcome classification,
      screenshot correlation and report finalisation

    A shallow embedding of [direct_mcp_stateless.js] (class
    [StatelessMCPRunner]) and of [TestReportGenerator.generateReport].

    JavaScript strings are modelled as [string]: sequences of 8-bit code
    units read as Latin-1, so the character classes below are the
    restrictions of the ECMAScript ones to code units below 256.  JSON
    values are modelled by [JsValue] with integer numbers.  Exceptions are
    an explicit completion ([Normal] / [Throw]); the runner object, the
    provider and the clock are threaded as explicit state. *)

From Stdlib Require Import String Ascii List ZArith Lia Bool DecimalString.
Import ListNotations.
Open Scope string_scope.

Set Implicit Arguments.
Set Warnings "-register-all".

(** ** JavaScript string primitives *)

Module JsString.

Definition code (c : ascii) : nat := nat_of_ascii c.

(** [\s] of a regular expression, and the characters removed by
    [String.prototype.trim]: TAB, LF, VT, FF, CR, SPACE, NBSP. *)
Definition is_space (c : ascii) : bool :=
  let n := code c in
  (((9 <=? n) && (n <=? 13)) || (n =? 32) || (n =? 160))%nat.

Definition is_newline (c : ascii) : bool := (code c =? 10)%nat.

(** [toLowerCase] on one code unit: A-Z, and the Latin-1 capitals
    U+00C0..U+00DE except the multiplication sign U+00D7. *)
Definition lower (c : ascii) : ascii :=
  let n := code c in
  if (((65 <=? n) && (n <=? 90))
      || ((192 <=? n) && (n <=? 222) && negb (n =? 215)))%nat
  then ascii_of_nat (n + 32) else c.

Fixpoint toLowerCase (s : string) : string :=
  match s with
  | EmptyString => EmptyString
  | String c r => String (lower c) (toLowerCase r)
  end.

Fixpoint trimStart (s : string) : string :=
  match s with
  | EmptyString => EmptyString
  | String c r => if is_space c then trimStart r else s
  end.

Fixpoint trimEnd (s : string) : string :=
  match s with
  | EmptyString => EmptyString
  | String c r =>
      match trimEnd r with
      | EmptyString => if is_space c then EmptyString else String c EmptyString
      | r' => String c r'
      end
  end.

Definition trim (s : string) : string := trimEnd (trimStart s).

(** [s.startsWith(p)]. *)
Fixpoint startsWith (p s : string) : bool :=
  match p with
  | EmptyString => true
  | String a p' =>
      match s with
      | EmptyString => false
      | String b s' => Ascii.eqb a b && startsWith p' s'
      end
  end.

Fixpoint drop (n : nat) (s : string) : string :=
  match n, s with
  | O, _ => s
  | S k, String _ r => drop k r
  | S _, EmptyString => EmptyString
  end.

Fixpoint take (n : nat) (s : string) : string :=
  match n, s with
  | S k, String c r => String c (take k r)
  | _, _ => EmptyString
  end.

(** [s.split('\n')]: never returns the empty list. *)
Fixpoint split_lines (s : string) : list string :=
  match s with
  | EmptyString => [EmptyString]
  | String c r =>
      if is_newline c then EmptyString :: split_lines r
      else match split_lines r with
           | l :: ls => String c l :: ls
           | [] => [String c EmptyString]
           end
  end.

(** [parts.join(sep)]. *)
Fixpoint join (sep : string) (parts : list string) : string :=
  match parts with
  | [] => EmptyString
  | [p] => p
  | p :: ps => p ++ sep ++ join sep ps
  end.

(** A literal of a regular expression under the [i] flag, matched at the
    beginning of [s]; on success the rest of [s] after the literal.  The
    literals used here contain only ASCII letters and punctuation, for
    which canonicalisation identifies exactly a letter and its other
    case. *)
Fixpoint strip_ci (lit s : string) : option string :=
  match lit, s with
  | EmptyString, _ => Some s
  | String a lit', String b s' =>
      if Ascii.eqb (lower a) (lower b) then strip_ci lit' s' else None
  | String _ _, EmptyString => None
  end.

Definition nonempty (s : string) : bool :=
  match s with EmptyString => false | String _ _ => true end.

Definition nl : string := String (ascii_of_nat 10) EmptyString.

End JsString.

Import JsString.

(** ** JSON values and [JSON.stringify] *)

(** The values [JSON.parse] can return.  Numbers are the integers a double
    holds exactly (at most sixteen digits); an object is the list of its
    own properties in insertion order. *)
Inductive JsValue : Type :=
| JNull
| JBool (b : bool)
| JNum (n : Z)
| JStr (s : string)
| JArr (items : list JsValue)
| JObj (props : list (string * JsValue)).

(** Own-property lookup; [None] is [undefined]. *)
Fixpoint lookup (k : string) (props : list (string * JsValue)) : option JsValue :=
  match props with
  | [] => None
  | (k', v) :: rest => if String.eqb k k' then Some v else lookup k rest
  end.

(** ToBoolean, as used by [||], [if] and [!]. *)
Definition truthy (v : JsValue) : bool :=
  match v with
  | JNull => false
  | JBool b => b
  | JNum n => negb (Z.eqb n 0)
  | JStr s => nonempty s
  | JArr _ | JObj _ => true
  end.

(** ToPrimitive on a parsed value completes.  A parsed object has no
    callable property of its own, so [Object.prototype.toString] is what
    converts it, unless a property of its own named [toString] hides that
    method: then the conversion throws.  An array is converted by [join],
    which converts the elements. *)
Fixpoint converts (v : JsValue) : bool :=
  match v with
  | JObj props => match lookup "toString" props with Some _ => false | None => true end
  | JArr items => forallb converts items
  | JNull | JBool _ | JNum _ | JStr _ => true
  end.

(** The same for a value that may be [undefined]. *)
Definition converts_opt (v : option JsValue) : bool :=
  match v with
  | Some x => converts x
  | None => true
  end.

Module Json.

Definition hex_digit (n : nat) : ascii :=
  if (n <? 10)%nat then ascii_of_nat (48 + n) else ascii_of_nat (87 + n).

(** QuoteJSONString on one code unit. *)
Definition escape (c : ascii) : string :=
  let n := code c in
  if (n =? 34)%nat then String (ascii_of_nat 92) (String c EmptyString)
  else if (n =? 92)%nat then "\\"
  else if (n =? 8)%nat then "\b"
  else if (n =? 9)%nat then "\t"
  else if (n =? 10)%nat then "\n"
  else if (n =? 12)%nat then "\f"
  else if (n =? 13)%nat then "\r"
  else if (n <? 32)%nat then
    "\u00" ++ String (hex_digit (n / 16)) (String (hex_digit (n mod 16)) EmptyString)
  else String c EmptyString.

Fixpoint escape_all (s : string) : string :=
  match s with
  | EmptyString => EmptyString
  | String c r => escape c ++ escape_all r
  end.

Definition dquote : string := String (ascii_of_nat 34) EmptyString.

Definition quote (s : string) : string := dquote ++ escape_all s ++ dquote.

(** Number::toString on an integer of the model: all its digits. *)
Definition number (n : Z) : string := NilZero.string_of_int (Z.to_int n).

Fixpoint stringify (v : JsValue) : string :=
  match v with
  | JNull => "null"
  | JBool true => "true"
  | JBool false => "false"
  | JNum n => number n
  | JStr s => quote s
  | JArr items =>
      "[" ++ join "," ((fix each (l : list JsValue) : list string :=
                          match l with
                          | [] => []
                          | x :: r => stringify x :: each r
                          end) items) ++ "]"
  | JObj props =>
      "{" ++ join "," ((fix each (l : list (string * JsValue)) : list string :=
                          match l with
                          | [] => []
                          | (k, x) :: r => (quote k ++ ":" ++ stringify x) :: each r
                          end) props) ++ "}"
  end.

End Json.

(** ** Regular expressions of the runner

    Each matcher below is the backtracking search of one regular
    expression of the source, written out for that expression. *)

Module Regex.

(** [[^\n]+] taken greedily: the characters up to the next line feed. *)
Fixpoint take_line (s : string) : string :=
  match s with
  | EmptyString => EmptyString
  | String c r => if is_newline c then EmptyString else String c (take_line r)
  end.

(** The group [([^\n]+)] matched at the beginning of [s]. *)
Definition value_here (s : string) : option string :=
  match s with
  | EmptyString => None
  | String c _ => if is_newline c then None else Some (take_line s)
  end.

(** [\s*([^\n]+)] at the beginning of [s]: the greedy star takes a white
    space character first and gives it back when the rest fails. *)
Fixpoint spaces_value (s : string) : option string :=
  match s with
  | EmptyString => None
  | String c r =>
      if is_space c then
        match spaces_value r with
        | Some v => Some v
        | None => value_here s
        end
      else value_here s
  end.

(** [\s+([^\n]+)] at the beginning of [s]. *)
Definition result_tail (s : string) : option string :=
  match s with
  | EmptyString => None
  | String c r => if is_space c then spaces_value r else None
  end.

(** [/### Result\s+([^\n]+)/i] anchored at the beginning of [s]. *)
Definition result_at (s : string) : option string :=
  match strip_ci "### Result" s with
  | Some rest => result_tail rest
  | None => None
  end.

(** [text.match(/### Result\s+([^\n]+)/i)]: group 1 of the leftmost match,
    [None] when the expression does not match. *)
Fixpoint result_match (text : string) : option string :=
  match result_at text with
  | Some v => Some v
  | None =>
      match text with
      | EmptyString => None
      | String _ r => result_match r
      end
  end.

(** The negated class of the image expression: any code unit that is
    neither white space, nor a double or single quote, nor a parenthesis. *)
Definition is_token (c : ascii) : bool :=
  let n := code c in
  negb (is_space c || (n =? 34) || (n =? 39) || (n =? 40) || (n =? 41))%nat.

(** [\.(png|jpg|jpeg)] under the [i] flag at the beginning of [s]: the
    length of the match. *)
Definition ext_at (s : string) : option nat :=
  match strip_ci ".png" s with
  | Some _ => Some 4%nat
  | None =>
      match strip_ci ".jpg" s with
      | Some _ => Some 4%nat
      | None =>
          match strip_ci ".jpeg" s with
          | Some _ => Some 5%nat
          | None => None
          end
      end
  end.

(** The lazy [+?] after its first character: try the extension here, and
    only when that fails take one more character of the class.  The result
    is the number of code units matched from [s] on. *)
Fixpoint lazy_token (s : string) : option nat :=
  match ext_at s with
  | Some n => Some n
  | None =>
      match s with
      | EmptyString => None
      | String c r => if is_token c then option_map S (lazy_token r) else None
      end
  end.

(** The image expression, one or more [is_token] characters taken lazily
    and then [\.(png|jpg|jpeg)], anchored at the beginning of [s]: the
    length of the match. *)
Definition image_at (s : string) : option nat :=
  match s with
  | EmptyString => None
  | String c r => if is_token c then option_map S (lazy_token r) else None
  end.

(** [text.match(...)] with the image expression under [gi]: all matches, left to
    right, each search resuming where the previous match ended.  [skip]
    counts the code units of the current match still to be passed over.
    The empty list stands for the [null] the source receives when nothing
    matches. *)
Fixpoint image_matches_from (skip : nat) (s : string) : list string :=
  match s with
  | EmptyString => []
  | String _ r =>
      match skip with
      | S k => image_matches_from k r
      | O =>
          match image_at s with
          | Some n => take n s :: image_matches_from (n - 1) r
          | None => image_matches_from 0 r
          end
      end
  end.

Definition image_matches (s : string) : list string := image_matches_from 0 s.

(** [s.replace(/^mcp_/, '')]. *)
Definition strip_mcp (s : string) : string :=
  if startsWith "mcp_" s then drop 4 s else s.

(** [s.replace(/<fence>\n?/g, '')] for a literal [fence]: every occurrence
    of the literal, with the line feed that may follow it, is removed;
    the scan resumes after the removed text. *)
Fixpoint remove_fence_from (fence : string) (skip : nat) (s : string) : string :=
  match s with
  | EmptyString => EmptyString
  | String c r =>
      match skip with
      | S k => remove_fence_from fence k r
      | O =>
          if startsWith fence s then
            let n := String.length fence in
            let m := if startsWith nl (drop n s) then S n else n in
            remove_fence_from fence (m - 1) r
          else String c (remove_fence_from fence 0 r)
      end
  end.

Definition remove_fence (fence s : string) : string := remove_fence_from fence 0 s.

End Regex.

Import Regex.

(** ** Data model *)

(** One content block of a provider response.  [c_more] holds the properties
    other than [type] and [text] (image data, mime type, ...).  A block is
    taken to carry its properties in this order, [type], [text], the
    others, as the protocol writes them: lookups do not depend on the
    order, the serialisation of a block does. *)
Record ContentBlock : Type := {
  c_type : string;
  c_text : option string;
  c_more : list (string * JsValue)
}.

(** What [callTool] resolves to.  [content = None] stands for a response
    whose [content] is absent, so that [Array.isArray] fails on it. *)
Record McpResult : Type := {
  content : option (list ContentBlock);
  isError : bool
}.

(** The awaited [callTool] promise either resolves or rejects. *)
Inductive CallOutcome : Type :=
| Resolved (result : McpResult)
| Rejected (reason : string).

Record ToolInfo : Type := {
  name : string;
  description : string;
  inputSchema : option JsValue
}.

(** The variable parts of the text built by [buildPlanningPrompt]. *)
Record PlanningPrompt : Type := {
  availableTools : list ToolInfo;
  testStepsText : string;
  stepCount : nat
}.

(** A thrown [Error]: its message and the [duration] property that
    [executeMCP] attaches to the errors it creates. *)
Module Err.
Record t : Type := { message : string; duration : option Z }.
End Err.

(** [new Error(msg)], and the errors the engine itself throws: none of them
    has a [duration] property. *)
Definition new_Error (msg : string) : Err.t :=
  {| Err.message := msg; Err.duration := None |}.

Definition TypeError (msg : string) : Err.t := new_Error msg.

(** The object pushed by [recordAction]. *)
Module Action.
Record t : Type := {
  tool : string;
  params : option JsValue;
  status : string;
  assertion : JsValue;
  error : option string;
  duration : Z;
  screenshot : option string;
  timestamp : Z
}.
End Action.

(** The argument object of [recordAction]. *)
Module Outcome.
Record t : Type := {
  tool : string;
  params : option JsValue;
  status : string;
  assertion : option JsValue;
  error : option string;
  duration : Z;
  screenshot : option string
}.
End Outcome.

(** [this.testResults]. *)
Module Results.
Record t : Type := {
  passed : nat;
  failed : nat;
  actions : list Action.t
}.
End Results.

(** [this.testReport]. *)
Module Report.
Record t : Type := {
  testName : string;
  testText : string;
  startTime : Z;
  endTime : option Z;
  actions : list Action.t;
  passedActions : nat;
  failedActions : nat;
  totalActions : nat;
  testResult : string;
  duration : option Z
}.
End Report.

(** [config.reporting.screenshotsDir]. *)
Definition screenshotsDir : string := "mcp-workspace/test-screenshots".

(** ** Screenshot correlation *)

Module Path.

Fixpoint strip_trailing_slashes (s : string) : string :=
  match s with
  | EmptyString => EmptyString
  | String c r =>
      match strip_trailing_slashes r with
      | EmptyString => if Ascii.eqb c "/" then EmptyString else String c EmptyString
      | r' => String c r'
      end
  end.

(** The part after the last slash. *)
Fixpoint last_segment (s : string) : string :=
  match s with
  | EmptyString => EmptyString
  | String c r =>
      if existsb (Ascii.eqb "/"%char) (list_ascii_of_string r) then last_segment r
      else if Ascii.eqb c "/" then r else s
  end.

(** POSIX [path.basename] with one argument. *)
Definition basename (p : string) : string :=
  last_segment (strip_trailing_slashes p).

(** POSIX [path.join(dir, file)] for a normalised relative [dir] and a [file]
    that is one path segment other than [.] and [..]: the only shape in
    which [extractScreenshotPath] calls it. *)
Definition join (dir file : string) : string :=
  match file with
  | EmptyString => dir
  | _ => dir ++ "/" ++ file
  end.

End Path.

Definition is_text_string (c : ContentBlock) : bool :=
  String.eqb (c_type c) "text" &&
  match c_text c with Some _ => true | None => false end.

Definition text_of (c : ContentBlock) : string :=
  match c_text c with Some t => t | None => EmptyString end.

(** The [fullText] of [extractScreenshotPath]. *)
Definition fullText (blocks : list ContentBlock) : string :=
  JsString.join nl (map text_of (filter is_text_string blocks)).

(** [extractScreenshotPath(result)]; [None] is the [null] result. *)
Definition extractScreenshotPath (result : McpResult) : option string :=
  match content result with
  | None => None
  | Some blocks =>
      let fullText := fullText blocks in
      if negb (nonempty fullText) then None
      else
        match image_matches fullText with
        | [] => None
        | m :: ms =>
            let filename := Path.basename (last ms m) in
            Some (Path.join screenshotsDir filename)
        end
  end.

(** ** The runner *)

(** A JavaScript completion: a value, or a thrown error. *)
Inductive Completion (A : Type) : Type :=
| Normal (a : A)
| Throw (e : Err.t).

Arguments Normal {A} a.
Arguments Throw {A} e.

(** One provider invocation, as seen by the provider: the tool name and
    the arguments. *)
Definition Call : Type := (string * JsValue)%type.

Section Runner.

(** The world outside the runner: the provider with its browser session,
    the planning model and the wall clock. *)
Variable World : Type.

(** [Date.now()] and [new Date()]. *)
Variable now : World -> Z.

(** [await this.mcpClient.callTool({name, arguments})]. *)
Variable callTool : World -> string -> JsValue -> CallOutcome * World.

(** [await generateText(requestConfig)]: the reply text, or the reason of
    the rejection. *)
Variable generateText : World -> PlanningPrompt -> (string + string) * World.

(** [JSON.parse]: the value, or the message of the [SyntaxError]. *)
Variable JSON_parse : string -> string + JsValue.

(** ToNumber on strings, arrays and objects whose conversion completes
    (see [converts]), when its result is an integer; [None] otherwise. *)
Variable ToNumber : JsValue -> option Z.

(** What [generateReport] does once the report is finalized: it makes the
    directories, renders the HTML text and writes the file.  [Some] is the
    message of the error one of these throws. *)
Variable writeReport : World -> Report.t -> option string.

(** The runner object.  [calls] is a ghost log of the provider invocations
    made so far. *)
Record Runner : Type := {
  mcpTools : list (string * ToolInfo);
  testResults : Results.t;
  testReport : option Report.t;
  world : World;
  calls : list Call
}.

Definition M (A : Type) : Type := Runner -> Completion A * Runner.

Definition ret {A} (a : A) : M A := fun r => (Normal a, r).

Definition throw {A} (e : Err.t) : M A := fun r => (Throw e, r).

Definition bind {A B} (m : M A) (k : A -> M B) : M B :=
  fun r =>
    match m r with
    | (Normal a, r') => k a r'
    | (Throw e, r') => (Throw e, r')
    end.

(** [try { body } catch (err) { handler }]. *)
Definition try_catch {A} (body : M A) (handler : Err.t -> M A) : M A :=
  fun r =>
    match body r with
    | (Normal a, r') => (Normal a, r')
    | (Throw e, r') => handler e r'
    end.

Definition get : M Runner := fun r => (Normal r, r).

Definition put (r : Runner) : M unit := fun _ => (Normal tt, r).

Notation "x <- m ;; k" := (bind m (fun x => k))
  (at level 61, m at next level, right associativity).
Notation "m ;;; k" := (bind m (fun _ => k))
  (at level 61, right associativity).

Definition set_testResults (t : Results.t) (r : Runner) : Runner :=
  {| mcpTools := mcpTools r; testResults := t; testReport := testReport r;
     world := world r; calls := calls r |}.

Definition set_testReport (t : option Report.t) (r : Runner) : Runner :=
  {| mcpTools := mcpTools r; testResults := testResults r; testReport := t;
     world := world r; calls := calls r |}.

Definition set_world (w : World) (r : Runner) : Runner :=
  {| mcpTools := mcpTools r; testResults := testResults r;
     testReport := testReport r; world := w; calls := calls r |}.

Definition log_call (c : Call) (r : Runner) : Runner :=
  {| mcpTools := mcpTools r; testResults := testResults r;
     testReport := testReport r; world := world r; calls := (calls r ++ [c])%list |}.

(** [x || null] on an optional string. *)
Definition or_null (x : option string) : option string :=
  match x with
  | Some s => if nonempty s then Some s else None
  | None => None
  end.

(** [recordAction({tool, params, status, assertion, error, duration,
    screenshot})]. *)
Definition recordAction (a : Outcome.t) : M unit :=
  fun r =>
    let t := testResults r in
    let record :=
      {| Action.tool := Outcome.tool a;
         Action.params := Outcome.params a;
         Action.status := Outcome.status a;
         Action.assertion :=
           match Outcome.assertion a with
           | Some v => if truthy v then v else JNull
           | None => JNull
           end;
         Action.error := or_null (Outcome.error a);
         Action.duration := Outcome.duration a;
         Action.screenshot := or_null (Outcome.screenshot a);
         Action.timestamp := now (world r) |} in
    let pushed := (Results.actions t ++ [record])%list in
    let passed' :=
      if String.eqb (Outcome.status a) "passed"
      then S (Results.passed t) else Results.passed t in
    let failed' :=
      if String.eqb (Outcome.status a) "failed"
      then S (Results.failed t) else Results.failed t in
    (Normal tt,
     set_testResults
       {| Results.passed := passed'; Results.failed := failed';
          Results.actions := pushed |} r).

(** [this.mcpTools.set(name, info)] on the insertion-ordered map. *)
Fixpoint map_set (k : string) (v : ToolInfo) (m : list (string * ToolInfo))
  : list (string * ToolInfo) :=
  match m with
  | [] => [(k, v)]
  | (k', v') :: rest =>
      if String.eqb k k' then (k, v) :: rest else (k', v') :: map_set k v rest
  end.

(** The discovery loop of [initializeMCP] over the listed tools. *)
Definition discover (listed : list ToolInfo) (r : Runner) : Runner :=
  {| mcpTools := fold_left (fun m t => map_set (name t) t m) listed (mcpTools r);
     testResults := testResults r; testReport := testReport r;
     world := world r; calls := calls r |}.

(** [JSON.stringify(result.content)] inside a template literal. *)
Definition block_value (c : ContentBlock) : JsValue :=
  JObj (("type", JStr (c_type c))
          :: match c_text c with
             | Some t => ("text", JStr t) :: c_more c
             | None => c_more c
             end).

Definition stringify_content (c : option (list ContentBlock)) : string :=
  match c with
  | None => "undefined"
  | Some blocks => Json.stringify (JArr (map block_value blocks))
  end.

(** The check of [executeMCP] after the error envelope: [true] when the
    result carries the logical result [false]. *)
Definition returned_false (result : McpResult) : bool :=
  match content result with
  | None => false
  | Some blocks =>
      match find (fun c => String.eqb (c_type c) "text") blocks with
      | None => false
      | Some c =>
          match c_text c with
          | None => false
          | Some textBlock =>
              if nonempty textBlock then
                match result_match textBlock with
                | None => false
                | Some m1 => String.eqb (toLowerCase (trim m1)) "false"
                end
              else false
          end
      end
  end.

(** [executeMCP(toolName, params)].  The first statement, [log.tool], takes
    a substring of [JSON.stringify(params)], which is [undefined] when
    [params] is: the call then throws before the provider is reached. *)
Definition executeMCP (toolName : string) (params : option JsValue)
  : M (McpResult * Z) :=
  fun r =>
    match params with
    | None =>
        (Throw (TypeError "Cannot read properties of undefined (reading 'substring')"), r)
    | Some arguments =>
        let start := now (world r) in
        let '(outcome, w) := callTool (world r) toolName arguments in
        let r' := set_world w (log_call (toolName, arguments) r) in
        match outcome with
        | Rejected reason => (Throw (new_Error reason), r')
        | Resolved result =>
            let duration := (now w - start)%Z in
            if isError result then
              (Throw {| Err.message :=
                          "MCP Tool Error: " ++ stringify_content (content result);
                        Err.duration := Some duration |}, r')
            else if returned_false result then
              (Throw {| Err.message := "MCP Tool returned false";
                        Err.duration := Some duration |}, r')
            else (Normal (result, duration), r')
        end
    end.

Definition lift {A} (c : Completion A) : M A := fun r => (c, r).

(** [buildPlanningPrompt(testText, stepCount)]. *)
Definition buildPlanningPrompt (r : Runner) (testText : string) (stepCount : nat)
  : PlanningPrompt :=
  {| availableTools := map snd (mcpTools r);
     testStepsText := testText;
     stepCount := stepCount |}.

(** The two [replace] calls and the [trim] of [generateExecutionPlan]. *)
Definition strip_fences (reply : string) : string :=
  trim (remove_fence "```" (remove_fence "```json" reply)).

(** [plan.length] on a parsed plan other than [null]; [None] is
    [undefined]. *)
Definition plan_length (plan : JsValue) : option JsValue :=
  match plan with
  | JArr items => Some (JNum (Z.of_nat (List.length items)))
  | JStr s => Some (JNum (Z.of_nat (String.length s)))
  | JObj props => lookup "length" props
  | JNull | JBool _ | JNum _ => None
  end.

(** [generateExecutionPlan(testText, testSteps)].  The log line after
    [JSON.parse] is inside the same [try]: reading [plan.length] throws on
    [null], and putting it into the template throws when it cannot be
    converted. *)
Definition generateExecutionPlan (testText : string) (testSteps : list string)
  : M JsValue :=
  fun r =>
    let planningPrompt := buildPlanningPrompt r testText (List.length testSteps) in
    let '(reply, w) := generateText (world r) planningPrompt in
    let r' := set_world w r in
    match reply with
    | inl reason => (Throw (new_Error reason), r')
    | inr text =>
        let planJson := strip_fences text in
        match JSON_parse planJson with
        | inl msg => (Throw (new_Error ("Invalid plan JSON: " ++ msg)), r')
        | inr JNull =>
            (Throw (new_Error
                      ("Invalid plan JSON: "
                       ++ "Cannot read properties of null (reading 'length')")), r')
        | inr plan =>
            if converts_opt (plan_length plan) then (Normal plan, r')
            else
              (Throw (new_Error
                        ("Invalid plan JSON: "
                         ++ "Cannot convert object to primitive value")), r')
        end
    end.

(** The number a property value converts to, when the conversion
    completes; [None] is NaN. *)
Definition number_of (v : option JsValue) : option Z :=
  match v with
  | None => None
  | Some JNull => Some 0%Z
  | Some (JBool b) => Some (if b then 1 else 0)%Z
  | Some (JNum n) => Some n
  | Some v' => ToNumber v'
  end.

(** ToNumber of a property value, as the operators [-] and [<] apply it:
    it throws when the value cannot be converted. *)
Definition to_number (v : option JsValue) : Completion (option Z) :=
  if converts_opt v then Normal (number_of v)
  else Throw (TypeError "Cannot convert object to primitive value").

(** [executionPlan[0]], ..., [executionPlan[executionPlan.length - 1]]:
    the values the [for] loop of [runTest] visits once its bound has been
    converted.  [None] is [undefined]. *)
Definition plan_items (plan : JsValue) : list (option JsValue) :=
  match plan with
  | JArr items => map Some items
  | JStr s => map (fun c => Some (JStr (String c EmptyString))) (list_ascii_of_string s)
  | JObj props =>
      match number_of (lookup "length" props) with
      | Some n =>
          map (fun i => lookup (Json.number (Z.of_nat i)) props) (seq 0 (Z.to_nat n))
      | None => []
      end
  | JNull | JBool _ | JNum _ => []
  end.

(** [step.key] on a step that is neither [null] nor [undefined], for the
    keys read by [runTest]: none of them is a built-in property of a
    string, an array, a number or a boolean. *)
Definition prop (step : option JsValue) (key : string) : option JsValue :=
  match step with
  | Some (JObj props) => lookup key props
  | _ => None
  end.

(** [step.key], which throws on [null] and [undefined]. *)
Definition get_prop (step : option JsValue) (key : string)
  : Completion (option JsValue) :=
  match step with
  | None =>
      Throw (TypeError ("Cannot read properties of undefined (reading '" ++ key ++ "')"))
  | Some JNull =>
      Throw (TypeError ("Cannot read properties of null (reading '" ++ key ++ "')"))
  | Some _ => Normal (prop step key)
  end.

(** [testSteps[k]] for a numeric [k]. *)
Definition at_index (testSteps : list string) (k : option Z) : option string :=
  match k with
  | Some z => if (0 <=? z)%Z then nth_error testSteps (Z.to_nat z) else None
  | None => None
  end.

(** [a || b] on optional strings. *)
Definition or_else (a b : option string) : option string :=
  match a with
  | Some s => if nonempty s then Some s else b
  | None => b
  end.

(** [step.isAssertion || false]. *)
Definition or_false (v : option JsValue) : JsValue :=
  match v with
  | Some x => if truthy x then x else JBool false
  | None => JBool false
  end.

(** [err.duration || 0]. *)
Definition duration_or_0 (d : option Z) : Z :=
  match d with
  | Some z => z
  | None => 0%Z
  end.

(** [step.tool.replace(/^mcp_/, '')]. *)
Definition tool_name (tool : option JsValue) : Completion string :=
  match tool with
  | Some (JStr s) => Normal (strip_mcp s)
  | None => Throw (TypeError "Cannot read properties of undefined (reading 'replace')")
  | Some JNull => Throw (TypeError "Cannot read properties of null (reading 'replace')")
  | Some _ => Throw (TypeError "step.tool.replace is not a function")
  end.

(** The template literal [`mcp_${step.tool}`], evaluated once
    [step.tool.replace] has succeeded. *)
Definition mcp_label (tool : option JsValue) : string :=
  match tool with
  | Some (JStr s) => "mcp_" ++ s
  | _ => "mcp_undefined"
  end.

(** [testSteps[step.stepIndex - 1] || testSteps[i]], once the step index
    has been converted. *)
Definition original_step (testSteps : list string) (i : nat)
  (stepIndex : option JsValue) : option string :=
  or_else (at_index testSteps (option_map (fun n => n - 1)%Z (number_of stepIndex)))
          (nth_error testSteps i).

(** The body of the [for] loop of [runTest] at index [i]. *)
Definition run_step (testSteps : list string) (i : nat) (step : option JsValue)
  : M unit :=
  stepIndex <- lift (get_prop step "stepIndex") ;;
  _ <- lift (to_number stepIndex) ;;
  match original_step testSteps i stepIndex with
  | None => throw (TypeError "Cannot read properties of undefined (reading 'trim')")
  | Some _ =>
      toolName <- lift (tool_name (prop step "tool")) ;;
      try_catch
        (res <- executeMCP toolName (prop step "params") ;;
         let '(result, duration) := res in
         let screenshotPath := extractScreenshotPath result in
         recordAction
           {| Outcome.tool := mcp_label (prop step "tool");
              Outcome.params := prop step "params";
              Outcome.status := "passed";
              Outcome.assertion := Some (or_false (prop step "isAssertion"));
              Outcome.error := None;
              Outcome.duration := duration;
              Outcome.screenshot := screenshotPath |})
        (fun err =>
           recordAction
             {| Outcome.tool := mcp_label (prop step "tool");
                Outcome.params := prop step "params";
                Outcome.status := "failed";
                Outcome.assertion := Some (or_false (prop step "isAssertion"));
                Outcome.error := Some (Err.message err);
                Outcome.duration := duration_or_0 (Err.duration err);
                Outcome.screenshot := None |})
  end.

(** The [for] loop of [runTest], from index [i] on. *)
Fixpoint run_steps (testSteps : list string) (i : nat) (items : list (option JsValue))
  : M unit :=
  match items with
  | [] => ret tt
  | step :: rest => run_step testSteps i step ;;; run_steps testSteps (S i) rest
  end.

(** [generateReport(testReport)] of the report generator: the report is
    finalized first; what follows can throw, and leaves the report as
    finalized. *)
Definition generateReport (testReport : Report.t) : M Report.t :=
  fun r =>
    let endTime := now (world r) in
    let finalized :=
      {| Report.testName := Report.testName testReport;
         Report.testText := Report.testText testReport;
         Report.startTime := Report.startTime testReport;
         Report.endTime := Some endTime;
         Report.actions := Report.actions testReport;
         Report.passedActions := Report.passedActions testReport;
         Report.failedActions := Report.failedActions testReport;
         Report.totalActions := Report.totalActions testReport;
         Report.testResult :=
           if (Report.failedActions testReport =? 0)%nat then "pass" else "fail";
         Report.duration := Some (endTime - Report.startTime testReport)%Z |} in
    match writeReport (world r) finalized with
    | Some reason => (Throw (new_Error reason), set_testReport (Some finalized) r)
    | None => (Normal finalized, set_testReport (Some finalized) r)
    end.

(** The step lines of a test definition. *)
Definition step_lines (testText : string) : list string :=
  filter (fun l => startsWith "-" (trim l)) (split_lines testText).

(** [runTest(testText, testName)].  The bound of the loop,
    [executionPlan.length], is converted to a number by the comparison. *)
Definition runTest (testText testName : string) : M Results.t :=
  r0 <- get ;;
  put (set_testReport
         (Some {| Report.testName := testName;
                  Report.testText := testText;
                  Report.startTime := now (world r0);
                  Report.endTime := None;
                  Report.actions := [];
                  Report.passedActions := 0;
                  Report.failedActions := 0;
                  Report.totalActions := 0;
                  Report.testResult := "running";
                  Report.duration := None |}) r0) ;;;
  let testSteps := step_lines testText in
  executionPlan <- generateExecutionPlan testText testSteps ;;
  _ <- lift (to_number (plan_length executionPlan)) ;;
  run_steps testSteps 0 (plan_items executionPlan) ;;;
  r1 <- get ;;
  let t := testResults r1 in
  let testReport :=
    {| Report.testName := testName;
       Report.testText := testText;
       Report.startTime := now (world r0);
       Report.endTime := Some (now (world r1));
       Report.actions := Results.actions t;
       Report.passedActions := Results.passed t;
       Report.failedActions := Results.failed t;
       Report.totalActions := List.length (Results.actions t);
       Report.testResult := if (Results.failed t =? 0)%nat then "pass" else "fail";
       Report.duration := None |} in
  put (set_testReport (Some testReport) r1) ;;;
  _ <- generateReport testReport ;;
  if (0 <? Results.failed t)%nat then throw (new_Error "Test failed")
  else ret t.

End Runner.

Arguments Runner World : clear implicits.
Arguments M World A : clear implicits.

(** [new StatelessMCPRunner()] after tool discovery. *)
Definition new_runner {World : Type} (tools : list (string * ToolInfo)) (w : World)
  : Runner World :=
  {| mcpTools := tools;
     testResults := {| Results.passed := 0; Results.failed := 0; Results.actions := [] |};
     testReport := None;
     world := w;
     calls := [] |}.

Definition text_block (t : string) : ContentBlock :=
  {| c_type := "text"; c_text := Some t; c_more := [] |}.

(** ** A scripted environment for concrete runs *)

Module Demo.

(** The world counts the awaited calls made so far; the clock advances by
    25 ms per call. *)
Definition World : Type := nat.

Definition now (w : World) : Z := (1700000000000 + 25 * Z.of_nat w)%Z.

(** A provider that answers by tool name. *)
Definition callTool (script : string -> CallOutcome)
  (w : World) (toolName : string) (_ : JsValue) : CallOutcome * World :=
  (script toolName, S w).

(** A planner that always replies [reply]. *)
Definition generateText (reply : string) (w : World) (_ : PlanningPrompt)
  : (string + string) * World :=
  (inr reply, S w).

(** [JSON.parse] on the serialisations of the [known] values, each of which
    it maps back to its value; any other text is reported as a syntax
    error. *)
Fixpoint JSON_parse (known : list JsValue) (s : string) : string + JsValue :=
  match known with
  | [] => inl "Unexpected token"
  | v :: rest => if String.eqb s (Json.stringify v) then inr v else JSON_parse rest s
  end.

(** The scripted plans carry numeric step indexes only, so that the
    coercion of other values is never consulted. *)
Definition ToNumber (_ : JsValue) : option Z := None.

(** The report is always rendered and written. *)
Definition writeReport (_ : World) (_ : Report.t) : option string := None.

Definition tool (n : string) : string * ToolInfo :=
  (n, {| name := n; description := "a browser tool"; inputSchema := None |}).

Definition ok (t : string) : CallOutcome :=
  Resolved {| content := Some [text_block t]; isError := false |}.

Definition step (stepIndex : Z) (tool : string) (isAssertion : bool) : JsValue :=
  JObj [("stepIndex", JNum stepIndex); ("tool", JStr tool); ("params", JObj []);
        ("isAssertion", JBool isAssertion); ("description", JStr "planned")].

Definition run (script : string -> CallOutcome) (reply : string)
  (known : list JsValue) (tools : list (string * ToolInfo))
  (testText : string) : Completion Results.t * Runner World :=
  runTest now (callTool script) (generateText reply) (JSON_parse known) ToNumber
    writeReport
    testText "demo.test.yml" (new_runner tools 0%nat).

End Demo.

(** ** Derived descriptions of one step *)

(** The classification performed by [executeMCP] once [callTool] has
    settled, [start] and [stop] being the two clock readings. *)
Definition classify (start stop : Z) (outcome : CallOutcome)
  : Completion (McpResult * Z) :=
  match outcome with
  | Rejected reason => Throw (new_Error reason)
  | Resolved result =>
      if isError result then
        Throw {| Err.message := "MCP Tool Error: " ++ stringify_content (content result);
                 Err.duration := Some (stop - start)%Z |}
      else if returned_false result then
        Throw {| Err.message := "MCP Tool returned false";
                 Err.duration := Some (stop - start)%Z |}
      else Normal (result, (stop - start)%Z)
  end.

(** The argument [runTest] hands to [recordAction] for a classified step. *)
Definition step_outcome (step : option JsValue) (c : Completion (McpResult * Z))
  : Outcome.t :=
  match c with
  | Normal (result, duration) =>
      {| Outcome.tool := mcp_label (prop step "tool");
         Outcome.params := prop step "params";
         Outcome.status := "passed";
         Outcome.assertion := Some (or_false (prop step "isAssertion"));
         Outcome.error := None;
         Outcome.duration := duration;
         Outcome.screenshot := extractScreenshotPath result |}
  | Throw err =>
      {| Outcome.tool := mcp_label (prop step "tool");
         Outcome.params := prop step "params";
         Outcome.status := "failed";
         Outcome.assertion := Some (or_false (prop step "isAssertion"));
         Outcome.error := Some (Err.message err);
         Outcome.duration := duration_or_0 (Err.duration err);
         Outcome.screenshot := None |}
  end.

(** The object [recordAction] pushes for an argument [a] at time [ts]. *)
Definition pushed_record (a : Outcome.t) (ts : Z) : Action.t :=
  {| Action.tool := Outcome.tool a;
     Action.params := Outcome.params a;
     Action.status := Outcome.status a;
     Action.assertion :=
       match Outcome.assertion a with
       | Some v => if truthy v then v else JNull
       | None => JNull
       end;
     Action.error := or_null (Outcome.error a);
     Action.duration := Outcome.duration a;
     Action.screenshot := or_null (Outcome.screenshot a);
     Action.timestamp := ts |}.

(** The name under which a step invokes the provider. *)
Definition step_toolName (step : option JsValue) : string :=
  match prop step "tool" with
  | Some (JStr s) => strip_mcp s
  | _ => EmptyString
  end.

(** The tool name of a step, when it is a string. *)
Definition step_tool (step : option JsValue) : option string :=
  match prop step "tool" with
  | Some (JStr s) => Some s
  | _ => None
  end.

(** A step reaches the [try] block of the loop when its step index can be
    converted, the log line finds an original step text and its tool is a
    string. *)
Definition executable (ToNumber : JsValue -> option Z)
  (testSteps : list string) (i : nat) (step : option JsValue) : bool :=
  converts_opt (prop step "stepIndex")
  && match step_tool step, original_step ToNumber testSteps i (prop step "stepIndex") with
     | Some _, Some _ => true
     | _, _ => false
     end.

(** The invocations a step makes once it has reached [executeMCP]: one,
    or none when it has no [params]. *)
Definition step_calls (step : option JsValue) : list Call :=
  match prop step "params" with
  | Some arguments => [(step_toolName step, arguments)]
  | None => []
  end.

Definition count_status (st : string) (l : list Action.t) : nat :=
  List.length (filter (fun a => String.eqb (Action.status a) st) l).

(** ** What a run of the loop leaves behind *)

Section Trace.

Variable World : Type.
Variable now : World -> Z.
Variable callTool : World -> string -> JsValue -> CallOutcome * World.

(** The provider call of [step] in world [w], when it makes one. *)
Definition call_of (w : World) (step : option JsValue) : option (CallOutcome * World) :=
  match prop step "params" with
  | Some arguments => Some (callTool w (step_toolName step) arguments)
  | None => None
  end.

(** What [executeMCP] completes with for [step] in world [w], and the world
    it leaves. *)
Definition settle (w : World) (step : option JsValue)
  : Completion (McpResult * Z) * World :=
  match call_of w step with
  | Some (outcome, w') => (classify (now w) (now w') outcome, w')
  | None =>
      (Throw (TypeError "Cannot read properties of undefined (reading 'substring')"), w)
  end.

(** The runner once [executeMCP] has completed for [step]. *)
Definition called (step : option JsValue) (r : Runner World) : Runner World :=
  match prop step "params" with
  | Some arguments =>
      set_world (snd (callTool (world r) (step_toolName step) arguments))
                (log_call (step_toolName step, arguments) r)
  | None => r
  end.

(** The record of [step] when it is executed in world [w]. *)
Definition record_of (w : World) (step : option JsValue) : Action.t :=
  pushed_record (step_outcome step (fst (settle w step))) (now (snd (settle w step))).

(** Between the runner states [r] and [r'] the steps [executed] went
    through [executeMCP], in this order, and the records [recs] were
    appended and counted. *)
Definition ran (r r' : Runner World) (executed : list (option JsValue))
  (recs : list Action.t) : Prop :=
  calls r' = (calls r ++ flat_map step_calls executed)%list /\
  Results.actions (testResults r') = (Results.actions (testResults r) ++ recs)%list /\
  Results.passed (testResults r') =
    (Results.passed (testResults r) + count_status "passed" recs)%nat /\
  Results.failed (testResults r') =
    (Results.failed (testResults r) + count_status "failed" recs)%nat /\
  mcpTools r' = mcpTools r.

End Trace.

(** The report object as [runTest] creates it. *)
Definition initial_report (testName testText : string) (startTime : Z) : Report.t :=
  {| Report.testName := testName;
     Report.testText := testText;
     Report.startTime := startTime;
     Report.endTime := None;
     Report.actions := [];
     Report.passedActions := 0;
     Report.failedActions := 0;
     Report.totalActions := 0;
     Report.testResult := "running";
     Report.duration := None |}.

(** A report is finalized once its end time is stamped. *)
Definition finalized (rep : Report.t) : Prop := Report.endTime rep <> None.

Section Finish.

Variable World : Type.
Variable now : World -> Z.
Variable writeReport : World -> Report.t -> option string.

(** The statements of [runTest] after the loop: the report is filled in,
    handed to [generateReport], and the run throws when a step failed. *)
Definition finish (testName testText : string) (startTime : Z) : M World Results.t :=
  fun r1 =>
    let t := testResults r1 in
    let testReport :=
      {| Report.testName := testName;
         Report.testText := testText;
         Report.startTime := startTime;
         Report.endTime := Some (now (world r1));
         Report.actions := Results.actions t;
         Report.passedActions := Results.passed t;
         Report.failedActions := Results.failed t;
         Report.totalActions := List.length (Results.actions t);
         Report.testResult := if (Results.failed t =? 0)%nat then "pass" else "fail";
         Report.duration := None |} in
    match generateReport now writeReport testReport
            (set_testReport (Some testReport) r1) with
    | (Normal _, r2) =>
        if (0 <? Results.failed t)%nat then (Throw (new_Error "Test failed"), r2)
        else (Normal t, r2)
    | (Throw e, r2) => (Throw e, r2)
    end.

End Finish.

(** ** The logical-result channel *)

(** The text [executeMCP] inspects: that of the first block whose type is
    [text]. *)
Definition first_text (result : McpResult) : option string :=
  match content result with
  | None => None
  | Some blocks =>
      match find (fun c => String.eqb (c_type c) "text") blocks with
      | Some c => c_text c
      | None => None
      end
  end.

(** The value of the leftmost result marker of [text], trimmed and in
    lower case. *)
Definition marker_value (text : string) : option string :=
  option_map (fun v => toLowerCase (trim v)) (result_match text).

(** The reading of the specification: the concatenation of all textual
    blocks has a line [### Result <value>] whose value is [false] up to
    case. *)
Definition spec_text (result : McpResult) : string :=
  match content result with
  | None => EmptyString
  | Some blocks => fullText blocks
  end.

Definition line_start (pre : string) : Prop :=
  pre = EmptyString \/ exists p, pre = p ++ nl.

Definition line_end (post : string) : Prop :=
  post = EmptyString \/ exists p, post = nl ++ p.

Fixpoint all_space (s : string) : bool :=
  match s with
  | EmptyString => true
  | String c r => is_space c && all_space r
  end.

Fixpoint no_newline (s : string) : bool :=
  match s with
  | EmptyString => true
  | String c r => negb (is_newline c) && no_newline r
  end.

(** [text] is a result marker line with value [v] at its very beginning:
    the marker word up to case, white space, the value, and the end of the
    line. *)
Definition marker_line (text v : string) : Prop :=
  exists lit ws post,
    text = lit ++ ws ++ v ++ post /\
    toLowerCase lit = "### result" /\
    ws <> EmptyString /\ all_space ws = true /\
    v <> EmptyString /\ no_newline v = true /\ line_end post.

Definition spec_false_marker (text : string) : Prop :=
  exists pre value post,
    text = pre ++ "### Result " ++ value ++ post /\
    toLowerCase value = "false" /\ line_start pre /\ line_end post.

(** The number of characters of text carried by a payload. *)
Definition total_text (blocks : list ContentBlock) : nat :=
  list_sum (map (fun c => String.length (text_of c)) blocks).

(** ** Image file names in a text *)

(** An image extension: [.png], [.jpg] or [.jpeg] up to case. *)
Definition is_image_ext (e : string) : Prop :=
  toLowerCase e = ".png" \/ toLowerCase e = ".jpg" \/ toLowerCase e = ".jpeg".

Fixpoint all_token (s : string) : bool :=
  match s with
  | EmptyString => true
  | String c r => is_token c && all_token r
  end.

(** A filename-like token ending in an image extension: a non-empty run
    of characters that are neither white space, quotes nor parentheses,
    and then an image extension. *)
Definition image_token (m : string) : Prop :=
  exists stem e, m = stem ++ e /\ stem <> EmptyString /\ all_token stem = true /\
                 is_image_ext e.

(** [text] holds no such token: nowhere in it is a character of that class
    followed by an image extension. *)
Definition no_image_token (text : string) : Prop :=
  forall pre c e post,
    text = pre ++ String c (e ++ post) -> is_token c = true -> ~ is_image_ext e.

(** [m] is a filename-like token at the very beginning of [s]. *)
Definition token_prefix (s m : string) : Prop :=
  (exists rest, s = m ++ rest) /\ image_token m.

(** [m] is the token found at the beginning of [s]: the shortest one. *)
Definition first_token (s m : string) : Prop :=
  token_prefix s m /\
  forall m', token_prefix s m' -> (String.length m <= String.length m')%nat.

(** The filename-like tokens of a text, in the order in which they occur:
    a token begins at the first character at which one can begin, it is
    the shortest token there, and the next one is looked for behind it. *)
Inductive image_tokens : string -> list string -> Prop :=
| tokens_end : image_tokens EmptyString []
| tokens_skip (c : ascii) (s : string) (ms : list string) :
    (forall m, ~ token_prefix (String c s) m) ->
    image_tokens s ms ->
    image_tokens (String c s) ms
| tokens_take (m rest : string) (ms : list string) :
    first_token (m ++ rest) m ->
    image_tokens rest ms ->
    image_tokens (m ++ rest) (m :: ms).

(** The texts of the text-typed blocks of a response, in order: the blocks
    whose [type] is [text] and whose [text] is a string. *)
Inductive text_blocks : list ContentBlock -> list string -> Prop :=
| texts_nil : text_blocks [] []
| texts_text (c : ContentBlock) (t : string) (cs : list ContentBlock)
    (ts : list string) :
    c_type c = "text" -> c_text c = Some t ->
    text_blocks cs ts -> text_blocks (c :: cs) (t :: ts)
| texts_other (c : ContentBlock) (cs : list ContentBlock) (ts : list string) :
    c_type c <> "text" \/ c_text c = None ->
    text_blocks cs ts -> text_blocks (c :: cs) ts.

Definition has_slash (s : string) : bool :=
  existsb (Ascii.eqb "/"%char) (list_ascii_of_string s).

(** [file] is the part of the token [m] behind its last slash: the whole
    token when it has none. *)
Definition file_of (m file : string) : Prop :=
  exists dir, m = dir ++ file /\ has_slash file = false /\
              (dir = EmptyString \/ exists d, dir = d ++ "/").

(** Every character of the literal [lit] belongs to the token class, also
    in lower case: so it is for the three image extensions. *)
Fixpoint token_literal (lit : string) : bool :=
  match lit with
  | EmptyString => true
  | String x lit' => is_token (lower x) && token_literal lit'
  end.

(** ** Shapes of records and plans *)



(** Every step of the plan, from index [i] on, reaches the provider. *)
Fixpoint all_executable (ToNumber : JsValue -> option Z) (testSteps : list string)
  (i : nat) (items : list (option JsValue)) : bool :=
  match items with
  | [] => true
  | step :: rest =>
      executable ToNumber testSteps i step && all_executable ToNumber testSteps (S i) rest
  end.

(** The provider invocation a step stands for: its tool name, a leading
    [mcp_] removed, with its parameters; none when it has no parameters. *)
Definition invocation (step : option JsValue) : list Call :=
  match step_tool step, prop step "params" with
  | Some s, Some arguments => [(strip_mcp s, arguments)]
  | _, _ => []
  end.

(** Membership in the tool catalog [this.mcpTools]. *)
Definition in_catalog (tools : list (string * ToolInfo)) (toolName : string) : bool :=
  existsb (fun entry => String.eqb (fst entry) toolName) tools.

(** ** Concrete inputs *)

Module Inputs.

(** A response with the error envelope set whose text nevertheless
    carries a positive logical result. *)
Definition error_with_true : McpResult :=
  {| content := Some [text_block "### Result true"]; isError := true |}.

Definition click_step : option JsValue := Some (Demo.step 1 "browser_click" true).

Definition one_line : list string := ["- click the button"].

(** A successful envelope whose second text block carries the negative
    logical result. *)
Definition false_in_second_block : McpResult :=
  {| content := Some [text_block "done"; text_block "### Result false"];
     isError := false |}.

(** The marker and its value on two lines of one block. *)
Definition false_on_next_line : McpResult :=
  {| content := Some [text_block ("### Result" ++ nl ++ "false")];
     isError := false |}.

(** A text of [n] characters, and an error envelope carrying it. *)
Fixpoint long_text (n : nat) : string :=
  match n with
  | O => EmptyString
  | S k => String "a" (long_text k)
  end.

Definition error_with_text (n : nat) : McpResult :=
  {| content := Some [text_block (long_text n)]; isError := true |}.

(** A provider that succeeds on every call and mentions two image files. *)
Definition always_ok (_ : string) : CallOutcome :=
  Demo.ok "Saved shot1.png and shot2.jpg".

(** A provider whose [browser_click] reports a negative result next to an
    image file name. *)
Definition click_fails (toolName : string) : CallOutcome :=
  if String.eqb toolName "browser_click"
  then Demo.ok ("### Result false" ++ nl ++ "see failure.png")
  else always_ok toolName.

Definition two_lines : string := "- open the page" ++ nl ++ "- click the button".

(** A plan of two steps, neither an assertion. *)
Definition plan_two : JsValue :=
  JArr [Demo.step 1 "browser_navigate" false; Demo.step 2 "browser_click" false].

Definition plan_two_text : string := Json.stringify plan_two.

(** The catalog after discovery of two tools. *)
Definition catalog : list (string * ToolInfo) :=
  mcpTools (discover (map snd [Demo.tool "browser_navigate"; Demo.tool "browser_click"])
                     (new_runner [] 0%nat)).

(** The empty plan. *)
Definition plan_empty_text : string := "[]".

(** A reply that is valid JSON but an object, not an array. *)
Definition plan_object_text : string := "{}".

(** A plan whose only step names a tool the provider never listed. *)
Definition plan_unknown : JsValue := JArr [Demo.step 1 "browser_teleport" false].

Definition plan_unknown_text : string := Json.stringify plan_unknown.

(** A reply that is not JSON at all. *)
Definition prose_text : string := "Here is the plan you asked for.".

(** A reply that is valid JSON: an object whose [length] is an object with
    a property [toString] of its own. *)
Definition plan_bad_length : JsValue :=
  JObj [("length", JObj [("toString", JNum 0)])].

Definition plan_bad_length_text : string := Json.stringify plan_bad_length.

(** The values whose serialisations the scripted [JSON.parse] knows. *)
Definition known : list JsValue :=
  [plan_two; JArr []; JObj []; plan_unknown; plan_bad_length].

(** The reply [plan_two_text] inside a fenced block. *)
Definition plan_two_fenced : string :=
  "```json" ++ nl ++ plan_two_text ++ nl ++ "```".

(** A test definition with a single step line. *)
Definition one_line_text : string := "- click the button".

(** Two text blocks naming one image file each, and one block naming
    both. *)
Definition two_shots : McpResult :=
  {| content := Some [text_block "shot1.png"; text_block "shot2.jpg"];
     isError := false |}.

Definition two_shots_inline : McpResult :=
  {| content := Some [text_block "Saved shot1.png, then (shot2.jpg) for the report."];
     isError := false |}.

End Inputs.

From Stdlib Require Import Sorted Permutation.

(** * Further definitions

    ** Counters and plans *)

(** The two counters of [this.testResults] agree with the list of records,
    and every record is passed or failed. *)
Definition consistent (t : Results.t) : Prop :=
  Results.passed t = count_status "passed" (Results.actions t) /\
  Results.failed t = count_status "failed" (Results.actions t) /\
  Forall (fun rec => Action.status rec = "passed" \/ Action.status rec = "failed")
         (Results.actions t).

(** Every step of the list has a string tool name. *)
Definition all_tools (steps : list JsValue) : bool :=
  forallb (fun step => match step_tool (Some step) with Some _ => true | None => false end)
          steps.

(** The step index of every step of the list can be converted to a
    number. *)
Definition all_indexes (steps : list JsValue) : bool :=
  forallb (fun step => converts_opt (prop (Some step) "stepIndex")) steps.

(** Every step of the list has parameters. *)
Definition all_params (steps : list JsValue) : bool :=
  forallb (fun step => match prop (Some step) "params" with Some _ => true | None => false end)
          steps.

(** ** The timeline of a run *)

Definition total_duration (l : list Action.t) : Z :=
  fold_right (fun rec acc => Action.duration rec + acc)%Z 0%Z l.

(** The records [recs] were taken between the times [lo] and [hi]: their
    timestamps never decrease and lie in that interval, and their
    durations are not negative and add up to no more than its length. *)
Definition timeline (lo hi : Z) (recs : list Action.t) : Prop :=
  StronglySorted (fun a b => Action.timestamp a <= Action.timestamp b)%Z recs /\
  Forall (fun rec => lo <= Action.timestamp rec <= hi)%Z recs /\
  Forall (fun rec => 0 <= Action.duration rec)%Z recs /\
  (total_duration recs <= hi - lo)%Z.

(** ** Further inputs *)

Module Cases.

(** A plan whose only step carries a step index far beyond the test. *)
Definition plan_far : JsValue := JArr [Demo.step 7 "browser_click" false].

(** A step with a tool and no parameters. *)
Definition step_no_params : option JsValue :=
  Some (JObj [("stepIndex", JNum 1); ("tool", JStr "mcp_browser_click")]).

(** A provider whose transport rejects every call. *)
Definition rejects (_ : string) : CallOutcome := Rejected "socket closed".

(** A plan whose second step has no tool. *)
Definition plan_broken : JsValue :=
  JArr [Demo.step 1 "browser_navigate" false;
        JObj [("stepIndex", JNum 2); ("params", JObj [])];
        Demo.step 2 "browser_click" false].

(** A plan whose only step has, as step index, an object with a property
    [toString] of its own. *)
Definition plan_bad_index : JsValue :=
  JArr [JObj [("stepIndex", JObj [("toString", JNum 0)]);
              ("tool", JStr "browser_click"); ("params", JObj [])]].

Definition known_plans : list JsValue :=
  [plan_far; plan_broken; Inputs.plan_two; plan_bad_index].

(** A step that names its tool with the prefix of the advertised
    functions. *)
Definition prefixed_step : option JsValue :=
  Some (Demo.step 1 "mcp_browser_click" false).

(** A result that names two image files, the second one inside a
    directory. *)
Definition shot_in_directory : McpResult :=
  {| content := Some [text_block "Saved shot1.png and /tmp/out/shot2.jpg"];
     isError := false |}.

End Cases.

(** ** What the report generator does with a recorded screenshot *)

(** [generateHTMLReport] takes [path.basename] of the screenshot recorded
    for an action and hands it to [embedScreenshot], which looks first for
    a file at [path.join] of the screenshots directory and that name: this
    is that path.  When no file is there, [embedScreenshot] goes on to look
    for a file with a similar name; that search reads the directory and is
    not modelled.  The name is one path segment whenever the screenshot was
    recorded by the runner. *)
Definition embedded_path (screenshot : string) : string :=
  Path.join screenshotsDir (Path.basename screenshot).

(** The literal [lit], under the [i] flag, followed by the end of the
    input. *)
Definition ends_here (lit s : string) : bool :=
  match strip_ci lit s with
  | Some EmptyString => true
  | _ => false
  end.

(** The filter of [findScreenshots], [file.match(/\.(png|jpg|jpeg)$/i)]:
    the expression is tried at every position of [file]. *)
Fixpoint is_screenshot_file (file : string) : bool :=
  (ends_here ".png" file || ends_here ".jpg" file || ends_here ".jpeg" file)
  || match file with
     | EmptyString => false
     | String _ rest => is_screenshot_file rest
     end.

(** ** Code fences in a reply *)

(** [s.includes(p)]. *)
Fixpoint includes (p s : string) : bool :=
  startsWith p s
  || match s with
     | EmptyString => false
     | String _ rest => includes p rest
     end.

(** [s] has no backtick. *)
Definition no_backtick (s : string) : bool :=
  forallb (fun c => negb (Ascii.eqb c "`")) (list_ascii_of_string s).

(** ** The advertised tools *)

(** One element of the array [generateMCPTools] returns; its [type] is
    always [function]. *)
Record FunctionTool : Type := {
  f_name : string;
  f_description : string;
  f_parameters : JsValue
}.

(** The schema advertised for a tool that has none. *)
Definition default_parameters : JsValue :=
  JObj [("type", JStr "object"); ("properties", JObj []); ("required", JArr [])].

Definition function_of (tool : ToolInfo) : FunctionTool :=
  {| f_name := "mcp_" ++ name tool;
     f_description := description tool;
     f_parameters :=
       match inputSchema tool with
       | Some schema => if truthy schema then schema else default_parameters
       | None => default_parameters
       end |}.

(** [generateMCPTools()]. *)
Definition generateMCPTools {World : Type} (r : Runner World) : list FunctionTool :=
  map function_of (map snd (mcpTools r)).

(** * The batch driver

    ** The model factory *)

(** The model handle [createLLM] returns: the provider it was made by, the
    model it is locked to, and the key it carries. *)
Record Llm : Type := {
  llm_provider : string;
  llm_model : string;
  llm_apiKey : string
}.

(** [createLLM({ provider, apiKey })]. *)
Definition createLLM (provider apiKey : option string) : Completion Llm :=
  match provider with
  | None | Some EmptyString => Throw (new_Error "LLM provider is required")
  | Some p =>
      match apiKey with
      | None | Some EmptyString =>
          Throw (new_Error ("API key missing for provider: " ++ p))
      | Some k =>
          if String.eqb p "openai" then
            Normal {| llm_provider := "openai"; llm_model := "gpt-5"; llm_apiKey := k |}
          else if String.eqb p "gemini" then
            Normal {| llm_provider := "gemini"; llm_model := "gemini-2.5-flash";
                      llm_apiKey := k |}
          else Throw (new_Error ("Unsupported provider: " ++ p))
      end
  end.

(** The part of the process environment the program reads. *)
Record Env : Type := {
  OPENAI_API_KEY : option string;
  LLM_PROVIDER : option string;
  argv2 : option string
}.

(** [config.llm.provider], that is [process.env.LLM_PROVIDER || 'openai']. *)
Definition config_provider (env : Env) : string :=
  match LLM_PROVIDER env with
  | Some p => if nonempty p then p else "openai"
  | None => "openai"
  end.

(** ** The test files of a path *)

(** [s.endsWith(suffix)]. *)
Fixpoint endsWith (suffix s : string) : bool :=
  String.eqb suffix s
  || match s with
     | EmptyString => false
     | String _ rest => endsWith suffix rest
     end.

(** [array.sort()] on strings: the default order compares code units, and
    the result does not depend on the algorithm. *)
Fixpoint sort_insert (x : string) (l : list string) : list string :=
  match l with
  | [] => [x]
  | y :: rest => if String.leb x y then x :: l else y :: sort_insert x rest
  end.

Definition sort (l : list string) : list string := fold_right sort_insert [] l.

(** What [fs.statSync] tells about a path. *)
Inductive Kind : Type := IsFile | IsDirectory | IsOther.

Definition isFile (k : Kind) : bool :=
  match k with IsFile => true | _ => false end.

Definition isDirectory (k : Kind) : bool :=
  match k with IsDirectory => true | _ => false end.

Definition is_test_name (file : string) : bool :=
  endsWith ".yml" file || endsWith ".yaml" file.

Section TestFiles.

(** The file system as [getTestFiles] sees it, and the two functions of
    [path] it uses.  A left value is the message of the error the call
    throws. *)
Variable existsSync : string -> bool.
Variable statSync : string -> string + Kind.
Variable readdirSync : string -> string + list string.
Variable path_join : string -> string -> string.
Variable path_resolve : string -> string.

(** The [for] loop of [getTestFiles] over the entries of the directory. *)
Fixpoint scan (dirPath : string) (files : list string) : Completion (list string) :=
  match files with
  | [] => Normal []
  | file :: rest =>
      let fullPath := path_join dirPath file in
      match statSync fullPath with
      | inl reason => Throw (new_Error reason)
      | inr fileStats =>
          match scan dirPath rest with
          | Throw e => Throw e
          | Normal found =>
              if isFile fileStats && is_test_name file
              then Normal (path_resolve fullPath :: found)
              else Normal found
          end
      end
  end.

(** An entry of the directory that the loop keeps: a file, by its name a
    test definition. *)
Definition direct_test (dirPath entry : string) : bool :=
  match statSync (path_join dirPath entry) with
  | inr fileStats => isFile fileStats && is_test_name entry
  | inl _ => false
  end.

(** [getTestFiles(dirPath)]. *)
Definition getTestFiles (dirPath : string) : Completion (list string) :=
  if negb (existsSync dirPath) then
    Throw (new_Error ("Path does not exist: " ++ dirPath))
  else
    match statSync dirPath with
    | inl reason => Throw (new_Error reason)
    | inr stats =>
        if isFile stats then
          if is_test_name dirPath then Normal [path_resolve dirPath]
          else Throw (new_Error ("File must be a .yml or .yaml file: " ++ dirPath))
        else if isDirectory stats then
          match readdirSync dirPath with
          | inl reason => Throw (new_Error reason)
          | inr files =>
              match scan dirPath files with
              | Throw e => Throw e
              | Normal testFiles => Normal (sort testFiles)
              end
          end
        else Normal []
    end.

End TestFiles.

(** ** The loop over the test files *)

(** One element of [allResults]. *)
Record Summary : Type := {
  s_testName : string;
  s_status : string;
  s_passed : option nat;
  s_failed : option nat;
  s_error : option string
}.

(** An entry of the summary is either a pass, with the counters of the
    run and no failed step, or a failure, with the message of the error. *)
Definition passed_entry (s : Summary) : Prop :=
  s_status s = "PASSED" /\ s_failed s = Some 0%nat /\ s_error s = None /\
  exists n, s_passed s = Some n.

Definition failed_entry (s : Summary) : Prop :=
  s_status s = "FAILED" /\ s_passed s = None /\ s_failed s = None /\
  exists msg, s_error s = Some msg.

(** [allResults], [totalPassed] and [totalFailed] of [main]. *)
Record Totals : Type := {
  allResults : list Summary;
  totalPassed : nat;
  totalFailed : nat
}.

(** The number of entries with status [st]. *)
Definition count_entries (st : string) (l : list Summary) : nat :=
  List.length (filter (fun s => String.eqb (s_status s) st) l).

(** The counters agree with the entries, and every entry is a pass or a
    failure. *)
Definition tallied (t : Totals) : Prop :=
  totalPassed t = count_entries "PASSED" (allResults t) /\
  totalFailed t = count_entries "FAILED" (allResults t) /\
  Forall (fun s => passed_entry s \/ failed_entry s) (allResults t).

(** How [main] itself ends: with [process.exit(code)], by returning, or
    with an error that escapes it.  The handlers the module installs on the
    process (for an interrupt and for a rejection nobody handles) are not
    part of [main]. *)
Inductive Ending : Type :=
| Exit (code : nat)
| Returned
| Escaped (e : Err.t).

Section Batch.

Variable World : Type.
Variable now : World -> Z.
Variable callTool : World -> string -> JsValue -> CallOutcome * World.
Variable generateText : World -> PlanningPrompt -> (string + string) * World.
Variable JSON_parse : string -> string + JsValue.
Variable ToNumber : JsValue -> option Z.
Variable writeReport : World -> Report.t -> option string.

(** The file system and the provider process.  [Some] or a left value is
    the message of the error thrown. *)
Variable existsSync : string -> bool.
Variable statSync : string -> string + Kind.
Variable readdirSync : string -> string + list string.
Variable path_join : string -> string -> string.
Variable path_resolve : string -> string.
Variable mkdirSync : World -> option string * World.
Variable connect : World -> option string * World.
Variable listTools : World -> (string + list ToolInfo) * World.
Variable close : World -> option string * World.
Variable readFileSync : World -> string -> (string + string) * World.

(** [initializeMCP()]: the directories, the client, the connection and the
    discovery of the tools.  The flag tells whether [this.mcpClient] has
    been assigned. *)
Definition initializeMCP (r : Runner World) : Completion unit * Runner World * bool :=
  match mkdirSync (world r) with
  | (Some reason, w) => (Throw (new_Error reason), set_world w r, false)
  | (None, w) =>
      match connect w with
      | (Some reason, w1) => (Throw (new_Error reason), set_world w1 r, true)
      | (None, w1) =>
          match listTools w1 with
          | (inl reason, w2) => (Throw (new_Error reason), set_world w2 r, true)
          | (inr tools, w2) => (Normal tt, discover tools (set_world w2 r), true)
          end
      end
  end.

(** The [try] block of the loop of [main]. *)
Definition attempt (testFile testName : string) (r : Runner World)
  : Completion Results.t * Runner World * bool :=
  match initializeMCP r with
  | (Throw e, r1, client) => (Throw e, r1, client)
  | (Normal _, r1, client) =>
      match readFileSync (world r1) testFile with
      | (inl reason, w) => (Throw (new_Error reason), set_world w r1, client)
      | (inr testText, w) =>
          let '(c, r2) :=
            runTest now callTool generateText JSON_parse ToNumber writeReport
              testText testName (set_world w r1) in
          (c, r2, client)
      end
  end.

(** What the [try] and the [catch] block push and count. *)
Definition tally (testName : string) (c : Completion Results.t) (t : Totals) : Totals :=
  match c with
  | Normal result =>
      {| allResults :=
           allResults t
           ++ [{| s_testName := testName; s_status := "PASSED";
                  s_passed := Some (Results.passed result);
                  s_failed := Some (Results.failed result);
                  s_error := None |}];
         totalPassed := S (totalPassed t); totalFailed := totalFailed t |}
  | Throw err =>
      {| allResults :=
           allResults t
           ++ [{| s_testName := testName; s_status := "FAILED";
                  s_passed := None; s_failed := None;
                  s_error := Some (Err.message err) |}];
         totalPassed := totalPassed t; totalFailed := S (totalFailed t) |}
  end.

(** One round of the loop of [main]: a new runner, the [try], [catch] and
    [finally] blocks; [cleanup] closes the client when there is one.  An
    error of the constructor or of [cleanup] escapes the loop. *)
Definition run_file (provider : string) (apiKey : option string) (testFile : string)
  (t : Totals) (w : World) : option Err.t * Totals * World :=
  let testName := Path.basename testFile in
  match createLLM (Some provider) apiKey with
  | Throw e => (Some e, t, w)
  | Normal _ =>
      let '(c, r, client) := attempt testFile testName (new_runner [] w) in
      let t1 := tally testName c t in
      if client then
        match close (world r) with
        | (Some reason, w') => (Some (new_Error reason), t1, w')
        | (None, w') => (None, t1, w')
        end
      else (None, t1, world r)
  end.

(** The [for] loop of [main]. *)
Fixpoint run_files (provider : string) (apiKey : option string) (testFiles : list string)
  (t : Totals) (w : World) : option Err.t * Totals * World :=
  match testFiles with
  | [] => (None, t, w)
  | testFile :: rest =>
      match run_file provider apiKey testFile t w with
      | (Some e, t', w') => (Some e, t', w')
      | (None, t', w') => run_files provider apiKey rest t' w'
      end
  end.

Definition no_results : Totals :=
  {| allResults := []; totalPassed := 0; totalFailed := 0 |}.

(** [main()], up to what it prints. *)
Definition main (env : Env) (w : World) : Ending * Totals * World :=
  match OPENAI_API_KEY env with
  | None | Some EmptyString => (Exit 1, no_results, w)
  | Some _ =>
      match argv2 env with
      | None | Some EmptyString => (Exit 1, no_results, w)
      | Some testPath =>
          match getTestFiles existsSync statSync readdirSync path_join path_resolve
                  testPath with
          | Throw _ => (Exit 1, no_results, w)
          | Normal [] => (Exit 1, no_results, w)
          | Normal testFiles =>
              match run_files (config_provider env) (OPENAI_API_KEY env) testFiles
                      no_results w with
              | (Some e, t, w') => (Escaped e, t, w')
              | (None, t, w') =>
                  if (0 <? totalFailed t)%nat then (Exit 1, t, w') else (Returned, t, w')
              end
          end
      end
  end.

End Batch.

(** ** A scripted suite *)

Module Suite.

Definition existsSync (p : string) : bool := String.eqb p "tests".

Definition statSync (p : string) : string + Kind :=
  if String.eqb p "tests" then inr IsDirectory
  else if String.eqb p "tests/nested.yml" then inr IsDirectory
  else if String.eqb p "tests/b.yml" then inr IsFile
  else if String.eqb p "tests/a.yaml" then inr IsFile
  else if String.eqb p "tests/notes.txt" then inr IsFile
  else inl "ENOENT: no such file or directory".

Definition readdirSync (p : string) : string + list string :=
  if String.eqb p "tests" then inr ["nested.yml"; "b.yml"; "notes.txt"; "a.yaml"]
  else inl "ENOTDIR: not a directory".

Definition path_join (a b : string) : string := a ++ "/" ++ b.

Definition path_resolve (p : string) : string := "/work/" ++ p.

Definition mkdirSync (w : Demo.World) : option string * Demo.World := (None, S w).

Definition connect (w : Demo.World) : option string * Demo.World := (None, S w).

Definition listTools (w : Demo.World) : (string + list ToolInfo) * Demo.World :=
  (inr (map snd [Demo.tool "browser_navigate"; Demo.tool "browser_click"]), S w).

Definition close (w : Demo.World) : option string * Demo.World := (None, S w).

Definition readFileSync (w : Demo.World) (_ : string) : (string + string) * Demo.World :=
  (inr Inputs.two_lines, S w).

Definition env : Env :=
  {| OPENAI_API_KEY := Some "sk-demo"; LLM_PROVIDER := None; argv2 := Some "tests" |}.

(** The suite, run with a provider scripted by [script]. *)
Definition run_suite (script : string -> CallOutcome)
  : Ending * Totals * Demo.World :=
  main Demo.now (Demo.callTool script) (Demo.generateText Inputs.plan_two_text)
    (Demo.JSON_parse Inputs.known) Demo.ToNumber Demo.writeReport
    existsSync statSync readdirSync path_join path_resolve
    mkdirSync connect listTools close readFileSync env 0%nat.

End Suite.

(** * Predefined screenshot names *)

(** The class [[a-zA-Z0-9-_]] of [generateScreenshotName]. *)
Definition is_name_char (c : ascii) : bool :=
  let n := code c in
  (((97 <=? n) && (n <=? 122)) || ((65 <=? n) && (n <=? 90))
   || ((48 <=? n) && (n <=? 57)) || (n =? 45) || (n =? 95))%nat.

(** [testName.replace(/[^a-zA-Z0-9-_]/g, '_')]. *)
Fixpoint sanitize (s : string) : string :=
  match s with
  | EmptyString => EmptyString
  | String c r => String (if is_name_char c then c else "_"%char) (sanitize r)
  end.

(** [s.padStart(2, '0')]. *)
Definition padStart2 (s : string) : string :=
  match s with
  | EmptyString => "00"
  | String _ EmptyString => String "0" s
  | _ => s
  end.

(** [generateScreenshotName(testName, actionIndex, actionType)] when
    [Date.now()] is [timestamp].  The index is that of an action, counted
    from 0, and the time an integer of at most sixteen digits: [String]
    prints both in full. *)
Definition generateScreenshotName (testName : string) (actionIndex : nat)
  (actionType : string) (timestamp : Z) : string :=
  toLowerCase (sanitize testName) ++ "_action"
  ++ padStart2 (Json.number (Z.of_nat actionIndex + 1)) ++ "_" ++ actionType ++ "_"
  ++ Json.number timestamp ++ ".png".

(** A character that can stand inside one file name recognised by the
    image expression: of the token class, and neither a dot nor a slash. *)
Definition word_char (c : ascii) : bool :=
  is_token c && negb (Ascii.eqb c ".") && negb (Ascii.eqb c "/").

Definition word_like (s : string) : bool :=
  forallb word_char (list_ascii_of_string s).

(** ** A planner that fails *)

Module Outage.

(** A planner whose call is rejected. *)
Definition planner (w : Demo.World) (_ : PlanningPrompt)
  : (string + string) * Demo.World :=
  (inl "429 Too Many Requests", S w).

End Outage.
(** * Properties *)

Unset Implicit Arguments.

(** ** The string primitives on sample inputs *)

Example trim_examples :
  trim ("  a b  " ++ nl) = "a b" /\
  trim (nl ++ "  ") = EmptyString /\
  toLowerCase "FaLsE" = "false" /\
  split_lines ("- a" ++ nl ++ "b" ++ nl) = ["- a"; "b"; EmptyString] /\
  step_lines ("name: demo" ++ nl ++ "  - open" ++ nl ++ "- click") = ["  - open"; "- click"].
Proof. repeat split; reflexivity. Qed.

Example result_match_examples :
  result_match ("### Result" ++ nl ++ "false") = Some "false" /\
  result_match ("x ### result   FALSE  " ++ nl ++ "y") = Some "FALSE  " /\
  result_match "### Result " = None /\
  result_match "### Result  " = Some " " /\
  result_match ("### Result " ++ nl) = None /\
  result_match "###Result false" = None /\
  result_match ("### Result true" ++ nl ++ "### Result false") = Some "true".
Proof. repeat split; reflexivity. Qed.

Example image_matches_examples :
  image_matches "saved shot1.png and then (shot2.jpg) 'a/b/c.JPEG' x.pngy.jpg"
  = ["shot1.png"; "shot2.jpg"; "a/b/c.JPEG"; "x.png"; "y.jpg"] /\
  image_matches "a.png.jpg" = ["a.png"] /\
  image_matches ".png x..png" = ["x..png"] /\
  image_matches "no image here" = [] /\
  Path.basename "a/b/c.JPEG" = "c.JPEG" /\
  Path.join screenshotsDir "c.JPEG" = "mcp-workspace/test-screenshots/c.JPEG".
Proof. repeat split; reflexivity. Qed.

Example strip_mcp_examples :
  strip_mcp "mcp_browser_click" = "browser_click" /\
  strip_mcp "browser_click" = "browser_click" /\
  strip_mcp "mcp_mcp_x" = "mcp_x".
Proof. repeat split; reflexivity. Qed.

Example stringify_examples :
  Json.stringify (JArr [JNum (-12); JNull; JBool true; JObj []]) = "[-12,null,true,{}]" /\
  Json.escape_all ("a" ++ nl ++ "b") = "a\nb" /\
  stringify_content None = "undefined".
Proof. repeat split; reflexivity. Qed.

(** Only the leftmost marker of the first text block counts. *)
Example first_marker_only :
  returned_false
    {| content := Some [text_block ("### Result true" ++ nl ++ "### Result false")];
       isError := false |} = false /\
  returned_false
    {| content := Some [{| c_type := "image"; c_text := None; c_more := [] |};
                        text_block "### Result FALSE"];
       isError := false |} = true.
Proof. split; reflexivity. Qed.

(** ** Strings and serialisation *)

Lemma length_append (s1 s2 : string) :
  String.length (s1 ++ s2) = (String.length s1 + String.length s2)%nat.
Proof. induction s1 as [|c s1 IH]; simpl; [reflexivity|]. rewrite IH. reflexivity. Qed.

Lemma app_empty_r (s : string) : s ++ EmptyString = s.
Proof. induction s as [|c s IH]; simpl; [reflexivity|]. rewrite IH. reflexivity. Qed.

Lemma app_assoc_s (s1 s2 s3 : string) : (s1 ++ s2) ++ s3 = s1 ++ (s2 ++ s3).
Proof. induction s1 as [|c s1 IH]; simpl; [reflexivity|]. rewrite IH. reflexivity. Qed.

Lemma escape_length (c : ascii) : (1 <= String.length (Json.escape c))%nat.
Proof.
  unfold Json.escape.
  repeat match goal with |- context [if ?b then _ else _] => destruct b end;
    simpl; lia.
Qed.

Lemma escape_all_length (s : string) :
  (String.length s <= String.length (Json.escape_all s))%nat.
Proof.
  induction s as [|c s IH]; simpl; [lia|].
  rewrite length_append. pose proof (escape_length c). lia.
Qed.

Lemma quote_length (s : string) : (String.length s <= String.length (Json.quote s))%nat.
Proof.
  unfold Json.quote. rewrite !length_append. pose proof (escape_all_length s). lia.
Qed.

Lemma join_length_head (sep a : string) (l : list string) :
  (String.length a <= String.length (JsString.join sep (a :: l)))%nat.
Proof. destruct l; simpl; [lia|]. rewrite length_append. lia. Qed.

Lemma join_length_tail (sep a : string) (l : list string) :
  (String.length (JsString.join sep l) <= String.length (JsString.join sep (a :: l)))%nat.
Proof.
  destruct l as [|b l]; [simpl; lia|].
  change (JsString.join sep (a :: b :: l)) with (a ++ sep ++ JsString.join sep (b :: l)).
  rewrite !length_append. lia.
Qed.

Lemma join_length_sum (sep : string) (l : list string) :
  (list_sum (map String.length l) <= String.length (JsString.join sep l))%nat.
Proof.
  induction l as [|a l IH]; [simpl; lia|].
  destruct l as [|b l]; [simpl; lia|].
  change (JsString.join sep (a :: b :: l)) with (a ++ sep ++ JsString.join sep (b :: l)).
  rewrite !length_append. simpl in *. lia.
Qed.

(** The serialisation of a block is at least as long as its text. *)
Lemma stringify_obj_cons (k : string) (v : JsValue) (props : list (string * JsValue)) :
  (String.length (Json.stringify v)
   <= String.length (Json.stringify (JObj ((k, v) :: props))))%nat.
Proof.
  cbn [Json.stringify].
  match goal with
  | |- (_ <= String.length (_ ++ JsString.join "," (?a :: ?l) ++ _))%nat =>
      pose proof (join_length_head "," a l) as H; revert H;
      generalize (JsString.join "," (a :: l))
  end.
  intros s. rewrite !length_append. simpl. lia.
Qed.

Lemma stringify_obj_tail (k : string) (v : JsValue) (props : list (string * JsValue)) :
  (String.length (Json.stringify (JObj props))
   <= String.length (Json.stringify (JObj ((k, v) :: props))))%nat.
Proof.
  cbn [Json.stringify].
  match goal with
  | |- (String.length (_ ++ JsString.join "," ?l ++ _)
        <= String.length (_ ++ JsString.join "," (?a :: ?l) ++ _))%nat =>
      pose proof (join_length_tail "," a l) as H; revert H;
      generalize (JsString.join "," (a :: l)); generalize (JsString.join "," l)
  end.
  intros s1 s2. rewrite !length_append. simpl. lia.
Qed.

Lemma block_value_length (c : ContentBlock) :
  (String.length (text_of c) <= String.length (Json.stringify (block_value c)))%nat.
Proof.
  unfold block_value, text_of. destruct (c_text c) as [t|]; [|simpl; lia].
  etransitivity; [|apply stringify_obj_tail].
  etransitivity; [|apply stringify_obj_cons].
  apply quote_length.
Qed.

(** The serialised payload is at least as long as the text it carries. *)
Lemma stringify_content_length (blocks : list ContentBlock) :
  (total_text blocks <= String.length (stringify_content (Some blocks)))%nat.
Proof.
  unfold stringify_content, total_text. cbn [Json.stringify].
  rewrite !length_append.
  match goal with
  | |- (_ <= _ + (String.length (JsString.join "," ?l) + _))%nat =>
      assert (Hl : (list_sum (map (fun c => String.length (text_of c)) blocks)
                    <= list_sum (map String.length l))%nat);
      [|pose proof (join_length_sum "," l) as Hj; revert Hl Hj;
        generalize (JsString.join "," l); generalize (list_sum (map String.length l))]
  end.
  - induction blocks as [|c blocks IH]; [simpl; lia|].
    pose proof (block_value_length c) as Hc.
    cbn [map list_sum]. apply Nat.add_le_mono; [exact Hc|exact IH].
  - intros n s. lia.
Qed.

(** ** The image expression *)

Lemma strip_ci_sound (lit : string) :
  forall s rest, strip_ci lit s = Some rest ->
  exists e, s = e ++ rest /\ String.length e = String.length lit /\
            toLowerCase e = toLowerCase lit.
Proof.
  induction lit as [|a lit IH]; intros s rest H; simpl in H.
  - injection H as <-. exists EmptyString. repeat split.
  - destruct s as [|b s]; [discriminate|].
    destruct (Ascii.eqb (lower a) (lower b)) eqn:E; [|discriminate].
    apply Ascii.eqb_eq in E.
    destruct (IH _ _ H) as (e & -> & Hl & Hlow).
    exists (String b e). simpl. rewrite Hl, Hlow, E. repeat split.
Qed.

Lemma strip_ci_complete (lit : string) :
  forall e rest, toLowerCase e = toLowerCase lit -> strip_ci lit (e ++ rest) = Some rest.
Proof.
  induction lit as [|a lit IH]; intros e rest H; destruct e as [|b e]; simpl in *;
    try discriminate; [reflexivity|].
  injection H as Hc He. rewrite Hc, Ascii.eqb_refl. apply IH. exact He.
Qed.

Lemma ext_at_sound (s : string) (n : nat) :
  ext_at s = Some n ->
  exists e rest, s = e ++ rest /\ String.length e = n /\ is_image_ext e.
Proof.
  unfold ext_at, is_image_ext. intros H.
  destruct (strip_ci ".png" s) as [rest|] eqn:E1.
  { injection H as <-. destruct (strip_ci_sound _ _ _ E1) as (e & -> & Hl & Hlow).
    exists e, rest. auto. }
  destruct (strip_ci ".jpg" s) as [rest|] eqn:E2.
  { injection H as <-. destruct (strip_ci_sound _ _ _ E2) as (e & -> & Hl & Hlow).
    exists e, rest. auto. }
  destruct (strip_ci ".jpeg" s) as [rest|] eqn:E3; [|discriminate].
  injection H as <-. destruct (strip_ci_sound _ _ _ E3) as (e & -> & Hl & Hlow).
  exists e, rest. auto.
Qed.

Lemma ext_at_complete (e rest : string) :
  is_image_ext e -> ext_at (e ++ rest) <> None.
Proof.
  unfold ext_at, is_image_ext. intros [H|[H|H]].
  - rewrite (strip_ci_complete ".png" e rest H). discriminate.
  - destruct (strip_ci ".png" _); [discriminate|].
    rewrite (strip_ci_complete ".jpg" e rest H). discriminate.
  - destruct (strip_ci ".png" _); [discriminate|].
    destruct (strip_ci ".jpg" _); [discriminate|].
    rewrite (strip_ci_complete ".jpeg" e rest H). discriminate.
Qed.

Lemma take_app (a b : string) : take (String.length a) (a ++ b) = a.
Proof. induction a as [|c a IH]; simpl; [destruct b; reflexivity|]. rewrite IH. reflexivity. Qed.

Lemma drop_app (a b : string) : drop (String.length a) (a ++ b) = b.
Proof. induction a as [|c a IH]; simpl; [reflexivity|exact IH]. Qed.

(** The lazy tail matches a run of token characters and an extension. *)
Lemma lazy_token_sound (s : string) :
  forall n, lazy_token s = Some n ->
  exists stem e rest,
    s = stem ++ e ++ rest /\ String.length (stem ++ e) = n /\
    all_token stem = true /\ is_image_ext e.
Proof.
  induction s as [|c s IH]; intros n H.
  - simpl in H. discriminate.
  - cbn [lazy_token] in H.
    destruct (ext_at (String c s)) as [k|] eqn:E.
    + injection H as <-. destruct (ext_at_sound _ _ E) as (e & rest & Hs & Hl & He).
      exists EmptyString, e, rest. repeat split; assumption.
    + destruct (is_token c) eqn:Hc; [|discriminate].
      destruct (lazy_token s) as [k|] eqn:Hk; [|discriminate].
      injection H as <-.
      destruct (IH k eq_refl) as (stem & e & rest & -> & Hl & Hstem & He).
      exists (String c stem), e, rest. simpl. rewrite Hl, Hc, Hstem. repeat split.
      exact He.
Qed.

(** A match of the image expression is an image token at the beginning of
    the text. *)
Lemma image_at_sound (s : string) (n : nat) :
  image_at s = Some n ->
  image_token (take n s) /\ s = take n s ++ drop n s /\ (1 <= n)%nat.
Proof.
  unfold image_at. destruct s as [|c s]; [discriminate|].
  destruct (is_token c) eqn:Hc; [|discriminate].
  destruct (lazy_token s) as [k|] eqn:Hk; [|discriminate].
  intros [= <-].
  destruct (lazy_token_sound _ _ Hk) as (stem & e & rest & -> & Hl & Hstem & He).
  assert (Hm : String c (stem ++ e ++ rest) = (String c stem ++ e) ++ rest).
  { simpl. rewrite app_assoc_s. reflexivity. }
  assert (Hn : S k = String.length (String c stem ++ e)) by (simpl; rewrite Hl; reflexivity).
  rewrite Hn, Hm, take_app, drop_app.
  repeat split; [|simpl; lia].
  exists (String c stem), e. repeat split; try assumption; [discriminate|].
  simpl. rewrite Hc. exact Hstem.
Qed.

(** A token character followed by an extension starts a match. *)
Lemma image_at_complete (c : ascii) (e post : string) :
  is_token c = true -> is_image_ext e -> image_at (String c (e ++ post)) <> None.
Proof.
  intros Hc He. unfold image_at. rewrite Hc.
  pose proof (ext_at_complete e post He) as Hext.
  destruct (e ++ post) as [|x y] eqn:E.
  - exfalso. apply Hext. reflexivity.
  - cbn [lazy_token]. destruct (ext_at (String x y)); [discriminate|contradiction].
Qed.

Lemma image_matches_from_drop (s : string) :
  forall k, image_matches_from k s = image_matches (drop k s).
Proof.
  induction s as [|c s IH]; intros k; destruct k as [|k]; try reflexivity.
  simpl. apply IH.
Qed.

(** The global match, one position at a time. *)
Lemma image_matches_step (c : ascii) (s : string) :
  image_matches (String c s) =
  match image_at (String c s) with
  | Some n => take n (String c s) :: image_matches (drop n (String c s))
  | None => image_matches s
  end.
Proof.
  unfold image_matches at 1. cbn [image_matches_from].
  destruct (image_at (String c s)) as [n|] eqn:E; [|reflexivity].
  rewrite image_matches_from_drop.
  destruct (image_at_sound _ _ E) as (_ & _ & Hn).
  destruct n as [|n]; [lia|]. simpl. rewrite Nat.sub_0_r. reflexivity.
Qed.

Lemma all_token_last (stem : string) :
  stem <> EmptyString -> all_token stem = true ->
  exists init c, stem = init ++ String c EmptyString /\ is_token c = true.
Proof.
  induction stem as [|a stem IH]; intros Hne Hall; [contradiction|].
  simpl in Hall. apply andb_prop in Hall. destruct Hall as [Ha Hall].
  destruct stem as [|b stem].
  - exists EmptyString, a. split; [reflexivity|assumption].
  - destruct (IH ltac:(discriminate) Hall) as (init & c & -> & Hc).
    exists (String a init), c. split; [reflexivity|assumption].
Qed.

Lemma image_token_has_site (m : string) :
  image_token m ->
  exists init c e, m = init ++ String c (e ++ EmptyString) /\ is_token c = true /\
                   is_image_ext e.
Proof.
  intros (stem & e & -> & Hne & Hall & He).
  destruct (all_token_last _ Hne Hall) as (init & c & -> & Hc).
  exists init, c, e. rewrite app_assoc_s, app_empty_r. repeat split; assumption.
Qed.

Lemma no_image_token_tail (c : ascii) (s : string) :
  no_image_token (String c s) -> no_image_token s.
Proof.
  intros H pre c' e post Hs. apply (H (String c pre) c' e post). simpl. rewrite Hs.
  reflexivity.
Qed.

(** Nothing matches exactly when the text holds no image token. *)
Lemma image_matches_nil_iff (s : string) :
  image_matches s = [] <-> no_image_token s.
Proof.
  induction s as [|c s IH].
  - split; [|reflexivity]. intros _ pre c e post H. destruct pre; discriminate.
  - rewrite image_matches_step. split.
    + intros H. destruct (image_at (String c s)) as [n|] eqn:E; [discriminate|].
      intros pre c' e post Hs Hc He.
      destruct pre as [|p pre]; simpl in Hs; injection Hs as -> ->.
      * exact (image_at_complete _ _ post Hc He E).
      * exact (proj1 IH H pre c' e post eq_refl Hc He).
    + intros H. destruct (image_at (String c s)) as [n|] eqn:E.
      * exfalso. destruct (image_at_sound _ _ E) as (Htok & Hs & _).
        destruct (image_token_has_site _ Htok) as (init & c' & e & Hm & Hc & He).
        apply (H init c' e (drop n (String c s))); [|assumption|assumption].
        rewrite Hs at 1. rewrite Hm, app_empty_r, app_assoc_s. reflexivity.
      * apply IH. exact (no_image_token_tail _ _ H).
Qed.

Lemma drop_length_le (n : nat) (s : string) :
  (String.length (drop n s) <= String.length s)%nat.
Proof.
  revert s. induction n as [|n IH]; intros s; [simpl; lia|].
  destruct s as [|c s]; simpl; [lia|]. specialize (IH s). lia.
Qed.

Lemma last_cons {A : Type} (l : list A) :
  forall a d, last (a :: l) d = last l a.
Proof.
  induction l as [|b l IH]; intros a d; [reflexivity|].
  change (last (a :: b :: l) d) with (last (b :: l) d). rewrite !IH. reflexivity.
Qed.

(** The last match is an image token after which the text holds no other. *)
Lemma image_matches_last (s : string) :
  forall m ms, image_matches s = m :: ms ->
  exists pre post,
    s = pre ++ last ms m ++ post /\ image_token (last ms m) /\ no_image_token post.
Proof.
  remember (String.length s) as len eqn:Hlen.
  assert (Hle : (String.length s <= len)%nat) by lia. clear Hlen.
  revert s Hle. induction len as [|len IH]; intros s Hle m ms H.
  - destruct s; [discriminate|simpl in Hle; lia].
  - destruct s as [|c s]; [discriminate|].
    rewrite image_matches_step in H.
    destruct (image_at (String c s)) as [n|] eqn:E.
    + injection H as <- Hms.
      destruct (image_at_sound _ _ E) as (Htok & Hs & Hn).
      destruct ms as [|m' ms'].
      * exists EmptyString, (drop n (String c s)). simpl last.
        repeat split; [exact Hs|exact Htok|]. apply image_matches_nil_iff. exact Hms.
      * assert (Hd : (String.length (drop n (String c s)) <= len)%nat).
        { destruct n as [|n]; [lia|]. simpl. pose proof (drop_length_le n s).
          simpl in Hle. lia. }
        destruct (IH _ Hd _ _ Hms) as (pre & post & Hdrop & Htok' & Hpost).
        exists (take n (String c s) ++ pre), post.
        rewrite (last_cons ms' m' (take n (String c s))).
        repeat split; [|exact Htok'|exact Hpost].
        rewrite Hs at 1. rewrite Hdrop, app_assoc_s. reflexivity.
    + simpl in Hle.
      destruct (IH s ltac:(lia) _ _ H) as (pre & post & Hs & Htok & Hpost).
      exists (String c pre), post. repeat split; [|exact Htok|exact Hpost].
      simpl. rewrite Hs at 1. reflexivity.
Qed.

(** ** The result marker *)

Lemma take_line_no_newline (s : string) : no_newline (take_line s) = true.
Proof.
  induction s as [|c s IH]; simpl; [reflexivity|].
  destruct (is_newline c) eqn:E; simpl; [reflexivity|]. rewrite E. exact IH.
Qed.

Lemma take_line_split (s : string) :
  exists post, s = take_line s ++ post /\ line_end post.
Proof.
  induction s as [|c s (post & Hs & Hpost)]; simpl.
  - exists EmptyString. split; [reflexivity|left; reflexivity].
  - destruct (is_newline c) eqn:E.
    + exists (String c s). split; [reflexivity|]. right. exists s.
      unfold is_newline, code in E. apply Nat.eqb_eq in E.
      rewrite <- (ascii_nat_embedding c), E. reflexivity.
    + exists post. split; [|exact Hpost]. simpl. rewrite <- Hs. reflexivity.
Qed.

Lemma value_here_sound (s v : string) :
  value_here s = Some v ->
  v <> EmptyString /\ no_newline v = true /\ exists post, s = v ++ post /\ line_end post.
Proof.
  unfold value_here. destruct s as [|c s]; [discriminate|].
  destruct (is_newline c) eqn:E; [discriminate|]. intros [= <-].
  split; [simpl; rewrite E; discriminate|].
  split; [exact (take_line_no_newline (String c s))|exact (take_line_split (String c s))].
Qed.

(** What the white space and the group of the marker expression match. *)
Lemma spaces_value_sound (s : string) :
  forall v, spaces_value s = Some v ->
  exists ws post,
    s = ws ++ v ++ post /\ all_space ws = true /\
    v <> EmptyString /\ no_newline v = true /\ line_end post.
Proof.
  induction s as [|c s IH]; intros v H; [discriminate|].
  cbn [spaces_value] in H.
  assert (Hhere : value_here (String c s) = Some v ->
                  exists ws post,
                    String c s = ws ++ v ++ post /\ all_space ws = true /\
                    v <> EmptyString /\ no_newline v = true /\ line_end post).
  { intros Hv. destruct (value_here_sound _ _ Hv) as (Hne & Hnl & post & Hs & Hpost).
    exists EmptyString, post. repeat split; assumption. }
  destruct (is_space c) eqn:Hc; [|exact (Hhere H)].
  destruct (spaces_value s) as [v'|] eqn:Hs; [|exact (Hhere H)].
  injection H as <-.
  destruct (IH v' eq_refl) as (ws & post & -> & Hws & Hne & Hnl & Hpost).
  exists (String c ws), post. simpl. rewrite Hc, Hws. repeat split; assumption.
Qed.

Lemma result_at_sound (s v : string) :
  result_at s = Some v -> marker_line s v.
Proof.
  unfold result_at, result_tail, marker_line.
  destruct (strip_ci "### Result" s) as [rest|] eqn:E; [|discriminate].
  destruct (strip_ci_sound _ _ _ E) as (lit & -> & _ & Hlit).
  destruct rest as [|c rest]; [discriminate|].
  destruct (is_space c) eqn:Hc; [|discriminate].
  intros H. destruct (spaces_value_sound _ _ H) as (ws & post & -> & Hws & Hne & Hnl & Hpost).
  exists lit, (String c ws), post. simpl. rewrite Hc, Hws.
  repeat split; try assumption. discriminate.
Qed.

(** The group of the leftmost match: a marker line starts somewhere in the
    text, and none starts before it. *)
Lemma result_match_sound (text : string) :
  forall v, result_match text = Some v ->
  exists pre rest,
    text = pre ++ rest /\ marker_line rest v /\
    forall k, (k < String.length pre)%nat -> result_at (drop k text) = None.
Proof.
  induction text as [|c text IH]; intros v H; cbn [result_match] in H.
  - destruct (result_at EmptyString) as [v'|] eqn:E; [|discriminate].
    injection H as <-. exists EmptyString, EmptyString.
    split; [reflexivity|]. split; [apply result_at_sound; exact E|].
    intros k Hk. simpl in Hk. lia.
  - destruct (result_at (String c text)) as [v'|] eqn:E.
    + injection H as <-. exists EmptyString, (String c text).
      split; [reflexivity|]. split; [apply result_at_sound; exact E|].
      intros k Hk. simpl in Hk. lia.
    + destruct (IH v H) as (pre & rest & -> & Hline & Hleft).
      exists (String c pre), rest. split; [reflexivity|]. split; [exact Hline|].
      intros [|k] Hk; [exact E|]. simpl in Hk. apply Hleft. lia.
Qed.

Lemma is_space_lower (c : ascii) : is_space c = true -> lower c = c.
Proof.
  destruct c as [[] [] [] [] [] [] [] []]; intros H; try reflexivity;
    vm_compute in H; discriminate.
Qed.

Lemma lower_not_space (c : ascii) : is_space (lower c) = false -> is_space c = false.
Proof.
  intros H. destruct (is_space c) eqn:E; [|reflexivity].
  rewrite (is_space_lower _ E) in H. congruence.
Qed.

(** A string that is [false] up to case holds neither white space nor a
    line feed, and is its own trimming. *)
Lemma false_word (v : string) :
  toLowerCase v = "false" ->
  exists c1 c2 c3 c4 c5,
    v = String c1 (String c2 (String c3 (String c4 (String c5 EmptyString)))) /\
    is_space c1 = false /\ is_space c2 = false /\ is_space c3 = false /\
    is_space c4 = false /\ is_space c5 = false.
Proof.
  destruct v as [|c1 [|c2 [|c3 [|c4 [|c5 [|c6 v]]]]]]; try discriminate.
  simpl. intros [= H1 H2 H3 H4 H5].
  exists c1, c2, c3, c4, c5. split; [reflexivity|].
  repeat split; apply lower_not_space;
    [rewrite H1|rewrite H2|rewrite H3|rewrite H4|rewrite H5]; reflexivity.
Qed.

Lemma space_is_newline (c : ascii) : is_newline c = true -> is_space c = true.
Proof.
  unfold is_newline, is_space. intros H. apply Nat.eqb_eq in H. rewrite H. reflexivity.
Qed.

Lemma take_line_line_end (post : string) : line_end post -> take_line post = EmptyString.
Proof. intros [->|(p & ->)]; reflexivity. Qed.

(** A marker line at the beginning of the text whose value is [false] up
    to case is found, with that value. *)
Lemma result_match_false_line (lit ws v post : string) :
  toLowerCase lit = "### result" ->
  ws <> EmptyString -> all_space ws = true ->
  toLowerCase v = "false" -> line_end post ->
  marker_value (lit ++ ws ++ v ++ post) = Some "false".
Proof.
  intros Hlit Hne Hws Hv Hpost.
  destruct (false_word v Hv) as (c1 & c2 & c3 & c4 & c5 & -> & H1 & H2 & H3 & H4 & H5).
  assert (Hnl : forall c, is_space c = false -> is_newline c = false).
  { intros c Hc. destruct (is_newline c) eqn:E; [|reflexivity].
    rewrite (space_is_newline _ E) in Hc. discriminate. }
  remember (String c1 (String c2 (String c3 (String c4 (String c5 EmptyString)))))
    as word eqn:Hword.
  assert (Hsv : forall ws', all_space ws' = true ->
                            spaces_value (ws' ++ word ++ post) = Some word).
  { induction ws' as [|c ws' IH]; intros Hall.
    - rewrite Hword. simpl. rewrite H1. unfold value_here. rewrite (Hnl _ H1).
      simpl. rewrite (Hnl _ H2), (Hnl _ H3), (Hnl _ H4), (Hnl _ H5).
      rewrite (take_line_line_end _ Hpost). reflexivity.
    - simpl in Hall. apply andb_prop in Hall. destruct Hall as [Hc Hall].
      change (String c ws' ++ word ++ post) with (String c (ws' ++ word ++ post)).
      cbn [spaces_value]. rewrite Hc, (IH Hall). reflexivity. }
  assert (Hat : result_at (lit ++ ws ++ word ++ post) = Some word).
  { unfold result_at. rewrite (strip_ci_complete "### Result" lit _ Hlit).
    destruct ws as [|c ws]; [contradiction|].
    simpl in Hws. apply andb_prop in Hws. destruct Hws as [Hc Hws].
    change (String c ws ++ word ++ post) with (String c (ws ++ word ++ post)).
    cbn [result_tail]. rewrite Hc. apply Hsv. exact Hws. }
  unfold marker_value.
  assert (Hm : result_match (lit ++ ws ++ word ++ post) = Some word).
  { destruct (lit ++ ws ++ word ++ post); cbn [result_match]; rewrite Hat; reflexivity. }
  rewrite Hm. cbn [option_map]. f_equal.
  rewrite Hword in *. unfold trim. simpl. rewrite H1. simpl.
  rewrite H5. simpl. exact Hv.
Qed.

(** ** Matches do not cross a separator *)

Lemma not_token_lower (c : ascii) : is_token c = false -> lower c = c.
Proof.
  destruct c as [[] [] [] [] [] [] [] []]; intros H; try reflexivity;
    vm_compute in H; discriminate.
Qed.

(** A literal of token characters is matched, or not, without regard to
    what follows a character outside the token class. *)
Lemma strip_ci_separator (lit : string) :
  token_literal lit = true ->
  forall a c b, is_token c = false ->
  strip_ci lit (a ++ String c b) =
  option_map (fun rest => rest ++ String c b) (strip_ci lit a).
Proof.
  induction lit as [|x lit IH]; intros Hlit a c b Hc; [reflexivity|].
  simpl in Hlit. apply andb_prop in Hlit. destruct Hlit as [Hx Hlit].
  destruct a as [|y a]; simpl.
  - destruct (Ascii.eqb (lower x) (lower c)) eqn:E; [|reflexivity].
    apply Ascii.eqb_eq in E. rewrite E, (not_token_lower c Hc) in Hx. congruence.
  - destruct (Ascii.eqb (lower x) (lower y)); [|reflexivity]. apply IH; assumption.
Qed.

Lemma ext_at_separator (a : string) (c : ascii) (b : string) :
  is_token c = false -> ext_at (a ++ String c b) = ext_at a.
Proof.
  intros Hc. unfold ext_at.
  rewrite !(fun lit H => strip_ci_separator lit H a c b Hc) by reflexivity.
  destruct (strip_ci ".png" a); [reflexivity|].
  destruct (strip_ci ".jpg" a); [reflexivity|].
  destruct (strip_ci ".jpeg" a); reflexivity.
Qed.

Lemma lazy_token_separator (a : string) (c : ascii) (b : string) :
  is_token c = false -> lazy_token (a ++ String c b) = lazy_token a.
Proof.
  intros Hc. induction a as [|x a IH].
  - change (EmptyString ++ String c b) with (String c b). cbn [lazy_token].
    pose proof (ext_at_separator EmptyString c b Hc) as He.
    change (EmptyString ++ String c b) with (String c b) in He.
    rewrite He, Hc. reflexivity.
  - change (String x a ++ String c b) with (String x (a ++ String c b)).
    cbn [lazy_token].
    change (String x (a ++ String c b)) with (String x a ++ String c b).
    rewrite (ext_at_separator (String x a) c b Hc), IH. reflexivity.
Qed.

Lemma image_at_separator (a : string) (c : ascii) (b : string) :
  is_token c = false -> image_at (a ++ String c b) = image_at a.
Proof.
  intros Hc. destruct a as [|x a]; simpl.
  - rewrite Hc. reflexivity.
  - rewrite (lazy_token_separator a c b Hc). reflexivity.
Qed.

(** A match as a prefix of the text. *)
Lemma image_at_split (s : string) (n : nat) :
  image_at s = Some n ->
  exists m rest, s = m ++ rest /\ String.length m = n /\ (1 <= n)%nat.
Proof.
  unfold image_at. destruct s as [|c s]; [discriminate|].
  destruct (is_token c); [|discriminate].
  destruct (lazy_token s) as [k|] eqn:Hk; [|discriminate].
  intros [= <-].
  destruct (lazy_token_sound _ _ Hk) as (stem & e & rest & -> & Hl & _).
  exists (String c (stem ++ e)), rest. simpl. rewrite Hl, app_assoc_s.
  repeat split. lia.
Qed.

(** The matches of a text are those before a separator and then those
    after it. *)
Lemma image_matches_separator (a : string) :
  forall c b, is_token c = false ->
  image_matches (a ++ String c b) = (image_matches a ++ image_matches b)%list.
Proof.
  remember (String.length a) as len eqn:Hlen.
  assert (Hle : (String.length a <= len)%nat) by lia. clear Hlen.
  revert a Hle. induction len as [|len IH]; intros a Hle c b Hc.
  - destruct a; [|simpl in Hle; lia].
    change (EmptyString ++ String c b) with (String c b).
    rewrite image_matches_step. unfold image_at. rewrite Hc. reflexivity.
  - destruct a as [|x a].
    + change (EmptyString ++ String c b) with (String c b).
      rewrite image_matches_step. unfold image_at. rewrite Hc. reflexivity.
    + change (String x a ++ String c b) with (String x (a ++ String c b)).
      rewrite !image_matches_step.
      change (String x (a ++ String c b)) with (String x a ++ String c b).
      rewrite (image_at_separator (String x a) c b Hc).
      destruct (image_at (String x a)) as [n|] eqn:E.
      * destruct (image_at_split _ _ E) as (m & rest & Hs & Hm & Hn).
        rewrite Hs, app_assoc_s, <- Hm, !take_app, !drop_app.
        simpl. f_equal. apply IH; [|exact Hc].
        assert (String.length (String x a) = String.length m + String.length rest)%nat
          by (rewrite Hs, length_append; reflexivity).
        simpl in H, Hle. lia.
      * simpl in Hle. apply IH; [lia|exact Hc].
Qed.

(** After a separator, [shot2.jpg] followed by text without image token
    is the last match. *)
Lemma image_matches_shot2 (before : string) (c : ascii) (post : string) :
  is_token c = false -> no_image_token post ->
  image_matches (before ++ String c ("shot2.jpg" ++ post))
  = (image_matches before ++ ["shot2.jpg"])%list.
Proof.
  intros Hc Hpost. rewrite (image_matches_separator before c _ Hc). f_equal.
  change ("shot2.jpg" ++ post) with (String "s" ("hot2.jpg" ++ post)).
  rewrite image_matches_step.
  change (image_at (String "s" ("hot2.jpg" ++ post))) with (Some 9%nat).
  cbn [take drop append]. f_equal. apply image_matches_nil_iff. exact Hpost.
Qed.

(** ** Screenshot correlation *)

(** [extractScreenshotPath] in terms of the matches of the image expression
    in the concatenated text. *)
Lemma extractScreenshotPath_matches (result : McpResult) (blocks : list ContentBlock) :
  content result = Some blocks ->
  extractScreenshotPath result =
  match image_matches (fullText blocks) with
  | [] => None
  | m :: ms => Some (Path.join screenshotsDir (Path.basename (last ms m)))
  end.
Proof.
  intros H. unfold extractScreenshotPath. rewrite H.
  destruct (fullText blocks); reflexivity.
Qed.

(** The path when the last match is [shot2.jpg]. *)
Lemma extractScreenshotPath_shot2 (result : McpResult) (blocks : list ContentBlock)
  (earlier : list string) :
  content result = Some blocks ->
  image_matches (fullText blocks) = (earlier ++ ["shot2.jpg"])%list ->
  extractScreenshotPath result = Some "mcp-workspace/test-screenshots/shot2.jpg".
Proof.
  intros Hc Hm. rewrite (extractScreenshotPath_matches result blocks Hc), Hm.
  destruct earlier as [|m earlier]; [reflexivity|].
  change ((m :: earlier) ++ ["shot2.jpg"])%list with (m :: (earlier ++ ["shot2.jpg"]))%list.
  cbv beta iota. rewrite last_last. reflexivity.
Qed.

(** ** Paths *)

Lemma lower_slash (c : ascii) : Ascii.eqb "/" (lower c) = Ascii.eqb "/" c.
Proof. destruct c as [[] [] [] [] [] [] [] []]; reflexivity. Qed.

Lemma has_slash_lower (s : string) : has_slash (toLowerCase s) = has_slash s.
Proof.
  unfold has_slash. induction s as [|c s IH]; [reflexivity|].
  cbn [toLowerCase list_ascii_of_string existsb]. rewrite lower_slash, IH. reflexivity.
Qed.

Lemma has_slash_app (a b : string) : has_slash (a ++ b) = has_slash a || has_slash b.
Proof.
  unfold has_slash. induction a as [|c a IH]; [reflexivity|].
  cbn [append list_ascii_of_string existsb]. rewrite IH, orb_assoc. reflexivity.
Qed.

Lemma image_ext_no_slash (e : string) : is_image_ext e -> has_slash e = false.
Proof.
  intros H. rewrite <- has_slash_lower. destruct H as [->|[->| ->]]; reflexivity.
Qed.

Lemma image_ext_nonempty (e : string) : is_image_ext e -> e <> EmptyString.
Proof. intros [H|[H|H]] ->; discriminate. Qed.

Lemma last_segment_no_slash (s : string) : has_slash s = false -> Path.last_segment s = s.
Proof.
  destruct s as [|c r]; [reflexivity|]. unfold has_slash.
  cbn [list_ascii_of_string existsb Path.last_segment].
  intros H. apply orb_false_elim in H. destruct H as [Hc Hr].
  rewrite Hr. rewrite Ascii.eqb_sym, Hc. reflexivity.
Qed.

Lemma last_segment_app (stem e : string) :
  has_slash e = false ->
  Path.last_segment (stem ++ e) = Path.last_segment stem ++ e.
Proof.
  intros He. induction stem as [|c r IH]; [apply last_segment_no_slash; exact He|].
  cbn [append Path.last_segment].
  fold (has_slash (r ++ e)). fold (has_slash r).
  rewrite has_slash_app, He, orb_false_r.
  destruct (has_slash r); [exact IH|].
  destruct (Ascii.eqb c "/"); reflexivity.
Qed.

Lemma last_segment_has_no_slash (s : string) : has_slash (Path.last_segment s) = false.
Proof.
  induction s as [|c r IH]; [reflexivity|].
  cbn [Path.last_segment]. fold (has_slash r).
  destruct (has_slash r) eqn:Hr; [exact IH|].
  destruct (Ascii.eqb c "/") eqn:Hc; [exact Hr|].
  unfold has_slash. cbn [list_ascii_of_string existsb]. fold (has_slash r).
  rewrite Hr, Ascii.eqb_sym, Hc. reflexivity.
Qed.

Lemma last_segment_after_slash (dir file : string) :
  has_slash file = false ->
  Path.last_segment (dir ++ String "/" file) = file.
Proof.
  intros Hf. induction dir as [|c r IH].
  - cbn [append Path.last_segment]. fold (has_slash file).
    rewrite Hf, Ascii.eqb_refl. reflexivity.
  - cbn [append Path.last_segment]. fold (has_slash (r ++ String "/" file)).
    rewrite has_slash_app. unfold has_slash at 2.
    cbn [list_ascii_of_string existsb]. rewrite Ascii.eqb_refl.
    cbn [orb]. rewrite orb_true_r. exact IH.
Qed.

(** A path whose last character is not a slash has no trailing slash to
    strip. *)
Lemma strip_trailing_slashes_end (s : string) (c : ascii) :
  Ascii.eqb c "/" = false ->
  Path.strip_trailing_slashes (s ++ String c EmptyString) = s ++ String c EmptyString.
Proof.
  intros Hc. induction s as [|a s IH].
  - cbn [append Path.strip_trailing_slashes]. rewrite Hc. reflexivity.
  - cbn [append Path.strip_trailing_slashes]. rewrite IH.
    destruct s; reflexivity.
Qed.

Lemma string_last (s : string) :
  s <> EmptyString -> exists init c, s = init ++ String c EmptyString.
Proof.
  induction s as [|a s IH]; [congruence|]. intros _.
  destruct s as [|b s'].
  - exists EmptyString, a. reflexivity.
  - destruct (IH ltac:(discriminate)) as (init & c & ->).
    exists (String a init), c. reflexivity.
Qed.

Lemma strip_trailing_slashes_ext (x e : string) :
  is_image_ext e ->
  Path.strip_trailing_slashes (x ++ e) = x ++ e.
Proof.
  intros He.
  destruct (string_last e (image_ext_nonempty e He)) as (init & c & ->).
  pose proof (image_ext_no_slash _ He) as Hs.
  rewrite has_slash_app in Hs. apply orb_false_elim in Hs. destruct Hs as [_ Hs].
  unfold has_slash in Hs. cbn [list_ascii_of_string existsb] in Hs.
  rewrite orb_false_r, Ascii.eqb_sym in Hs.
  rewrite <- app_assoc_s. apply strip_trailing_slashes_end. exact Hs.
Qed.

(** The path built from a token: the screenshots directory and the part
    of the token behind its last slash. *)
Lemma token_path (m file : string) :
  image_token m -> file_of m file ->
  Path.join screenshotsDir (Path.basename m) = screenshotsDir ++ "/" ++ file.
Proof.
  intros (stem & e & Hm & _ & _ & He) (dir & Hdir & Hfile & Hd).
  assert (Hbase : Path.basename m = file).
  { unfold Path.basename. rewrite Hm, (strip_trailing_slashes_ext stem e He), <- Hm, Hdir.
    destruct Hd as [->|(d & ->)]; [apply last_segment_no_slash; exact Hfile|].
    rewrite app_assoc_s. apply (last_segment_after_slash d file Hfile). }
  rewrite Hbase. unfold Path.join. destruct file as [|c file]; [|reflexivity].
  exfalso. rewrite app_empty_r in Hdir.
  destruct Hd as [->|(d & ->)].
  - rewrite Hdir in Hm. destruct stem; [|discriminate].
    symmetry in Hm. exact (image_ext_nonempty e He Hm).
  - assert (Hs : Path.strip_trailing_slashes m = m).
    { rewrite Hm. apply strip_trailing_slashes_ext. exact He. }
    rewrite Hdir in Hs. clear - Hs.
    assert (Hneq : forall x, Path.strip_trailing_slashes (x ++ "/") <> x ++ "/").
    { induction x as [|a x IH]; [discriminate|].
      cbn [append Path.strip_trailing_slashes].
      destruct (Path.strip_trailing_slashes (x ++ "/")) as [|b y] eqn:E.
      - destruct (Ascii.eqb a "/"); [discriminate|].
        intros H. injection H as H. destruct x; discriminate.
      - intros H. injection H as H. apply IH. exact H. }
    exact (Hneq d Hs).
Qed.

(** Every token has such a part. *)
Lemma file_of_total (m : string) : exists file, file_of m file.
Proof.
  exists (Path.last_segment m). unfold file_of.
  assert (H : exists dir, m = dir ++ Path.last_segment m /\
                          (dir = EmptyString \/ exists d, dir = d ++ "/")).
  { induction m as [|c r (dir & Hr & Hd)];
      [exists EmptyString; split; [reflexivity|left; reflexivity]|].
    cbn [Path.last_segment]. fold (has_slash r).
    destruct (has_slash r) eqn:Hs.
    - exists (String c dir). split; [cbn [append]; rewrite <- Hr; reflexivity|].
      right. destruct Hd as [->|(d & ->)].
      + exfalso. cbn [append] in Hr.
        pose proof (last_segment_has_no_slash r) as Hn. rewrite <- Hr in Hn. congruence.
      + exists (String c d). reflexivity.
    - destruct (Ascii.eqb c "/") eqn:Hc.
      + apply Ascii.eqb_eq in Hc. subst c. exists "/". split; [reflexivity|].
        right. exists EmptyString. reflexivity.
      + exists EmptyString. split; [reflexivity|left; reflexivity]. }
  destruct H as (dir & Hm & Hd). exists dir.
  split; [exact Hm|]. split; [apply last_segment_has_no_slash|exact Hd].
Qed.

(** ** The tokens of a text and the matches of the image expression *)

Lemma length_toLowerCase (s : string) : String.length (toLowerCase s) = String.length s.
Proof. induction s as [|c s IH]; [reflexivity|]. simpl. rewrite IH. reflexivity. Qed.

Lemma toLowerCase_app (a b : string) :
  toLowerCase (a ++ b) = toLowerCase a ++ toLowerCase b.
Proof. induction a as [|c a IH]; [reflexivity|]. simpl. rewrite IH. reflexivity. Qed.

Lemma image_ext_length (e : string) :
  is_image_ext e -> (4 <= String.length e <= 5)%nat.
Proof.
  intros [H|[H|H]]; rewrite <- length_toLowerCase, H; simpl; lia.
Qed.

Lemma common_prefix (a x b y : string) :
  a ++ x = b ++ y -> (String.length a <= String.length b)%nat ->
  exists t, b = a ++ t.
Proof.
  revert b. induction a as [|c a IH]; intros b H Hl; [exists b; reflexivity|].
  destruct b as [|c' b]; [simpl in Hl; lia|].
  cbn [append] in H. injection H as -> H. simpl in Hl.
  destruct (IH b H ltac:(lia)) as (t & ->). exists t. reflexivity.
Qed.

(** Two image extensions that begin at the same place have the same
    length. *)
Lemma image_ext_same_length (e x e' y : string) :
  is_image_ext e -> is_image_ext e' -> e ++ x = e' ++ y ->
  String.length e = String.length e'.
Proof.
  assert (Hle : forall e x e' y,
             is_image_ext e -> is_image_ext e' -> e ++ x = e' ++ y ->
             (String.length e <= String.length e')%nat ->
             String.length e = String.length e').
  { clear. intros e x e' y He He' H Hl.
    destruct (common_prefix e x e' y H Hl) as (t & ->).
    rewrite length_append.
    destruct t as [|c t]; [simpl; lia|]. exfalso.
    unfold is_image_ext in He, He'. rewrite toLowerCase_app in He'.
    destruct He as [He|[He|He]]; rewrite He in He';
      destruct He' as [He'|[He'|He']]; simpl in He'; try discriminate;
      injection He' as Hc Ht; try discriminate. }
  intros He He' H.
  destruct (Nat.le_ge_cases (String.length e) (String.length e')) as [Hl|Hl].
  - exact (Hle e x e' y He He' H Hl).
  - symmetry. exact (Hle e' y e x He' He (eq_sym H) Hl).
Qed.

(** The lazy tail takes as few characters as an extension allows. *)
Lemma lazy_token_least (s : string) :
  forall n stem e rest,
    lazy_token s = Some n ->
    s = stem ++ e ++ rest -> all_token stem = true -> is_image_ext e ->
    (n <= String.length stem + String.length e)%nat.
Proof.
  induction s as [|c s IH]; intros n stem e rest H Hs Hstem He.
  - simpl in H. discriminate.
  - cbn [lazy_token] in H.
    destruct (ext_at (String c s)) as [k|] eqn:E.
    + injection H as <-.
      destruct (ext_at_sound _ _ E) as (e0 & rest0 & Hs0 & Hl0 & He0).
      destruct stem as [|c' stem].
      * cbn [append] in Hs. rewrite Hs0 in Hs.
        rewrite <- Hl0, (image_ext_same_length e0 rest0 e rest He0 He Hs). simpl. lia.
      * pose proof (image_ext_length e0 He0). pose proof (image_ext_length e He).
        simpl. lia.
    + destruct (is_token c) eqn:Hc; [|discriminate].
      destruct (lazy_token s) as [k|] eqn:Hk; [|discriminate].
      injection H as <-.
      destruct stem as [|c' stem].
      * exfalso. cbn [append] in Hs. rewrite Hs in E.
        exact (ext_at_complete e rest He E).
      * cbn [append] in Hs. injection Hs as -> Hs.
        cbn [all_token] in Hstem. apply andb_prop in Hstem. destruct Hstem as [_ Hstem].
        pose proof (IH k stem e rest eq_refl Hs Hstem He). simpl. lia.
Qed.

Lemma lazy_token_finds (stem e rest : string) :
  all_token stem = true -> is_image_ext e -> lazy_token (stem ++ e ++ rest) <> None.
Proof.
  intros Hstem He. induction stem as [|c stem IH].
  - cbn [append]. pose proof (ext_at_complete e rest He) as Hext.
    destruct (e ++ rest) as [|x y] eqn:E; [exfalso; apply Hext; reflexivity|].
    cbn [lazy_token]. destruct (ext_at (String x y)); [discriminate|contradiction].
  - cbn [all_token] in Hstem. apply andb_prop in Hstem. destruct Hstem as [Hc Hstem].
    cbn [append lazy_token]. destruct (ext_at _); [discriminate|].
    rewrite Hc. destruct (lazy_token (stem ++ e ++ rest)); [discriminate|].
    exfalso. exact (IH Hstem eq_refl).
Qed.

(** Where a token begins, the image expression matches. *)
Lemma image_at_finds (s m : string) : token_prefix s m -> image_at s <> None.
Proof.
  intros ((rest & ->) & stem & e & -> & Hne & Hstem & He).
  destruct stem as [|c stem]; [congruence|].
  cbn [all_token] in Hstem. apply andb_prop in Hstem. destruct Hstem as [Hc Hstem].
  rewrite app_assoc_s. cbn [append image_at]. rewrite Hc.
  pose proof (lazy_token_finds stem e rest Hstem He) as H.
  destruct (lazy_token (stem ++ e ++ rest)); [discriminate|contradiction].
Qed.

(** What the image expression matches at the beginning of a text is the
    first token there. *)
Lemma image_at_first (s : string) (n : nat) :
  image_at s = Some n ->
  first_token s (take n s) /\ String.length (take n s) = n /\
  s = take n s ++ drop n s /\ (1 <= n)%nat.
Proof.
  intros H. destruct (image_at_sound s n H) as (Htok & Hs & Hn).
  assert (Hlen : String.length (take n s) = n).
  { unfold image_at in H. destruct s as [|c s]; [discriminate|].
    destruct (is_token c); [|discriminate].
    destruct (lazy_token s) as [k|] eqn:Hk; [|discriminate]. injection H as <-.
    destruct (lazy_token_sound _ _ Hk) as (stem & e & rest & -> & Hl & _).
    cbn [take String.length]. f_equal. rewrite <- Hl, <- app_assoc_s.
    rewrite take_app. reflexivity. }
  split; [|auto]. split.
  - split; [exists (drop n s); exact Hs|exact Htok].
  - intros m' ((rest' & Hm') & stem' & e' & -> & Hne' & Hstem' & He').
    rewrite Hlen. unfold image_at in H. destruct s as [|c s]; [discriminate|].
    destruct (is_token c); [|discriminate].
    destruct (lazy_token s) as [k|] eqn:Hk; [|discriminate]. injection H as <-.
    destruct stem' as [|c' stem']; [congruence|].
    rewrite app_assoc_s in Hm'. cbn [append] in Hm'. injection Hm' as -> Hm'.
    cbn [all_token] in Hstem'. apply andb_prop in Hstem'. destruct Hstem' as [_ Hstem'].
    pose proof (lazy_token_least s k stem' e' rest' Hk Hm' Hstem' He') as Hle.
    rewrite length_append. simpl. lia.
Qed.

Lemma same_length_prefix (a x b y : string) :
  a ++ x = b ++ y -> String.length a = String.length b -> a = b /\ x = y.
Proof.
  revert b. induction a as [|c a IH]; intros [|c' b] H Hl; simpl in Hl; try lia.
  - split; [reflexivity|exact H].
  - cbn [append] in H. injection H as -> H.
    destruct (IH b H ltac:(lia)) as [-> ->]. split; reflexivity.
Qed.

(** The tokens of a text are the matches of the image expression. *)
Lemma image_tokens_matches (s : string) (ms : list string) :
  image_tokens s ms -> ms = image_matches s.
Proof.
  induction 1 as [|c s ms Hnone _ IH|m rest ms Hfirst _ IH]; [reflexivity| |].
  - rewrite image_matches_step.
    destruct (image_at (String c s)) as [n|] eqn:E; [|exact IH].
    exfalso. destruct (image_at_first _ _ E) as ((Htok & _) & _).
    exact (Hnone _ Htok).
  - destruct Hfirst as (Htok & Hmin).
    pose proof (image_at_finds _ _ Htok) as Hfinds.
    destruct (image_at (m ++ rest)) as [n|] eqn:E; [|contradiction].
    destruct (image_at_first _ _ E) as ((Htok' & Hmin') & Hlen & Hs & Hn).
    pose proof (Hmin _ Htok') as H1. pose proof (Hmin' _ Htok) as H2.
    destruct (same_length_prefix m rest (take n (m ++ rest)) (drop n (m ++ rest)) Hs
                ltac:(lia)) as [Hm Hrest].
    destruct (m ++ rest) as [|c s] eqn:Es; [discriminate|].
    rewrite image_matches_step, E, <- Hm, <- Hrest, IH. reflexivity.
Qed.

Lemma image_tokens_total :
  forall n s, (String.length s <= n)%nat -> image_tokens s (image_matches s).
Proof.
  induction n as [|n IH]; intros [|c s] Hl;
    [apply tokens_end|simpl in Hl; lia|apply tokens_end|].
  rewrite image_matches_step.
  destruct (image_at (String c s)) as [k|] eqn:E.
  - destruct (image_at_first _ _ E) as (Hfirst & Hlen & Hs & Hk).
    rewrite Hs at 1. constructor; [rewrite <- Hs; exact Hfirst|].
    apply IH.
    assert (String.length (String c s)
            = (String.length (take k (String c s))
               + String.length (drop k (String c s)))%nat)
      by (rewrite <- length_append, <- Hs; reflexivity).
    simpl in Hl. simpl String.length in H at 1. lia.
  - constructor; [|apply IH; simpl in Hl; lia].
    intros m Hm. exact (image_at_finds _ _ Hm E).
Qed.

(** The texts of the text-typed blocks are what the code joins. *)
Lemma text_blocks_texts (blocks : list ContentBlock) (texts : list string) :
  text_blocks blocks texts -> texts = map text_of (filter is_text_string blocks).
Proof.
  induction 1 as [|c t cs ts Hty Htx _ IH|c cs ts Hother _ IH]; [reflexivity| |].
  - cbn [filter]. unfold is_text_string at 1. rewrite Hty, Htx. cbn.
    unfold text_of at 1. rewrite Htx, IH. reflexivity.
  - cbn [filter]. unfold is_text_string at 1.
    destruct Hother as [Hty| ->].
    + destruct (String.eqb_spec (c_type c) "text"); [contradiction|exact IH].
    + rewrite andb_false_r. exact IH.
Qed.

Lemma text_blocks_total (blocks : list ContentBlock) :
  text_blocks blocks (map text_of (filter is_text_string blocks)).
Proof.
  induction blocks as [|c cs IH]; [constructor|].
  cbn [filter]. unfold is_text_string at 1.
  destruct (String.eqb_spec (c_type c) "text") as [Hty|Hty];
    [|apply texts_other; [left; exact Hty|exact IH]].
  destruct (c_text c) as [t|] eqn:Htx; cbn.
  - unfold text_of at 1. rewrite Htx. apply texts_text; assumption.
  - apply texts_other; [right; exact Htx|exact IH].
Qed.

(** C6: screenshot extraction returns nothing on absent or empty content.
    On a list of blocks it joins, with line feeds, the texts of the blocks
    whose type is [text], reads the filename-like tokens of that text from
    left to right, and returns nothing when there is none, and otherwise
    the screenshots directory followed by the part behind the last slash
    of the last token.  Texts, tokens and that part always exist.  When
    [shot2.jpg] stands at the beginning of the text or after a separator
    and no token follows it, the path is built from [shot2.jpg], whatever
    comes before, [shot1.png] included. *)
Theorem extractScreenshotPath_last_image_token :
  (forall result : McpResult,
      (content result = None -> extractScreenshotPath result = None) /\
      (content result = Some [] -> extractScreenshotPath result = None)) /\
  (forall (result : McpResult) blocks texts tokens,
      content result = Some blocks ->
      text_blocks blocks texts ->
      image_tokens (join nl texts) tokens ->
      match tokens with
      | [] => extractScreenshotPath result = None
      | m :: ms =>
          forall file,
            file_of (last ms m) file ->
            extractScreenshotPath result = Some (screenshotsDir ++ "/" ++ file)
      end) /\
  (forall blocks, exists texts tokens,
      text_blocks blocks texts /\ image_tokens (join nl texts) tokens /\
      Forall image_token tokens /\
      Forall (fun m => exists file, file_of m file) tokens) /\
  (forall (result : McpResult) blocks texts pre post,
      content result = Some blocks ->
      text_blocks blocks texts ->
      join nl texts = pre ++ "shot2.jpg" ++ post ->
      (pre = EmptyString \/
       exists before c, pre = before ++ String c EmptyString /\ is_token c = false) ->
      no_image_token post ->
      extractScreenshotPath result = Some "mcp-workspace/test-screenshots/shot2.jpg") /\
  extractScreenshotPath Inputs.two_shots
  = Some "mcp-workspace/test-screenshots/shot2.jpg" /\
  extractScreenshotPath Inputs.two_shots_inline
  = Some "mcp-workspace/test-screenshots/shot2.jpg".
Proof.
  assert (Hfull : forall blocks texts,
             text_blocks blocks texts -> fullText blocks = join nl texts).
  { intros blocks texts H. unfold fullText. rewrite (text_blocks_texts _ _ H).
    reflexivity. }
  assert (Htokens : forall s ms, image_tokens s ms -> Forall image_token ms).
  { induction 1 as [|c s ms _ _ IH|m rest ms [[_ Hm] _] _ IH];
      [constructor|exact IH|constructor; assumption]. }
  split; [|split; [|split; [|split; [|split; reflexivity]]]].
  - intros result. split; intros H; unfold extractScreenshotPath; rewrite H; reflexivity.
  - intros result blocks texts tokens Hc Htexts Htok.
    rewrite (extractScreenshotPath_matches result blocks Hc), (Hfull _ _ Htexts).
    pose proof (Htokens _ _ Htok) as Hall.
    rewrite <- (image_tokens_matches _ _ Htok).
    destruct tokens as [|m ms]; [reflexivity|].
    intros file Hfile. f_equal. apply token_path; [|exact Hfile].
    assert (Hin : In (last ms m) (m :: ms)).
    { clear. revert m. induction ms as [|x ms IH]; intros m; [left; reflexivity|].
      right. rewrite last_cons. exact (IH x). }
    exact (proj1 (Forall_forall _ _) Hall _ Hin).
  - intros blocks.
    exists (map text_of (filter is_text_string blocks)),
           (image_matches (join nl (map text_of (filter is_text_string blocks)))).
    split; [apply text_blocks_total|].
    pose proof (image_tokens_total _ _ (Nat.le_refl _)
                : image_tokens (join nl (map text_of (filter is_text_string blocks))) _)
      as Htok.
    split; [exact Htok|]. split; [exact (Htokens _ _ Htok)|].
    apply Forall_forall. intros m _. apply file_of_total.
  - intros result blocks texts pre post Hc Htexts Htext [->|(before & c & -> & Hsep)] Hpost.
    + apply (extractScreenshotPath_shot2 result blocks [] Hc).
      rewrite (Hfull _ _ Htexts), Htext.
      change (EmptyString ++ "shot2.jpg" ++ post) with (String "s" ("hot2.jpg" ++ post)).
      rewrite image_matches_step.
      change (image_at (String "s" ("hot2.jpg" ++ post))) with (Some 9%nat).
      cbn [take drop append app]. f_equal. apply image_matches_nil_iff. exact Hpost.
    + apply (extractScreenshotPath_shot2 result blocks (image_matches before) Hc).
      rewrite (Hfull _ _ Htexts), Htext, app_assoc_s.
      exact (image_matches_shot2 before c post Hsep Hpost).
Qed.

(** C6 at two text blocks that name one image file each: the texts are
    joined by a line feed, the tokens are the two names, and the path is
    built from the second. *)
Lemma extractScreenshotPath_last_image_token_witness :
  text_blocks [text_block "shot1.png"; text_block "shot2.jpg"]
              ["shot1.png"; "shot2.jpg"] /\
  image_tokens (join nl ["shot1.png"; "shot2.jpg"]) ["shot1.png"; "shot2.jpg"] /\
  file_of "shot2.jpg" "shot2.jpg" /\
  extractScreenshotPath Inputs.two_shots
  = Some (screenshotsDir ++ "/" ++ "shot2.jpg").
Proof.
  assert (Htexts : text_blocks [text_block "shot1.png"; text_block "shot2.jpg"]
                               ["shot1.png"; "shot2.jpg"]).
  { repeat (apply texts_text; [reflexivity|reflexivity|]). apply texts_nil. }
  assert (Htokens : image_tokens (join nl ["shot1.png"; "shot2.jpg"])
                                 ["shot1.png"; "shot2.jpg"]).
  { exact (image_tokens_total _ (join nl ["shot1.png"; "shot2.jpg"]) (Nat.le_refl _)). }
  assert (Hfile : file_of "shot2.jpg" "shot2.jpg").
  { exists EmptyString. split; [reflexivity|]. split; [reflexivity|left; reflexivity]. }
  split; [exact Htexts|]. split; [exact Htokens|]. split; [exact Hfile|].
  exact (proj1 (proj2 extractScreenshotPath_last_image_token)
           Inputs.two_shots [text_block "shot1.png"; text_block "shot2.jpg"]
           ["shot1.png"; "shot2.jpg"] ["shot1.png"; "shot2.jpg"]
           eq_refl Htexts Htokens "shot2.jpg" Hfile).
Defined.

(** ** One step and the loop *)

Section StepFacts.

Variable World : Type.
Variable now : World -> Z.
Variable callTool : World -> string -> JsValue -> CallOutcome * World.
Variable ToNumber : JsValue -> option Z.

Lemma executeMCP_settles (toolName : string) (arguments : JsValue) (r : Runner World) :
  executeMCP now callTool toolName (Some arguments) r =
  (classify (now (world r)) (now (snd (callTool (world r) toolName arguments)))
            (fst (callTool (world r) toolName arguments)),
   set_world (snd (callTool (world r) toolName arguments))
             (log_call (toolName, arguments) r)).
Proof.
  unfold executeMCP, classify.
  destruct (callTool (world r) toolName arguments) as [outcome w]; simpl.
  destruct outcome as [result|reason]; [|reflexivity].
  destruct (isError result); [reflexivity|].
  destruct (returned_false result); reflexivity.
Qed.

(** [executeMCP] as one completion and one runner. *)
Lemma executeMCP_settle (step : option JsValue) (r : Runner World) :
  executeMCP now callTool (step_toolName step) (prop step "params") r =
  (fst (settle now callTool (world r) step), called callTool step r).
Proof.
  unfold settle, call_of, called.
  destruct (prop step "params") as [arguments|]; [|reflexivity].
  rewrite executeMCP_settles.
  destruct (callTool (world r) (step_toolName step) arguments); reflexivity.
Qed.

Lemma called_spec (step : option JsValue) (r : Runner World) :
  world (called callTool step r) = snd (settle now callTool (world r) step) /\
  calls (called callTool step r) = (calls r ++ step_calls step)%list /\
  testResults (called callTool step r) = testResults r /\
  mcpTools (called callTool step r) = mcpTools r /\
  testReport (called callTool step r) = testReport r.
Proof.
  unfold called, settle, call_of, step_calls.
  destruct (prop step "params") as [arguments|]; simpl.
  - destruct (callTool (world r) (step_toolName step) arguments); simpl. repeat split.
  - rewrite app_nil_r. repeat split.
Qed.

Lemma recordAction_pushes (a : Outcome.t) (r : Runner World) :
  recordAction now a r =
  (Normal tt,
   set_testResults
     {| Results.passed := if String.eqb (Outcome.status a) "passed"
                          then S (Results.passed (testResults r))
                          else Results.passed (testResults r);
        Results.failed := if String.eqb (Outcome.status a) "failed"
                          then S (Results.failed (testResults r))
                          else Results.failed (testResults r);
        Results.actions := (Results.actions (testResults r)
                            ++ [pushed_record a (now (world r))])%list |} r).
Proof. reflexivity. Qed.

(** A step that is not executable throws before the [try] and leaves the
    runner as it was. *)
Lemma run_step_not_executable testSteps i step (r : Runner World) :
  executable ToNumber testSteps i step = false ->
  exists e, run_step now callTool ToNumber testSteps i step r = (Throw e, r).
Proof.
  unfold executable, step_tool, run_step, bind, lift, throw, get_prop.
  intros H.
  destruct step as [v|]; [|eexists; reflexivity].
  destruct v; try (eexists; reflexivity);
    simpl in *;
    try (destruct (original_step ToNumber testSteps i None); eexists; reflexivity).
  unfold to_number.
  destruct (converts_opt (lookup "stepIndex" props)); [|eexists; reflexivity].
  cbn [andb] in H.
  destruct (original_step ToNumber testSteps i (lookup "stepIndex" props));
    [|eexists; reflexivity].
  destruct (lookup "tool" props) as [[]|]; try discriminate; eexists; reflexivity.
Qed.

Lemma run_step_executable testSteps i step (r : Runner World) :
  executable ToNumber testSteps i step = true ->
  run_step now callTool ToNumber testSteps i step r =
  recordAction now
    (step_outcome step (fst (settle now callTool (world r) step)))
    (called callTool step r).
Proof.
  unfold executable, step_tool. intros H.
  pose proof (executeMCP_settle step r) as Hexec.
  set (c := fst (settle now callTool (world r) step)) in *.
  set (r1 := called callTool step r) in *. clearbody c r1.
  destruct step as [[| | | | |props]|]; simpl in H; try discriminate.
  destruct (converts_opt (lookup "stepIndex" props)) eqn:Hconv; try discriminate.
  cbn [andb] in H.
  destruct (lookup "tool" props) as [[| | |s| |]|] eqn:Htool; try discriminate.
  destruct (original_step ToNumber testSteps i (lookup "stepIndex" props)) eqn:Hos;
    try discriminate.
  unfold run_step, bind, lift, try_catch, get_prop, to_number.
  unfold step_toolName in Hexec. unfold prop in *.
  rewrite Hconv, Hos, Htool. rewrite Htool in Hexec.
  cbv beta iota zeta delta [tool_name].
  rewrite Hexec.
  unfold step_outcome, prop. rewrite Htool.
  destruct c as [[result duration]|err]; rewrite !recordAction_pushes; reflexivity.
Qed.

Lemma count_status_record (st : string) (rec : Action.t) :
  count_status st [rec] = if String.eqb (Action.status rec) st then 1%nat else 0%nat.
Proof. unfold count_status. simpl. destruct (String.eqb _ _); reflexivity. Qed.

Lemma count_status_app (st : string) (l1 l2 : list Action.t) :
  count_status st (l1 ++ l2) = (count_status st l1 + count_status st l2)%nat.
Proof. unfold count_status. rewrite filter_app, List.length_app. reflexivity. Qed.

Lemma run_step_ran testSteps i step (r : Runner World) :
  executable ToNumber testSteps i step = true ->
  exists r',
    run_step now callTool ToNumber testSteps i step r = (Normal tt, r') /\
    ran r r' [step] [record_of now callTool (world r) step] /\
    world r' = snd (settle now callTool (world r) step).
Proof.
  intros H. rewrite (run_step_executable _ _ _ r H).
  rewrite recordAction_pushes. eexists. split; [reflexivity|].
  destruct (called_spec step r) as (Hw & Hc & Ht & Hm & _).
  split; [|exact Hw].
  unfold ran, record_of. simpl. rewrite Hc, Ht, Hm, Hw, app_nil_r.
  repeat split.
  - rewrite count_status_record. simpl.
    destruct (String.eqb _ "passed"); lia.
  - rewrite count_status_record. simpl.
    destruct (String.eqb _ "failed"); lia.
Qed.

Lemma ran_refl (r : Runner World) : ran r r [] [].
Proof.
  unfold ran. simpl. rewrite !app_nil_r.
  repeat split; unfold count_status; simpl; lia.
Qed.

Lemma ran_trans (r1 r2 r3 : Runner World) ex1 ex2 recs1 recs2 :
  ran r1 r2 ex1 recs1 -> ran r2 r3 ex2 recs2 ->
  ran r1 r3 (ex1 ++ ex2) (recs1 ++ recs2).
Proof.
  unfold ran.
  intros (Hc1 & Ha1 & Hp1 & Hf1 & Hm1) (Hc2 & Ha2 & Hp2 & Hf2 & Hm2).
  rewrite Hc2, Hc1, Ha2, Ha1, Hp2, Hp1, Hf2, Hf1, Hm2, Hm1.
  rewrite flat_map_app, !count_status_app, <- !app_assoc.
  repeat split; lia.
Qed.

(** The loop executes a prefix of the plan, appends one record per executed
    step, in plan order, and stops early only at a step that is not
    executable. *)
Lemma run_steps_inv testSteps items :
  forall i (r : Runner World),
  exists executed rest recs,
    items = (executed ++ rest)%list /\
    ran r (snd (run_steps now callTool ToNumber testSteps i items r)) executed recs /\
    Forall2 (fun step rec => exists w, rec = record_of now callTool w step) executed recs /\
    match fst (run_steps now callTool ToNumber testSteps i items r) with
    | Normal _ => rest = []
    | Throw _ =>
        exists step rest', rest = step :: rest' /\
          executable ToNumber testSteps (i + List.length executed) step = false
    end.
Proof.
  induction items as [|step items IH]; intros i r.
  - exists [], [], []. simpl. repeat split; try apply ran_refl. constructor.
  - destruct (executable ToNumber testSteps i step) eqn:E.
    + destruct (run_step_ran _ _ _ r E) as (r1 & Hrun & Hran & _).
      destruct (IH (S i) r1) as (executed & rest & recs & Hitems & Hran' & Hrecs & Hc).
      exists (step :: executed), rest, (record_of now callTool (world r) step :: recs).
      simpl. unfold bind. rewrite Hrun.
      split; [rewrite Hitems; reflexivity|].
      split; [apply (ran_trans _ _ _ _ _ _ _ Hran Hran')|].
      split; [constructor; [eexists; reflexivity|assumption]|].
      destruct (fst (run_steps _ _ _ _ _ _ r1)); [assumption|].
      destruct Hc as (st & rest' & -> & Hex). exists st, rest'.
      split; [reflexivity|]. rewrite <- Hex. f_equal. lia.
    + destruct (run_step_not_executable _ _ _ r E) as (e & Hrun).
      exists [], (step :: items), [].
      simpl. unfold bind. rewrite Hrun. simpl.
      repeat split; try apply ran_refl; [constructor|].
      exists step, items. split; [reflexivity|]. rewrite Nat.add_0_r. exact E.
Qed.

(** What a step that reaches the provider leaves behind, in full. *)
Lemma run_step_effect testSteps i step (r : Runner World) :
  executable ToNumber testSteps i step = true ->
  exists r',
    run_step now callTool ToNumber testSteps i step r = (Normal tt, r') /\
    calls r' = (calls r ++ step_calls step)%list /\
    Results.actions (testResults r') =
      (Results.actions (testResults r) ++ [record_of now callTool (world r) step])%list /\
    Results.passed (testResults r') =
      (Results.passed (testResults r)
       + count_status "passed" [record_of now callTool (world r) step])%nat /\
    Results.failed (testResults r') =
      (Results.failed (testResults r)
       + count_status "failed" [record_of now callTool (world r) step])%nat.
Proof.
  intros H. destruct (run_step_ran _ _ _ r H) as (r' & Hrun & (Hc & Ha & Hp & Hf & _) & _).
  simpl in Hc. rewrite app_nil_r in Hc.
  exists r'. repeat split; assumption.
Qed.

(** C3: a step whose response has the error envelope set is recorded
    failed, with the message built from the raw payload, whatever the text
    of the response says; the failed counter alone is incremented. *)
Theorem protocol_error_recorded_failed testSteps i step (r : Runner World)
  (result : McpResult) (w : World) :
  executable ToNumber testSteps i step = true ->
  call_of callTool (world r) step = Some (Resolved result, w) ->
  isError result = true ->
  exists r' rec,
    run_step now callTool ToNumber testSteps i step r = (Normal tt, r') /\
    Results.actions (testResults r') = (Results.actions (testResults r) ++ [rec])%list /\
    Results.failed (testResults r') = S (Results.failed (testResults r)) /\
    Results.passed (testResults r') = Results.passed (testResults r) /\
    Action.status rec = "failed" /\
    Action.error rec =
      Some ("MCP Tool Error: " ++ stringify_content (content result)) /\
    Action.screenshot rec = None.
Proof.
  intros Hex Hcall Herr.
  destruct (run_step_effect _ _ _ r Hex) as (r' & Hrun & _ & Ha & Hp & Hf).
  exists r', (record_of now callTool (world r) step).
  rewrite Ha, Hp, Hf, count_status_record, count_status_record.
  unfold record_of, settle. rewrite Hcall. simpl. rewrite Herr. simpl.
  repeat split; try assumption; lia.
Qed.

Lemma returned_false_iff (result : McpResult) :
  returned_false result = true <->
  exists t, first_text result = Some t /\ marker_value t = Some "false".
Proof.
  unfold returned_false, first_text, marker_value.
  destruct (content result) as [blocks|].
  2:{ split; [discriminate|]. intros (t & H & _). discriminate. }
  destruct (find _ blocks) as [c|].
  2:{ split; [discriminate|]. intros (t & H & _). discriminate. }
  destruct (c_text c) as [t|].
  2:{ split; [discriminate|]. intros (t & H & _). discriminate. }
  destruct t as [|a t]; simpl nonempty; cbv iota.
  { split; [discriminate|]. intros (t & [= <-] & H). discriminate. }
  destruct (result_match (String a t)) as [v|] eqn:Hm.
  - split.
    + intros H. apply String.eqb_eq in H. exists (String a t).
      split; [reflexivity|]. rewrite Hm. cbn [option_map]. rewrite H. reflexivity.
    + intros (t' & [= <-] & H). rewrite Hm in H. cbn [option_map] in H.
      injection H as H. rewrite H. reflexivity.
  - split; [discriminate|]. intros (t' & [= <-] & H). rewrite Hm in H. discriminate.
Qed.

(** C2 (as the code has it): a step answered without the error envelope is
    recorded failed exactly when the first text block of the response has
    a result marker and the value of the leftmost one is [false] up to case
    and surrounding white space; it is recorded passed otherwise.  A failed
    step thus has a marker line in that block, not preceded by another, with
    such a value; and a block that begins with the marker, white space
    (a line feed for one) and [false] up to the end of the line fails the
    step. *)
Theorem logical_failure_iff testSteps i step (r : Runner World)
  (result : McpResult) (w : World) :
  executable ToNumber testSteps i step = true ->
  call_of callTool (world r) step = Some (Resolved result, w) ->
  isError result = false ->
  exists r' rec,
    run_step now callTool ToNumber testSteps i step r = (Normal tt, r') /\
    Results.actions (testResults r') = (Results.actions (testResults r) ++ [rec])%list /\
    (Action.status rec = "failed" <->
     exists t, first_text result = Some t /\ marker_value t = Some "false") /\
    (Action.status rec = "failed" ->
     exists t pre rest v,
       first_text result = Some t /\ t = pre ++ rest /\ marker_line rest v /\
       toLowerCase (trim v) = "false" /\
       forall k, (k < String.length pre)%nat -> result_at (drop k t) = None) /\
    (Action.status rec <> "failed" -> Action.status rec = "passed") /\
    (forall lit ws v post,
        toLowerCase lit = "### result" ->
        ws <> EmptyString -> all_space ws = true ->
        toLowerCase v = "false" -> line_end post ->
        first_text result = Some (lit ++ ws ++ v ++ post) ->
        Action.status rec = "failed" /\
        Action.error rec = Some "MCP Tool returned false").
Proof.
  intros Hex Hcall Herr.
  destruct (run_step_effect _ _ _ r Hex) as (r' & Hrun & _ & Ha & _).
  exists r', (record_of now callTool (world r) step).
  split; [assumption|]. split; [assumption|].
  unfold record_of, settle. rewrite Hcall. simpl. rewrite Herr.
  rewrite <- returned_false_iff.
  destruct (returned_false result) eqn:Hrf; simpl.
  - split; [split; reflexivity|]. split.
    + intros _. apply returned_false_iff in Hrf. destruct Hrf as (t & Ht & Hv).
      unfold marker_value in Hv.
      destruct (result_match t) as [v|] eqn:Hm; [|discriminate].
      injection Hv as Hv.
      destruct (result_match_sound t v Hm) as (pre & rest & Hsplit & Hline & Hleft).
      exists t, pre, rest, v. repeat split; assumption.
    + split; [intros H; contradiction|]. intros; split; reflexivity.
  - split; [split; discriminate|]. split; [discriminate|]. split; [reflexivity|].
    intros lit ws v post Hlit Hne Hws Hv Hpost Hft. exfalso.
    assert (returned_false result = true); [|congruence].
    apply returned_false_iff. eexists. split; [exact Hft|].
    apply result_match_false_line; assumption.
Qed.

(** C8 (as the code has it): the error message of a step answered with
    the error envelope is [MCP Tool Error: ] followed by the whole
    serialised payload; nothing is cut, so the message is longer than all
    the text the payload carries. *)
Theorem protocol_error_message_is_whole_payload testSteps i step (r : Runner World)
  (result : McpResult) (w : World) :
  executable ToNumber testSteps i step = true ->
  call_of callTool (world r) step = Some (Resolved result, w) ->
  isError result = true ->
  exists r' rec msg,
    run_step now callTool ToNumber testSteps i step r = (Normal tt, r') /\
    Results.actions (testResults r') = (Results.actions (testResults r) ++ [rec])%list /\
    Action.error rec = Some msg /\
    msg = "MCP Tool Error: " ++ stringify_content (content result) /\
    String.length msg = (16 + String.length (stringify_content (content result)))%nat /\
    (forall blocks, content result = Some blocks ->
                    (16 + total_text blocks <= String.length msg)%nat).
Proof.
  intros Hex Hcall Herr.
  destruct (run_step_effect _ _ _ r Hex) as (r' & Hrun & _ & Ha & _).
  exists r', (record_of now callTool (world r) step),
    ("MCP Tool Error: " ++ stringify_content (content result)).
  split; [assumption|]. split; [assumption|].
  unfold record_of, settle. rewrite Hcall. simpl. rewrite Herr. simpl.
  repeat split.
  intros blocks ->. pose proof (stringify_content_length blocks). lia.
Qed.

Lemma step_tool_name (step : option JsValue) (s : string) :
  step_tool step = Some s -> step_toolName step = strip_mcp s.
Proof.
  unfold step_tool, step_toolName.
  destruct (prop step "tool") as [[]|]; try discriminate. intros [= ->]. reflexivity.
Qed.

(** A record carries the label and the parameters of its step. *)
Lemma record_of_step (w : World) (step : option JsValue) :
  Action.tool (record_of now callTool w step) = mcp_label (prop step "tool") /\
  Action.params (record_of now callTool w step) = prop step "params".
Proof.
  unfold record_of.
  destruct (fst (settle now callTool w step)) as [[result duration]|err]; simpl;
    split; reflexivity.
Qed.

(** A failed record carries no screenshot. *)
Lemma record_of_failed_screenshot (w : World) (step : option JsValue) :
  Action.status (record_of now callTool w step) = "failed" ->
  Action.screenshot (record_of now callTool w step) = None.
Proof.
  unfold record_of.
  destruct (fst (settle now callTool w step)) as [[result duration]|err]; simpl;
    [discriminate|reflexivity].
Qed.


(** The loop never touches the report object. *)
Lemma run_steps_keeps_report testSteps items :
  forall i (r : Runner World),
    testReport (snd (run_steps now callTool ToNumber testSteps i items r)) = testReport r.
Proof.
  induction items as [|step items IH]; intros i r; [reflexivity|].
  simpl. unfold bind.
  destruct (executable ToNumber testSteps i step) eqn:E.
  - rewrite (run_step_executable _ _ _ r E), recordAction_pushes.
    rewrite IH. simpl. apply (called_spec step r).
  - destruct (run_step_not_executable _ _ _ r E) as (e & ->). reflexivity.
Qed.

End StepFacts.

(** C3 at a response whose text says [### Result true]. *)
Lemma protocol_error_recorded_failed_witness :
  exists r' rec,
    run_step Demo.now (Demo.callTool (fun _ => Resolved Inputs.error_with_true))
      Demo.ToNumber Inputs.one_line 0 Inputs.click_step (new_runner [] 0%nat)
    = (Normal tt, r') /\
    Results.actions (testResults r') = ([] ++ [rec])%list /\
    Results.failed (testResults r') = 1%nat /\
    Results.passed (testResults r') = 0%nat /\
    Action.status rec = "failed" /\
    Action.error rec =
      Some ("MCP Tool Error: " ++ stringify_content (content Inputs.error_with_true)) /\
    Action.screenshot rec = None.
Proof.
  apply (@protocol_error_recorded_failed Demo.World Demo.now
           (Demo.callTool (fun _ => Resolved Inputs.error_with_true)) Demo.ToNumber
           Inputs.one_line 0%nat Inputs.click_step (new_runner [] 0%nat)
           Inputs.error_with_true 1%nat);
    reflexivity.
Defined.

(** C2 as stated fails: the concatenated text has the line
    [### Result false], the envelope is clean, and the step is recorded
    passed, because the marker sits in the second text block. *)
Lemma marker_in_later_block_passes :
  isError Inputs.false_in_second_block = false /\
  spec_false_marker (spec_text Inputs.false_in_second_block) /\
  exists r' rec,
    run_step Demo.now (Demo.callTool (fun _ => Resolved Inputs.false_in_second_block))
      Demo.ToNumber Inputs.one_line 0 Inputs.click_step (new_runner [] 0%nat)
    = (Normal tt, r') /\
    Results.actions (testResults r') = [rec] /\
    Action.status rec = "passed".
Proof.
  split; [reflexivity|]. split.
  - exists ("done" ++ nl), "false", EmptyString.
    split; [reflexivity|]. split; [reflexivity|].
    split; [right; exists "done"; reflexivity | left; reflexivity].
  - eexists. eexists. split; [reflexivity|]. split; reflexivity.
Qed.

(** C2 at the response [### Result], line feed, [false]. *)
Lemma logical_failure_iff_witness :
  exists r' rec,
    run_step Demo.now (Demo.callTool (fun _ => Resolved Inputs.false_on_next_line))
      Demo.ToNumber Inputs.one_line 0 Inputs.click_step (new_runner [] 0%nat)
    = (Normal tt, r') /\
    Results.actions (testResults r') = ([] ++ [rec])%list /\
    (Action.status rec = "failed" <->
     exists t, first_text Inputs.false_on_next_line = Some t /\
               marker_value t = Some "false") /\
    (Action.status rec = "failed" ->
     exists t pre rest v,
       first_text Inputs.false_on_next_line = Some t /\ t = pre ++ rest /\
       marker_line rest v /\ toLowerCase (trim v) = "false" /\
       forall k, (k < String.length pre)%nat -> result_at (drop k t) = None) /\
    (Action.status rec <> "failed" -> Action.status rec = "passed") /\
    (forall lit ws v post,
        toLowerCase lit = "### result" ->
        ws <> EmptyString -> all_space ws = true ->
        toLowerCase v = "false" -> line_end post ->
        first_text Inputs.false_on_next_line = Some (lit ++ ws ++ v ++ post) ->
        Action.status rec = "failed" /\
        Action.error rec = Some "MCP Tool returned false").
Proof.
  apply (@logical_failure_iff Demo.World Demo.now
           (Demo.callTool (fun _ => Resolved Inputs.false_on_next_line)) Demo.ToNumber
           Inputs.one_line 0%nat Inputs.click_step (new_runner [] 0%nat)
           Inputs.false_on_next_line 1%nat);
    reflexivity.
Defined.

(** The step of that witness is recorded failed. *)
Example false_on_next_line_fails :
  option_map (fun rec => (Action.status rec, Action.error rec))
    (hd_error
       (Results.actions
          (testResults
             (snd (run_step Demo.now
                     (Demo.callTool (fun _ => Resolved Inputs.false_on_next_line))
                     Demo.ToNumber Inputs.one_line 0 Inputs.click_step
                     (new_runner [] 0%nat))))))
  = Some ("failed", Some "MCP Tool returned false").
Proof. reflexivity. Qed.

(** C8 as stated fails: no bound holds for the length of the error
    messages [executeMCP] builds from error envelopes. *)
Lemma error_message_not_bounded :
  ~ exists bound : nat,
      forall (result : McpResult) (e : Err.t) (r' : Runner Demo.World),
        isError result = true ->
        executeMCP Demo.now (Demo.callTool (fun _ => Resolved result))
          "browser_click" (Some (JObj [])) (new_runner [] 0%nat) = (Throw e, r') ->
        (String.length (Err.message e) <= bound)%nat.
Proof.
  intros [bound H].
  specialize (H (Inputs.error_with_text (S bound))
                {| Err.message :=
                     "MCP Tool Error: "
                     ++ stringify_content (content (Inputs.error_with_text (S bound)));
                   Err.duration := Some 25%Z |}
                _ eq_refl eq_refl).
  pose proof (stringify_content_length [text_block (Inputs.long_text (S bound))]) as Hlen.
  assert (Ht : forall n, String.length (Inputs.long_text n) = n).
  { induction n as [|n IH]; simpl; [reflexivity|]. rewrite IH. reflexivity. }
  unfold total_text in Hlen. cbn [map list_sum text_of text_block c_text] in Hlen.
  rewrite Ht in Hlen.
  cbn [Err.message] in H. rewrite length_append in H.
  change (content (Inputs.error_with_text (S bound)))
    with (Some [text_block (Inputs.long_text (S bound))]) in H.
  simpl String.length in H at 1. unfold list_sum in Hlen. cbn [fold_right] in Hlen. lia.
Qed.

(** C8 at a payload of forty characters. *)
Lemma protocol_error_message_is_whole_payload_witness :
  exists r' rec msg,
    run_step Demo.now (Demo.callTool (fun _ => Resolved (Inputs.error_with_text 40)))
      Demo.ToNumber Inputs.one_line 0 Inputs.click_step (new_runner [] 0%nat)
    = (Normal tt, r') /\
    Results.actions (testResults r') = ([] ++ [rec])%list /\
    Action.error rec = Some msg /\
    msg = "MCP Tool Error: " ++ stringify_content (content (Inputs.error_with_text 40)) /\
    String.length msg =
      (16 + String.length (stringify_content (content (Inputs.error_with_text 40))))%nat /\
    (forall blocks, content (Inputs.error_with_text 40) = Some blocks ->
                    (16 + total_text blocks <= String.length msg)%nat).
Proof.
  apply (@protocol_error_message_is_whole_payload Demo.World Demo.now
           (Demo.callTool (fun _ => Resolved (Inputs.error_with_text 40))) Demo.ToNumber
           Inputs.one_line 0%nat Inputs.click_step (new_runner [] 0%nat)
           (Inputs.error_with_text 40) 1%nat);
    reflexivity.
Defined.

(** ** The whole run *)

Section RunFacts.

Variable World : Type.
Variable now : World -> Z.
Variable callTool : World -> string -> JsValue -> CallOutcome * World.
Variable generateText : World -> PlanningPrompt -> (string + string) * World.
Variable JSON_parse : string -> string + JsValue.
Variable ToNumber : JsValue -> option Z.
Variable writeReport : World -> Report.t -> option string.

Local Abbreviation runTest' :=
  (runTest now callTool generateText JSON_parse ToNumber writeReport).
Local Abbreviation run_steps' := (run_steps now callTool ToNumber).
Local Abbreviation plan' := (generateExecutionPlan generateText JSON_parse).

(** A plan that [generateExecutionPlan] returns has a length that can be
    converted. *)
Lemma plan_converts testText testSteps (r : Runner World) (plan : JsValue) :
  fst (plan' testText testSteps r) = Normal plan ->
  converts_opt (plan_length plan) = true.
Proof.
  unfold generateExecutionPlan.
  destruct (generateText _ _) as [[reason|text] w]; [discriminate|].
  destruct (JSON_parse _) as [msg|p]; [discriminate|].
  destruct p; try discriminate;
    match goal with
    | |- context [converts_opt ?l] => destruct (converts_opt l) eqn:E
    end; try discriminate; cbn [fst]; intros [= <-]; exact E.
Qed.

(** [runTest] is planning, then the loop, then the finalisation; an
    exception of one phase skips the later ones. *)
Lemma runTest_phases testText testName (r : Runner World) :
  runTest' testText testName r =
  let testSteps := step_lines testText in
  let start := now (world r) in
  match plan' testText testSteps
          (set_testReport (Some (initial_report testName testText start)) r) with
  | (Throw e, rb) => (Throw e, rb)
  | (Normal plan, rb) =>
      match run_steps' testSteps 0 (plan_items ToNumber plan) rb with
      | (Throw e, rc) => (Throw e, rc)
      | (Normal _, rc) => finish now writeReport testName testText start rc
      end
  end.
Proof.
  unfold runTest, bind, get, put, finish, initial_report. cbv zeta.
  pose proof (plan_converts testText (step_lines testText)
                (set_testReport
                   (Some {| Report.testName := testName;
                            Report.testText := testText;
                            Report.startTime := now (world r);
                            Report.endTime := None;
                            Report.actions := [];
                            Report.passedActions := 0;
                            Report.failedActions := 0;
                            Report.totalActions := 0;
                            Report.testResult := "running";
                            Report.duration := None |}) r)) as Hconv.
  destruct (plan' _ _ _) as [[plan|e] rb]; [|reflexivity].
  unfold lift, to_number. rewrite (Hconv plan eq_refl).
  destruct (run_steps' _ _ _ rb) as [[u|e] rc]; [|reflexivity].
  unfold generateReport.
  destruct (writeReport _ _); [reflexivity|].
  destruct (0 <? Results.failed (testResults rc))%nat; reflexivity.
Qed.

(** Planning touches nothing of the runner but the world. *)
Lemma plan_preserves testText testSteps (r : Runner World) :
  let r' := snd (plan' testText testSteps r) in
  mcpTools r' = mcpTools r /\ testResults r' = testResults r /\
  testReport r' = testReport r /\ calls r' = calls r.
Proof.
  unfold generateExecutionPlan.
  destruct (generateText _ _) as [[reason|text] w]; simpl; [auto|].
  destruct (JSON_parse _) as [msg|[]]; simpl; auto;
    match goal with
    | |- context [converts_opt ?l] => destruct (converts_opt l)
    end; simpl; auto.
Qed.

(** The three ways a run can end: planning throws; the loop throws at a
    step that is not executable; or the loop completes and the report is
    finalized. *)
Lemma runTest_outcomes testText testName (r : Runner World) :
  let testSteps := step_lines testText in
  let initial := initial_report testName testText (now (world r)) in
  let planned := plan' testText testSteps (set_testReport (Some initial) r) in
  let out := runTest' testText testName r in
  let r' := snd out in
  (exists e,
      fst planned = Throw e /\ fst out = Throw e /\
      testResults r' = testResults r /\ calls r' = calls r /\
      testReport r' = Some initial)
  \/
  (exists plan executed rest recs,
      fst planned = Normal plan /\
      plan_items ToNumber plan = (executed ++ rest)%list /\
      ran r r' executed recs /\
      Forall2 (fun step rec => exists w, rec = record_of now callTool w step)
              executed recs /\
      ((exists e step rest',
           fst out = Throw e /\ rest = step :: rest' /\
           executable ToNumber testSteps (List.length executed) step = false /\
           testReport r' = Some initial)
       \/
       (rest = [] /\
        exists rep,
          testReport r' = Some rep /\ finalized rep /\
          Report.actions rep = Results.actions (testResults r') /\
          Report.passedActions rep = Results.passed (testResults r') /\
          Report.failedActions rep = Results.failed (testResults r') /\
          Report.totalActions rep = List.length (Results.actions (testResults r')) /\
          Report.testResult rep =
            (if (Results.failed (testResults r') =? 0)%nat then "pass" else "fail") /\
          fst out =
            match writeReport (world r') rep with
            | Some reason => Throw (new_Error reason)
            | None =>
                if (0 <? Results.failed (testResults r'))%nat
                then Throw (new_Error "Test failed")
                else Normal (testResults r')
            end))).
Proof.
  cbv zeta. rewrite runTest_phases. cbv zeta.
  set (ra := set_testReport _ r).
  destruct (plan_preserves testText (step_lines testText) ra) as (Hm & Ht & Hr & Hc).
  destruct (plan' testText (step_lines testText) ra) as [[plan|e] rb]; simpl in *.
  2:{ left. exists e. repeat split; assumption. }
  right.
  destruct (run_steps_inv World now callTool ToNumber (step_lines testText)
              (plan_items ToNumber plan) 0 rb)
    as (executed & rest & recs & Hitems & Hran & Hrecs & Hout).
  pose proof (run_steps_keeps_report World now callTool ToNumber (step_lines testText)
                (plan_items ToNumber plan) 0 rb) as Hrep.
  exists plan, executed, rest, recs.
  assert (Hran' : forall rc', ran rb rc' executed recs -> ran r rc' executed recs).
  { unfold ran. rewrite Hc, Ht, Hm. auto. }
  destruct (run_steps' _ _ _ rb) as [[u|e] rc]; simpl in *.
  - subst rest. unfold finish, generateReport.
    split; [reflexivity|]. split; [assumption|].
    simpl.
    destruct (writeReport (world rc) _) as [reason|] eqn:Hw; simpl;
      [|destruct (0 <? Results.failed (testResults rc))%nat eqn:Hf; simpl];
      (split; [apply Hran'; exact Hran|]); (split; [assumption|]); right;
      (split; [reflexivity|]); eexists; (split; [reflexivity|]);
      unfold finalized; simpl; rewrite Hw; try rewrite Hf;
      repeat split; discriminate.
  - destruct Hout as (step & rest' & -> & Hex).
    split; [reflexivity|]. split; [assumption|].
    split; [apply Hran'; exact Hran|]. split; [assumption|]. left.
    exists e, step, rest'. repeat split; try assumption.
    rewrite Hrep, Hr. reflexivity.
Qed.

(** Planning accepts whatever [JSON.parse] returns, unless it is [null] or
    has a length that cannot be converted. *)
Lemma plan_accepts testText testSteps (r : Runner World) text w plan :
  generateText (world r) (buildPlanningPrompt r testText (List.length testSteps))
  = (inr text, w) ->
  JSON_parse (strip_fences text) = inr plan ->
  plan <> JNull ->
  converts_opt (plan_length plan) = true ->
  plan' testText testSteps r = (Normal plan, set_world w r).
Proof.
  intros Hgen Hparse Hnull Hconv. unfold generateExecutionPlan.
  rewrite Hgen, Hparse. destruct plan; try contradiction; rewrite Hconv; reflexivity.
Qed.

(** What planning returns is what [JSON.parse] returned. *)
Lemma plan_is_parsed testText testSteps (r : Runner World) text w plan plan0 :
  generateText (world r) (buildPlanningPrompt r testText (List.length testSteps))
  = (inr text, w) ->
  JSON_parse (strip_fences text) = inr plan ->
  fst (plan' testText testSteps r) = Normal plan0 ->
  plan0 = plan.
Proof.
  intros Hgen Hparse. unfold generateExecutionPlan. rewrite Hgen, Hparse.
  destruct plan; try discriminate;
    match goal with
    | |- context [converts_opt ?l] => destruct (converts_opt l)
    end; try discriminate; cbn [fst]; intros [= <-]; reflexivity.
Qed.

Lemma all_executable_app testSteps executed step rest :
  forall i,
    all_executable ToNumber testSteps i (executed ++ step :: rest) = true ->
    executable ToNumber testSteps (i + List.length executed) step = true.
Proof.
  induction executed as [|x executed IH]; intros i H; simpl in H;
    apply andb_prop in H; destruct H as [H1 H2].
  - rewrite Nat.add_0_r. exact H1.
  - simpl. rewrite Nat.add_succ_r. apply (IH (S i) H2).
Qed.

(** A plan all of whose steps are executable is run to the end: every step
    is invoked and recorded, in plan order, and the report is finalized. *)
Lemma executable_plan_runs_in_full testText testName (r : Runner World) text w plan :
  generateText (world r)
    (buildPlanningPrompt r testText (List.length (step_lines testText)))
  = (inr text, w) ->
  JSON_parse (strip_fences text) = inr plan ->
  plan <> JNull ->
  converts_opt (plan_length plan) = true ->
  all_executable ToNumber (step_lines testText) 0 (plan_items ToNumber plan) = true ->
  let r' := snd (runTest' testText testName r) in
  exists recs rep,
    calls r' = (calls r ++ flat_map step_calls (plan_items ToNumber plan))%list /\
    Results.actions (testResults r') = (Results.actions (testResults r) ++ recs)%list /\
    Forall2 (fun step rec => exists w, rec = record_of now callTool w step)
            (plan_items ToNumber plan) recs /\
    testReport r' = Some rep /\ finalized rep /\
    Report.actions rep = Results.actions (testResults r').
Proof.
  intros Hgen Hparse Hnull Hconv Hall. cbv zeta.
  destruct (runTest_outcomes testText testName r)
    as [(e & Hp & _)
       |(plan0 & executed & rest & recs & Hp & Hitems & (Hc & Ha & _) & Hrecs &
         [(e & step & rest' & _ & -> & Hex & _)
         |(-> & rep & Hr & Hfin & Hact & _)])];
    rewrite (plan_accepts testText (step_lines testText)
               (set_testReport
                  (Some (initial_report testName testText (now (world r)))) r)
               text w plan Hgen Hparse Hnull Hconv) in Hp;
    simpl in Hp; try discriminate; injection Hp as <-.
  - exfalso. rewrite Hitems in Hall.
    apply (all_executable_app _ _ _ _ 0%nat) in Hall. simpl in Hall. congruence.
  - rewrite app_nil_r in Hitems. subst executed.
    exists recs, rep. repeat split; assumption.
Qed.

(** The records a run appends are those of the steps it executed, one
    each and in the same order; the executed steps are the first steps of
    the plan. *)
Lemma runTest_appends testText testName (r : Runner World) :
  let r' := snd (runTest' testText testName r) in
  exists executed recs,
    Results.actions (testResults r') = (Results.actions (testResults r) ++ recs)%list /\
    calls r' = (calls r ++ flat_map step_calls executed)%list /\
    Forall2 (fun step rec => exists w, rec = record_of now callTool w step)
            executed recs /\
    forall text w plan,
      generateText (world r)
        (buildPlanningPrompt r testText (List.length (step_lines testText)))
      = (inr text, w) ->
      JSON_parse (strip_fences text) = inr plan ->
      plan <> JNull ->
      exists rest, plan_items ToNumber plan = (executed ++ rest)%list.
Proof.
  cbv zeta.
  destruct (runTest_outcomes testText testName r)
    as [(e & Hp & _ & Ht & Hc & _)
       |(plan0 & executed & rest & recs & Hp & Hitems & (Hc & Ha & _) & Hrecs & _)].
  - exists [], []. rewrite Ht, Hc, !app_nil_r. repeat split; [constructor|].
    intros text w plan _ _ _. exists (plan_items ToNumber plan). reflexivity.
  - exists executed, recs. repeat split; try assumption.
    intros text w plan Hgen Hparse Hnull.
    rewrite (plan_is_parsed testText (step_lines testText)
               (set_testReport
                  (Some (initial_report testName testText (now (world r)))) r)
               text w plan plan0 Hgen Hparse Hp) in Hitems.
    exists rest. exact Hitems.
Qed.

Lemma Forall2_records (P : Action.t -> Prop) executed recs :
  (forall w step, P (record_of now callTool w step)) ->
  Forall2 (fun step rec => exists w : World, rec = record_of now callTool w step)
          executed recs ->
  Forall P recs.
Proof.
  intros HP H. induction H as [|step rec executed recs (w & ->) _ IH]; constructor; auto.
Qed.

(** C10: among the records a run appends, every failed one has no
    screenshot, whatever the text of the failing response. *)
Theorem failed_record_has_no_screenshot testText testName (r : Runner World)
  (recs : list Action.t) :
  Results.actions (testResults (snd (runTest' testText testName r)))
  = (Results.actions (testResults r) ++ recs)%list ->
  Forall (fun rec => Action.status rec = "failed" -> Action.screenshot rec = None) recs.
Proof.
  intros Hrecs.
  destruct (runTest_appends testText testName r) as (executed & recs' & Ha & _ & H2 & _).
  rewrite Ha in Hrecs. apply app_inv_head in Hrecs. subst recs'.
  apply (Forall2_records _ _ _ (fun w step => record_of_failed_screenshot World now callTool w step) H2).
Qed.


(** C5: once a run has finalized its report, the result is [pass] exactly
    when the report counts no failed action; a finalized report of a fresh
    runner with no action at all says [pass]. *)
Theorem testResult_pass_iff_no_failures testText testName (r : Runner World)
  (rep : Report.t) :
  testReport (snd (runTest' testText testName r)) = Some rep ->
  finalized rep ->
  (Report.testResult rep = "pass" <-> Report.failedActions rep = 0%nat) /\
  (Report.totalActions rep = 0%nat -> Results.failed (testResults r) = 0%nat ->
   Report.testResult rep = "pass").
Proof.
  intros Hrep Hfin.
  destruct (runTest_outcomes testText testName r)
    as [(e & _ & _ & _ & _ & Hr)
       |(plan & executed & rest & recs & _ & _ & Hran & _ &
         [(e & step & rest' & _ & _ & _ & Hr)
         |(_ & rep' & Hr & _ & _ & _ & Hf & Htot & Hres & _)])].
  - rewrite Hr in Hrep. injection Hrep as <-. exfalso. apply Hfin. reflexivity.
  - rewrite Hr in Hrep. injection Hrep as <-. exfalso. apply Hfin. reflexivity.
  - rewrite Hr in Hrep. injection Hrep as ->.
    rewrite Hres, Hf, Htot.
    destruct Hran as (_ & Ha & _ & Hfail & _).
    split.
    + destruct (Nat.eqb_spec (Results.failed (testResults (snd (runTest' testText testName r)))) 0);
        split; intros H; try reflexivity; try assumption; try discriminate; contradiction.
    + intros Hlen Hf0. rewrite Ha, List.length_app in Hlen.
      assert (recs = []) by (destruct recs; [reflexivity|simpl in Hlen; lia]).
      subst recs. rewrite Hfail, Hf0. reflexivity.
Qed.

(** C7 (as the code has it): when the plan text, fences stripped, is not
    valid JSON, or is the JSON [null], or is a value whose [length] cannot
    be put into the log line, the run throws [Invalid plan JSON] before any
    action: no tool is invoked, no record is created, and the report stays
    unfinalized.  Every other value, an array of steps or not, is returned
    by [generateExecutionPlan] as the plan. *)
Theorem invalid_plan_json_aborts testText testName (r : Runner World) text w :
  generateText (world r)
    (buildPlanningPrompt r testText (List.length (step_lines testText)))
  = (inr text, w) ->
  let out := runTest' testText testName r in
  ((exists msg, JSON_parse (strip_fences text) = inl msg)
   \/ JSON_parse (strip_fences text) = inr JNull
   \/ (exists plan, JSON_parse (strip_fences text) = inr plan /\
                    converts_opt (plan_length plan) = false) ->
   exists e,
     fst out = Throw e /\
     startsWith "Invalid plan JSON: " (Err.message e) = true /\
     calls (snd out) = calls r /\
     testResults (snd out) = testResults r /\
     testReport (snd out) = Some (initial_report testName testText (now (world r))))
  /\
  (forall plan,
      JSON_parse (strip_fences text) = inr plan ->
      plan <> JNull ->
      converts_opt (plan_length plan) = true ->
      plan' testText (step_lines testText) r = (Normal plan, set_world w r)).
Proof.
  intros Hgen. cbv zeta. split.
  - intros Hparse. rewrite runTest_phases. cbv zeta.
    unfold generateExecutionPlan.
    change (world (set_testReport ?x r)) with (world r).
    change (buildPlanningPrompt (set_testReport ?x r)) with (buildPlanningPrompt r).
    rewrite Hgen.
    destruct Hparse as [(msg & ->)|[->|(plan & -> & Hconv)]];
      try (eexists; simpl; repeat split; reflexivity).
    destruct plan; rewrite ?Hconv; eexists; simpl; repeat split; reflexivity.
  - intros plan Hparse Hnull Hconv.
    exact (plan_accepts testText (step_lines testText) r text w plan
             Hgen Hparse Hnull Hconv).
Qed.

Lemma invocation_calls (step : option JsValue) :
  step_tool step <> None -> step_calls step = invocation step.
Proof.
  unfold step_calls, invocation. destruct (step_tool step) as [s|] eqn:Hs; [|congruence].
  intros _. rewrite (step_tool_name step s Hs). destruct (prop step "params"); reflexivity.
Qed.

Lemma all_executable_calls testSteps items :
  forall i, all_executable ToNumber testSteps i items = true ->
            flat_map step_calls items = flat_map invocation items.
Proof.
  induction items as [|step items IH]; intros i H; [reflexivity|].
  cbn [all_executable] in H. apply andb_prop in H. destruct H as [Hex Hall].
  cbn [flat_map]. rewrite (IH (S i) Hall). f_equal. apply invocation_calls.
  unfold executable in Hex. apply andb_prop in Hex. destruct Hex as [_ Hex].
  destruct (step_tool step); [discriminate|discriminate].
Qed.

Lemma record_of_without_params (w0 : World) (step : option JsValue) :
  prop step "params" = None ->
  Action.status (record_of now callTool w0 step) = "failed".
Proof.
  intros Hp. unfold record_of, settle, call_of. rewrite Hp. reflexivity.
Qed.

(** C1 (as the code has it): the plan is not checked against the tool
    catalog.  When [generateExecutionPlan] accepts the parsed plan and
    every step reaches the [try] block of the loop, the provider calls the
    run makes are exactly the invocations of the steps that carry
    parameters, in plan order, each under the tool name of its step with a
    leading [mcp_] removed, whatever the catalog holds; a step without
    parameters is not invoked and is recorded as failed; every step is
    recorded once, in plan order, and the report is finalized.  So a step
    with parameters whose tool is not in the catalog is invoked. *)
Theorem unknown_tool_step_is_invoked testText testName (r : Runner World) text w plan :
  generateText (world r)
    (buildPlanningPrompt r testText (List.length (step_lines testText)))
  = (inr text, w) ->
  JSON_parse (strip_fences text) = inr plan ->
  plan <> JNull ->
  converts_opt (plan_length plan) = true ->
  all_executable ToNumber (step_lines testText) 0 (plan_items ToNumber plan) = true ->
  let r' := snd (runTest' testText testName r) in
  exists recs rep,
    calls r' = (calls r ++ flat_map invocation (plan_items ToNumber plan))%list /\
    Results.actions (testResults r') = (Results.actions (testResults r) ++ recs)%list /\
    Forall2 (fun step rec =>
               Action.tool rec = mcp_label (prop step "tool") /\
               Action.params rec = prop step "params" /\
               (prop step "params" = None -> Action.status rec = "failed"))
            (plan_items ToNumber plan) recs /\
    testReport r' = Some rep /\ finalized rep /\
    Report.actions rep = Results.actions (testResults r') /\
    forall step s arguments,
      In step (plan_items ToNumber plan) ->
      step_tool step = Some s ->
      prop step "params" = Some arguments ->
      in_catalog (mcpTools r) (strip_mcp s) = false ->
      In (strip_mcp s, arguments) (calls r').
Proof.
  intros Hgen Hparse Hnull Hconv Hall. cbv zeta.
  destruct (executable_plan_runs_in_full testText testName r text w plan
              Hgen Hparse Hnull Hconv Hall)
    as (recs & rep & Hc & Ha & Hrecs & Hr & Hfin & Hact).
  rewrite (all_executable_calls _ _ 0%nat Hall) in Hc.
  exists recs, rep.
  split; [exact Hc|]. split; [exact Ha|].
  split.
  { clear - Hrecs. induction Hrecs as [|step rec items recs (w0 & ->) _ IH];
      constructor; [|exact IH].
    destruct (record_of_step World now callTool w0 step) as [Ht Hp].
    split; [exact Ht|]. split; [exact Hp|].
    apply record_of_without_params. }
  split; [exact Hr|]. split; [exact Hfin|]. split; [exact Hact|].
  intros step s arguments Hin Hs Hp _.
  rewrite Hc. apply in_or_app. right.
  apply in_flat_map. exists step. split; [exact Hin|].
  unfold invocation. rewrite Hs, Hp. left. reflexivity.
Qed.

End RunFacts.

(** C10 at a run whose second step fails while its text names an image. *)
Lemma failed_record_has_no_screenshot_witness :
  Forall (fun rec => Action.status rec = "failed" -> Action.screenshot rec = None)
    (Results.actions
       (testResults
          (snd (Demo.run Inputs.click_fails Inputs.plan_two_text Inputs.known
                  Inputs.catalog Inputs.two_lines)))).
Proof.
  apply (@failed_record_has_no_screenshot Demo.World Demo.now
           (Demo.callTool Inputs.click_fails) (Demo.generateText Inputs.plan_two_text)
           (Demo.JSON_parse Inputs.known) Demo.ToNumber Demo.writeReport
           Inputs.two_lines "demo.test.yml" (new_runner Inputs.catalog 0%nat)).
  reflexivity.
Defined.

(** The run of that witness: the first step passes with a screenshot, the
    second fails without one. *)
Example click_fails_run :
  map (fun rec => (Action.status rec, Action.screenshot rec))
    (Results.actions
       (testResults
          (snd (Demo.run Inputs.click_fails Inputs.plan_two_text Inputs.known
                  Inputs.catalog Inputs.two_lines))))
  = [("passed", Some "mcp-workspace/test-screenshots/shot2.jpg"); ("failed", None)].
Proof. reflexivity. Qed.



(** C5 at the run of the empty plan. *)
Lemma testResult_pass_iff_no_failures_witness :
  exists rep,
    testReport (snd (Demo.run Inputs.always_ok Inputs.plan_empty_text Inputs.known
                       Inputs.catalog Inputs.two_lines)) = Some rep /\
    Report.totalActions rep = 0%nat /\
    (Report.testResult rep = "pass" <-> Report.failedActions rep = 0%nat) /\
    (Report.totalActions rep = 0%nat -> 0%nat = 0%nat -> Report.testResult rep = "pass").
Proof.
  eexists. split; [reflexivity|]. split; [reflexivity|].
  apply (@testResult_pass_iff_no_failures Demo.World Demo.now
           (Demo.callTool Inputs.always_ok) (Demo.generateText Inputs.plan_empty_text)
           (Demo.JSON_parse Inputs.known) Demo.ToNumber Demo.writeReport
           Inputs.two_lines "demo.test.yml" (new_runner Inputs.catalog 0%nat)).
  - reflexivity.
  - unfold finalized. simpl. discriminate.
Defined.

(** C7 as stated fails: a reply that parses to an object, not an array of
    steps, does not abort the run; the run finalizes with [pass]. *)
Lemma object_plan_is_not_rejected :
  let out := Demo.run Inputs.always_ok Inputs.plan_object_text Inputs.known
               Inputs.catalog Inputs.two_lines in
  Demo.JSON_parse Inputs.known (strip_fences Inputs.plan_object_text) = inr (JObj []) /\
  fst out = Normal {| Results.passed := 0; Results.failed := 0; Results.actions := [] |} /\
  exists rep,
    testReport (snd out) = Some rep /\ finalized rep /\ Report.testResult rep = "pass".
Proof.
  cbv zeta. split; [reflexivity|]. split; [reflexivity|].
  eexists. split; [reflexivity|]. split; [|reflexivity].
  unfold finalized. simpl. discriminate.
Qed.

(** C7 at a reply that is prose. *)
Lemma invalid_plan_json_aborts_witness :
  let out := Demo.run Inputs.always_ok Inputs.prose_text Inputs.known
               Inputs.catalog Inputs.two_lines in
  exists e,
    fst out = Throw e /\
    startsWith "Invalid plan JSON: " (Err.message e) = true /\
    calls (snd out) = [] /\
    testResults (snd out)
    = {| Results.passed := 0; Results.failed := 0; Results.actions := [] |} /\
    testReport (snd out)
    = Some (initial_report "demo.test.yml" Inputs.two_lines (Demo.now 0%nat)).
Proof.
  apply (@invalid_plan_json_aborts Demo.World Demo.now
           (Demo.callTool Inputs.always_ok) (Demo.generateText Inputs.prose_text)
           (Demo.JSON_parse Inputs.known) Demo.ToNumber Demo.writeReport
           Inputs.two_lines "demo.test.yml" (new_runner Inputs.catalog 0%nat)
           Inputs.prose_text 1%nat).
  - reflexivity.
  - left. eexists. reflexivity.
Defined.

(** A reply that is valid JSON, an object whose [length] is an object with
    a property [toString] of its own: the log line cannot print the
    length, and the plan is rejected. *)
Example unconvertible_length_is_rejected :
  let out := Demo.run Inputs.always_ok Inputs.plan_bad_length_text Inputs.known
               Inputs.catalog Inputs.two_lines in
  Demo.JSON_parse Inputs.known (strip_fences Inputs.plan_bad_length_text)
  = inr Inputs.plan_bad_length /\
  fst out
  = Throw (new_Error "Invalid plan JSON: Cannot convert object to primitive value") /\
  calls (snd out) = [] /\
  Results.actions (testResults (snd out)) = [].
Proof. cbv zeta. repeat split; reflexivity. Qed.

(** C1 as stated fails: the plan names a tool that is not in the catalog,
    and the run neither rejects the plan nor drops the step: the provider
    is invoked with that name and the step is recorded. *)
Lemma unknown_tool_is_executed :
  let out := Demo.run Inputs.always_ok Inputs.plan_unknown_text Inputs.known
               Inputs.catalog Inputs.two_lines in
  in_catalog Inputs.catalog "browser_teleport" = false /\
  calls (snd out) = [("browser_teleport", JObj [])] /\
  map Action.tool (Results.actions (testResults (snd out))) = ["mcp_browser_teleport"] /\
  fst out = Normal (testResults (snd out)).
Proof. cbv zeta. repeat split; reflexivity. Qed.

(** C1 at that plan. *)
Lemma unknown_tool_step_is_invoked_witness :
  let r := new_runner Inputs.catalog 0%nat in
  let r' := snd (Demo.run Inputs.always_ok Inputs.plan_unknown_text Inputs.known
                   Inputs.catalog Inputs.two_lines) in
  exists recs rep,
    calls r'
    = (calls r ++ flat_map invocation (plan_items Demo.ToNumber Inputs.plan_unknown))%list /\
    Results.actions (testResults r') = (Results.actions (testResults r) ++ recs)%list /\
    Forall2 (fun step rec =>
               Action.tool rec = mcp_label (prop step "tool") /\
               Action.params rec = prop step "params" /\
               (prop step "params" = None -> Action.status rec = "failed"))
            (plan_items Demo.ToNumber Inputs.plan_unknown) recs /\
    testReport r' = Some rep /\ finalized rep /\
    Report.actions rep = Results.actions (testResults r') /\
    forall step s arguments,
      In step (plan_items Demo.ToNumber Inputs.plan_unknown) ->
      step_tool step = Some s ->
      prop step "params" = Some arguments ->
      in_catalog (mcpTools r) (strip_mcp s) = false ->
      In (strip_mcp s, arguments) (calls r').
Proof.
  apply (@unknown_tool_step_is_invoked Demo.World Demo.now
           (Demo.callTool Inputs.always_ok) (Demo.generateText Inputs.plan_unknown_text)
           (Demo.JSON_parse Inputs.known) Demo.ToNumber Demo.writeReport
           Inputs.two_lines "demo.test.yml" (new_runner Inputs.catalog 0%nat)
           Inputs.plan_unknown_text 1%nat Inputs.plan_unknown).
  - reflexivity.
  - reflexivity.
  - discriminate.
  - reflexivity.
  - reflexivity.
Defined.

(** C4 at a plan longer than the test: the test has one step line, the plan
    two steps numbered 1 and 2.  The first step is recorded; the log line
    of the second finds no original step text and throws, so the run ends
    with one record and a report that was never finalized. *)
Theorem plan_longer_than_test_aborts :
  let out := Demo.run Inputs.always_ok Inputs.plan_two_text Inputs.known
               Inputs.catalog Inputs.one_line_text in
  List.length (step_lines Inputs.one_line_text) = 1%nat /\
  List.length (plan_items Demo.ToNumber Inputs.plan_two) = 2%nat /\
  fst out = Throw (TypeError "Cannot read properties of undefined (reading 'trim')") /\
  List.length (Results.actions (testResults (snd out))) = 1%nat /\
  calls (snd out) = [("browser_navigate", JObj [])] /\
  testReport (snd out)
  = Some (initial_report "demo.test.yml" Inputs.one_line_text (Demo.now 0%nat)).
Proof. cbv zeta. repeat split; reflexivity. Qed.

(** The serialised plans are what the scripted planner replies, and a
    fenced reply is stripped to the same text. *)
Example plan_texts :
  Inputs.plan_empty_text = Json.stringify (JArr []) /\
  Inputs.plan_object_text = Json.stringify (JObj []) /\
  strip_fences Inputs.plan_two_text = Inputs.plan_two_text /\
  strip_fences Inputs.plan_two_fenced = Inputs.plan_two_text /\
  Demo.JSON_parse Inputs.known (strip_fences Inputs.plan_two_fenced) = inr Inputs.plan_two.
Proof. repeat split; reflexivity. Qed.

(** A step without [params] never reaches the provider: [executeMCP] throws
    in its log line, and the step is recorded failed with duration 0. *)
Example step_without_params :
  let step := Some (JObj [("stepIndex", JNum 1); ("tool", JStr "browser_click")]) in
  let r' := snd (run_step Demo.now (Demo.callTool Inputs.always_ok) Demo.ToNumber
                   Inputs.one_line 0 step (new_runner [] 0%nat)) in
  calls r' = [] /\
  map (fun rec => (Action.status rec, Action.error rec, Action.duration rec))
      (Results.actions (testResults r'))
  = [("failed", Some "Cannot read properties of undefined (reading 'substring')", 0%Z)].
Proof. cbv zeta. split; reflexivity. Qed.

(** A fenced reply runs as the plain one: two steps, both passed, and a
    finalized report. *)
Example fenced_reply_runs :
  let out := Demo.run Inputs.always_ok Inputs.plan_two_fenced Inputs.known
               Inputs.catalog Inputs.two_lines in
  map Action.status (Results.actions (testResults (snd out))) = ["passed"; "passed"] /\
  calls (snd out) = [("browser_navigate", JObj []); ("browser_click", JObj [])] /\
  option_map Report.testResult (testReport (snd out)) = Some "pass" /\
  option_map Report.totalActions (testReport (snd out)) = Some 2%nat.
Proof. cbv zeta. repeat split; reflexivity. Qed.

(** * Further properties

    ** Plans and step lines *)

Lemma trim_empty_start (s : string) : trim s <> EmptyString -> s <> EmptyString.
Proof. intros H ->. apply H. reflexivity. Qed.

(** Every step line is a non-empty string whose trimmed text begins with a
    dash. *)
Lemma step_lines_dash (testText : string) :
  Forall (fun l => startsWith "-" (trim l) = true /\ nonempty l = true)
         (step_lines testText).
Proof.
  apply Forall_forall. intros l Hin. unfold step_lines in Hin.
  apply filter_In in Hin. destruct Hin as [_ H]. split; [exact H|].
  destruct l; [discriminate|reflexivity].
Qed.

Section PlanFacts.

Variable World : Type.
Variable now : World -> Z.
Variable callTool : World -> string -> JsValue -> CallOutcome * World.
Variable generateText : World -> PlanningPrompt -> (string + string) * World.
Variable JSON_parse : string -> string + JsValue.
Variable ToNumber : JsValue -> option Z.
Variable writeReport : World -> Report.t -> option string.

Local Abbreviation runTest' := (runTest now callTool generateText JSON_parse ToNumber writeReport).

(** Within the step lines the log line always finds a text, whatever
    number the step index of the plan converts to. *)
Lemma original_step_within (testSteps : list string) (i : nat) (stepIndex : option JsValue) :
  Forall (fun l => nonempty l = true) testSteps ->
  (i < List.length testSteps)%nat ->
  original_step ToNumber testSteps i stepIndex <> None.
Proof.
  intros Hne Hi. unfold original_step, or_else.
  destruct (nth_error testSteps i) as [l|] eqn:E.
  2:{ apply nth_error_None in E. lia. }
  destruct (at_index testSteps _) as [s|]; [|discriminate].
  destruct (nonempty s); discriminate.
Qed.

Lemma all_executable_within (testSteps : list string) (steps : list JsValue) :
  Forall (fun l => nonempty l = true) testSteps ->
  all_tools steps = true ->
  all_indexes steps = true ->
  forall i, (i + List.length steps <= List.length testSteps)%nat ->
  all_executable ToNumber testSteps i (map Some steps) = true.
Proof.
  intros Hne. induction steps as [|step steps IH]; intros Htools Hidx i Hlen;
    [reflexivity|].
  simpl in Htools. apply andb_prop in Htools. destruct Htools as [Ht Htools].
  unfold all_indexes in Hidx. cbn [forallb] in Hidx.
  apply andb_prop in Hidx. destruct Hidx as [Hi Hidx].
  simpl in Hlen. cbn [map all_executable].
  rewrite (IH Htools Hidx (S i)) by lia. rewrite andb_true_r.
  unfold executable. rewrite Hi. cbn [andb].
  destruct (step_tool (Some step)); [|discriminate].
  pose proof (original_step_within testSteps i (prop (Some step) "stepIndex") Hne
                ltac:(lia)) as Ho.
  destruct (original_step _ _ _ _); [reflexivity|contradiction].
Qed.

Lemma Forall2_map_Some (P : option JsValue -> Action.t -> Prop) steps recs :
  Forall2 P (map Some steps) recs -> Forall2 (fun step rec => P (Some step) rec) steps recs.
Proof.
  revert recs. induction steps as [|s steps IH]; intros recs H; inversion H; subst;
    constructor; auto.
Qed.

Lemma Forall2_impl {A B : Type} (P Q : A -> B -> Prop) l1 l2 :
  (forall a b, P a b -> Q a b) -> Forall2 P l1 l2 -> Forall2 Q l1 l2.
Proof. intros HPQ H. induction H; constructor; auto. Qed.

(** The run of a plan all of whose steps are executable, in full: what was
    invoked and recorded, the finalized report, and how [runTest] ends. *)
Lemma runTest_completes testText testName (r : Runner World) text w plan :
  generateText (world r)
    (buildPlanningPrompt r testText (List.length (step_lines testText)))
  = (inr text, w) ->
  JSON_parse (strip_fences text) = inr plan ->
  plan <> JNull ->
  converts_opt (plan_length plan) = true ->
  all_executable ToNumber (step_lines testText) 0 (plan_items ToNumber plan) = true ->
  let out := runTest' testText testName r in
  exists recs rep,
    ran r (snd out) (plan_items ToNumber plan) recs /\
    Forall2 (fun step rec => exists w, rec = record_of now callTool w step)
            (plan_items ToNumber plan) recs /\
    testReport (snd out) = Some rep /\ finalized rep /\
    Report.actions rep = Results.actions (testResults (snd out)) /\
    Report.passedActions rep = Results.passed (testResults (snd out)) /\
    Report.failedActions rep = Results.failed (testResults (snd out)) /\
    Report.totalActions rep = List.length (Results.actions (testResults (snd out))) /\
    Report.testResult rep =
      (if (Results.failed (testResults (snd out)) =? 0)%nat then "pass" else "fail") /\
    fst out =
      match writeReport (world (snd out)) rep with
      | Some reason => Throw (new_Error reason)
      | None =>
          if (0 <? Results.failed (testResults (snd out)))%nat
          then Throw (new_Error "Test failed")
          else Normal (testResults (snd out))
      end.
Proof.
  intros Hgen Hparse Hnull Hconv Hall. cbv zeta.
  destruct (runTest_outcomes World now callTool generateText JSON_parse ToNumber writeReport
              testText testName r)
    as [(e & Hp & _)
       |(plan0 & executed & rest & recs & Hp & Hitems & Hran & Hrecs &
         [(e & step & rest' & _ & -> & Hex & _)
         |(-> & rep & Hr & Hfin & Hact & Hpa & Hfa & Hta & Hres & Hout)])];
    rewrite (plan_accepts World generateText JSON_parse testText (step_lines testText)
               (set_testReport
                  (Some (initial_report testName testText (now (world r)))) r)
               text w plan Hgen Hparse Hnull Hconv) in Hp;
    simpl in Hp; try discriminate; injection Hp as <-.
  - exfalso. rewrite Hitems in Hall.
    apply (all_executable_app ToNumber _ _ _ _ 0%nat) in Hall. simpl in Hall. congruence.
  - rewrite app_nil_r in Hitems. subst executed.
    exists recs, rep. split; [exact Hran|]. repeat split; assumption.
Qed.

(** X1: a plan no longer than the list of step lines, all of whose steps
    have a string tool name and a step index that can be converted to a
    number, is run to the end whatever numbers the step indexes are: one
    record per step, in plan order, and a finalized report. *)
Theorem short_plan_runs_in_full testText testName (r : Runner World) text w steps :
  generateText (world r)
    (buildPlanningPrompt r testText (List.length (step_lines testText)))
  = (inr text, w) ->
  JSON_parse (strip_fences text) = inr (JArr steps) ->
  all_tools steps = true ->
  all_indexes steps = true ->
  (List.length steps <= List.length (step_lines testText))%nat ->
  let r' := snd (runTest' testText testName r) in
  exists recs rep,
    Results.actions (testResults r') = (Results.actions (testResults r) ++ recs)%list /\
    Forall2 (fun step rec =>
               Action.tool rec = mcp_label (prop (Some step) "tool") /\
               Action.params rec = prop (Some step) "params") steps recs /\
    testReport r' = Some rep /\ finalized rep /\
    Report.actions rep = Results.actions (testResults r').
Proof.
  intros Hgen Hparse Htools Hidx Hlen. cbv zeta.
  assert (Hne : Forall (fun l => nonempty l = true) (step_lines testText)).
  { apply (Forall_impl _ (P := fun l => startsWith "-" (trim l) = true /\ nonempty l = true));
      [intros l [_ H]; exact H|apply step_lines_dash]. }
  pose proof (all_executable_within (step_lines testText) steps Hne Htools Hidx 0%nat Hlen)
    as Hall.
  destruct (runTest_completes testText testName r text w (JArr steps) Hgen Hparse
              ltac:(discriminate) eq_refl Hall)
    as (recs & rep & (_ & Ha & _) & Hrecs & Hr & Hfin & Hact & _).
  exists recs, rep. repeat split; try assumption.
  apply Forall2_map_Some in Hrecs.
  refine (Forall2_impl _ _ _ _ _ Hrecs).
  intros step rec (w0 & ->). apply record_of_step.
Qed.

Lemma record_of_status (w : World) (step : option JsValue) :
  Action.status (record_of now callTool w step) = "passed" \/
  Action.status (record_of now callTool w step) = "failed".
Proof.
  unfold record_of.
  destruct (fst (settle now callTool w step)) as [[result duration]|err]; simpl; auto.
Qed.

Lemma count_total (l : list Action.t) :
  Forall (fun rec => Action.status rec = "passed" \/ Action.status rec = "failed") l ->
  (count_status "passed" l + count_status "failed" l = List.length l)%nat.
Proof.
  induction 1 as [|rec l [H|H] _ IH]; [reflexivity| |];
    change (rec :: l) with ([rec] ++ l)%list;
    rewrite !count_status_app, !count_status_record, H; simpl; lia.
Qed.

(** X2: a run keeps the counters in step with the list of records: when
    they agree before the run they agree after it, however the run ends,
    and a finalized report has [totalActions = passedActions +
    failedActions], which is the number of its records. *)
Theorem counters_consistent testText testName (r : Runner World) :
  consistent (testResults r) ->
  let r' := snd (runTest' testText testName r) in
  consistent (testResults r') /\
  forall rep,
    testReport r' = Some rep -> finalized rep ->
    Report.totalActions rep = (Report.passedActions rep + Report.failedActions rep)%nat /\
    Report.totalActions rep = List.length (Report.actions rep) /\
    Report.passedActions rep = count_status "passed" (Report.actions rep) /\
    Report.failedActions rep = count_status "failed" (Report.actions rep).
Proof.
  intros (Hp & Hf & Hs). cbv zeta.
  destruct (runTest_outcomes World now callTool generateText JSON_parse ToNumber writeReport
              testText testName r)
    as [(e & _ & _ & Ht & _ & Hr)
       |(plan & executed & rest & recs & _ & _ & (_ & Ha & Hp' & Hf' & _) & Hrecs & Hend)].
  - rewrite Ht. split; [repeat split; assumption|].
    intros rep Hrep Hfin. rewrite Hr in Hrep. injection Hrep as <-.
    exfalso. apply Hfin. reflexivity.
  - assert (Hs' : Forall (fun rec => Action.status rec = "passed"
                                     \/ Action.status rec = "failed") recs).
    { apply (Forall2_records World now callTool _ _ _
               (fun w step => record_of_status w step) Hrecs). }
    assert (Hcons : consistent (testResults (snd (runTest' testText testName r)))).
    { unfold consistent. rewrite Hp', Hf', Ha, !count_status_app, Hp, Hf.
      repeat split. apply Forall_app. split; assumption. }
    split; [exact Hcons|].
    intros rep Hrep Hfin.
    destruct Hend as [(e & step & rest' & _ & _ & _ & Hr)
                     |(_ & rep' & Hr & _ & Hact & Hpa & Hfa & Hta & _)].
    + rewrite Hr in Hrep. injection Hrep as <-. exfalso. apply Hfin. reflexivity.
    + rewrite Hr in Hrep. injection Hrep as ->.
      destruct Hcons as (Hcp & Hcf & Hcs).
      rewrite Hta, Hpa, Hfa, Hact, Hcp, Hcf.
      pose proof (count_total _ Hcs). repeat split; lia.
Qed.

(** X3: when [runTest] returns normally, what it returns are the runner's
    results with no failed action, and the report is finalized with
    [pass]. *)
Theorem normal_return_is_pass testText testName (r : Runner World) (t : Results.t) :
  fst (runTest' testText testName r) = Normal t ->
  let r' := snd (runTest' testText testName r) in
  t = testResults r' /\ Results.failed t = 0%nat /\
  exists rep,
    testReport r' = Some rep /\ finalized rep /\
    Report.testResult rep = "pass" /\ Report.failedActions rep = 0%nat /\
    Report.actions rep = Results.actions t.
Proof.
  intros Hout. cbv zeta.
  destruct (runTest_outcomes World now callTool generateText JSON_parse ToNumber writeReport
              testText testName r)
    as [(e & _ & He & _)
       |(plan & executed & rest & recs & _ & _ & _ & _ &
         [(e & step & rest' & He & _)
         |(_ & rep & Hr & Hfin & Hact & _ & Hfa & _ & Hres & Ho)])];
    try (rewrite He in Hout; discriminate).
  rewrite Ho in Hout.
  destruct (writeReport _ rep); [discriminate|].
  destruct (Nat.ltb_spec 0 (Results.failed (testResults (snd (runTest' testText testName r)))))
    as [Hlt|Hge]; [discriminate|].
  injection Hout as <-.
  assert (Hz : Results.failed (testResults (snd (runTest' testText testName r))) = 0%nat)
    by lia.
  split; [reflexivity|]. split; [exact Hz|].
  exists rep. rewrite Hres, Hfa, Hz. repeat split; assumption.
Qed.


(** X5: a step that reaches [executeMCP] without [params] never reaches the
    provider: the log line throws, and the step is recorded as failed with
    that message, duration 0 and no screenshot; the world and the calls
    made are left as they were and the loop goes on. *)
Theorem step_without_params_recorded_failed testSteps i step (r : Runner World) :
  executable ToNumber testSteps i step = true ->
  prop step "params" = None ->
  exists rec r',
    run_step now callTool ToNumber testSteps i step r = (Normal tt, r') /\
    world r' = world r /\ calls r' = calls r /\
    Results.actions (testResults r') = (Results.actions (testResults r) ++ [rec])%list /\
    Results.failed (testResults r') = S (Results.failed (testResults r)) /\
    Results.passed (testResults r') = Results.passed (testResults r) /\
    Action.status rec = "failed" /\
    Action.error rec = Some "Cannot read properties of undefined (reading 'substring')" /\
    Action.duration rec = 0%Z /\ Action.screenshot rec = None /\
    Action.params rec = None.
Proof.
  intros Hex Hp.
  rewrite (run_step_executable World now callTool ToNumber testSteps i step r Hex).
  rewrite recordAction_pushes.
  unfold settle, call_of, called. rewrite Hp. simpl.
  eexists. eexists. split; [reflexivity|]. simpl. rewrite Hp. repeat split.
Qed.

(** X6: a provider call that rejects is recorded as a failed step with the
    rejection message as error ([null] when the message is empty),
    duration 0 and no screenshot; the call is counted, the loop goes on. *)
Theorem rejected_call_recorded_failed testSteps i step (r : Runner World)
  (s : string) (arguments : JsValue) (reason : string) (w : World) :
  executable ToNumber testSteps i step = true ->
  step_tool step = Some s ->
  prop step "params" = Some arguments ->
  callTool (world r) (strip_mcp s) arguments = (Rejected reason, w) ->
  exists rec r',
    run_step now callTool ToNumber testSteps i step r = (Normal tt, r') /\
    world r' = w /\ calls r' = (calls r ++ [(strip_mcp s, arguments)])%list /\
    Results.actions (testResults r') = (Results.actions (testResults r) ++ [rec])%list /\
    Results.failed (testResults r') = S (Results.failed (testResults r)) /\
    Results.passed (testResults r') = Results.passed (testResults r) /\
    Action.status rec = "failed" /\
    Action.error rec = (if nonempty reason then Some reason else None) /\
    Action.duration rec = 0%Z /\ Action.screenshot rec = None.
Proof.
  intros Hex Hs Hp Hcall.
  rewrite (run_step_executable World now callTool ToNumber testSteps i step r Hex).
  rewrite recordAction_pushes.
  unfold settle, call_of, called.
  rewrite Hp, (step_tool_name step s Hs), Hcall. simpl.
  eexists. eexists. split; [reflexivity|]. simpl. repeat split.
Qed.

Lemma run_steps_stops testSteps before bad after :
  forall i (r : Runner World),
    all_executable ToNumber testSteps i before = true ->
    executable ToNumber testSteps (i + List.length before) bad = false ->
    exists e recs r',
      run_steps now callTool ToNumber testSteps i (before ++ bad :: after) r
      = (Throw e, r') /\
      ran r r' before recs /\ List.length recs = List.length before.
Proof.
  induction before as [|step before IH]; intros i r Hall Hbad.
  - rewrite Nat.add_0_r in Hbad.
    destruct (run_step_not_executable World now callTool ToNumber testSteps i bad r Hbad)
      as (e & Hrun).
    exists e, [], r. simpl. unfold bind. rewrite Hrun.
    split; [reflexivity|]. split; [apply ran_refl|reflexivity].
  - simpl in Hall. apply andb_prop in Hall. destruct Hall as [Hex Hall].
    destruct (run_step_ran World now callTool ToNumber testSteps i step r Hex)
      as (r1 & Hrun & Hran & _).
    destruct (IH (S i) r1 Hall) as (e & recs & r' & Hrest & Hran' & Hlen).
    { rewrite <- Hbad. f_equal. simpl. lia. }
    exists e, (record_of now callTool (world r) step :: recs), r'.
    simpl. unfold bind. rewrite Hrun. split; [exact Hrest|].
    split; [|simpl; congruence].
    apply (ran_trans World r r1 r' [step] before [_] recs Hran Hran').
Qed.

(** X7: a step whose tool is not a string, or whose step index cannot be
    converted to a number, aborts the run when the loop reaches it: the
    steps before it are invoked and recorded, no later step is, [runTest]
    throws and the report is left as it was created, not finalized. *)
Theorem malformed_step_aborts testText testName (r : Runner World) text w
  (before after : list JsValue) (bad : JsValue) :
  generateText (world r)
    (buildPlanningPrompt r testText (List.length (step_lines testText)))
  = (inr text, w) ->
  JSON_parse (strip_fences text) = inr (JArr (before ++ bad :: after)) ->
  all_tools before = true ->
  all_indexes before = true ->
  (List.length before <= List.length (step_lines testText))%nat ->
  step_tool (Some bad) = None \/ converts_opt (prop (Some bad) "stepIndex") = false ->
  let out := runTest' testText testName r in
  exists e recs,
    fst out = Throw e /\
    calls (snd out) = (calls r ++ flat_map invocation (map Some before))%list /\
    Results.actions (testResults (snd out))
    = (Results.actions (testResults r) ++ recs)%list /\
    List.length recs = List.length before /\
    testReport (snd out) = Some (initial_report testName testText (now (world r))).
Proof.
  intros Hgen Hparse Htools Hidx Hlen Hbad. cbv zeta.
  assert (Hne : Forall (fun l => nonempty l = true) (step_lines testText)).
  { apply (Forall_impl _ (P := fun l => startsWith "-" (trim l) = true /\ nonempty l = true));
      [intros l [_ H]; exact H|apply step_lines_dash]. }
  pose proof (all_executable_within (step_lines testText) before Hne Htools Hidx 0%nat Hlen)
    as Hall.
  rewrite (runTest_phases World now callTool generateText JSON_parse ToNumber writeReport).
  cbv zeta.
  set (ra := set_testReport _ r).
  rewrite (plan_accepts World generateText JSON_parse testText (step_lines testText)
             ra text w (JArr (before ++ bad :: after)) Hgen Hparse ltac:(discriminate)
             eq_refl).
  cbn [plan_items]. rewrite map_app. cbn [map].
  destruct (run_steps_stops (step_lines testText) (map Some before) (Some bad)
              (map Some after) 0%nat (set_world w ra) Hall)
    as (e & recs & r' & Hrun & (Hc & Ha & _) & Hlen').
  { unfold executable. destruct Hbad as [-> | ->]; [apply andb_false_r|reflexivity]. }
  pose proof (run_steps_keeps_report World now callTool ToNumber (step_lines testText)
                (map Some before ++ Some bad :: map Some after) 0 (set_world w ra)) as Hrep.
  rewrite Hrun in *. simpl in Hrep. simpl.
  rewrite (all_executable_calls ToNumber _ _ 0%nat Hall) in Hc.
  exists e, recs. split; [reflexivity|]. split; [exact Hc|]. split; [exact Ha|].
  split; [rewrite Hlen', length_map; reflexivity|exact Hrep].
Qed.

Lemma settle_clock (w : World) (step : option JsValue) :
  (forall w' toolName arguments, now w' <= now (snd (callTool w' toolName arguments)))%Z ->
  (now w <= now (snd (settle now callTool w step)))%Z.
Proof.
  intros Hmono. unfold settle, call_of.
  destruct (prop step "params") as [arguments|]; [|simpl; lia].
  specialize (Hmono w (step_toolName step) arguments).
  destruct (callTool w (step_toolName step) arguments). exact Hmono.
Qed.

Lemma run_steps_clock testSteps items :
  (forall w' toolName arguments, now w' <= now (snd (callTool w' toolName arguments)))%Z ->
  forall i (r : Runner World),
    (now (world r)
     <= now (world (snd (run_steps now callTool ToNumber testSteps i items r))))%Z.
Proof.
  intros Hmono. induction items as [|step items IH]; intros i r; [simpl; lia|].
  simpl. unfold bind.
  destruct (executable ToNumber testSteps i step) eqn:E.
  - destruct (run_step_ran World now callTool ToNumber testSteps i step r E)
      as (r1 & Hrun & _ & Hw).
    rewrite Hrun. specialize (IH (S i) r1). rewrite Hw in IH.
    pose proof (settle_clock (world r) step Hmono). lia.
  - destruct (run_step_not_executable World now callTool ToNumber testSteps i step r E)
      as (e & Hrun).
    rewrite Hrun. simpl. lia.
Qed.

(** X8: when the clock never runs backwards across the awaited calls, a
    finalized report carries the name and text of the test, the time the
    run started, and a duration that is the end time minus the start time
    and is not negative. *)
Theorem report_duration testText testName (r : Runner World) (rep : Report.t) :
  (forall w toolName arguments, now w <= now (snd (callTool w toolName arguments)))%Z ->
  (forall w prompt, now w <= now (snd (generateText w prompt)))%Z ->
  testReport (snd (runTest' testText testName r)) = Some rep ->
  finalized rep ->
  Report.testName rep = testName /\ Report.testText rep = testText /\
  Report.startTime rep = now (world r) /\
  exists endTime,
    Report.endTime rep = Some endTime /\
    Report.duration rep = Some (endTime - now (world r))%Z /\
    (0 <= endTime - now (world r))%Z.
Proof.
  intros Hcall Hgen Hrep Hfin.
  rewrite (runTest_phases World now callTool generateText JSON_parse ToNumber writeReport) in Hrep.
  cbv zeta in Hrep.
  set (ra := set_testReport _ r) in Hrep.
  assert (Hplan : (now (world r)
                   <= now (world (snd (generateExecutionPlan generateText JSON_parse
                                         testText (step_lines testText) ra))))%Z
                  /\ testReport (snd (generateExecutionPlan generateText JSON_parse
                                         testText (step_lines testText) ra))
                     = testReport ra).
  { unfold generateExecutionPlan.
    pose proof (Hgen (world ra)
                  (buildPlanningPrompt ra testText (List.length (step_lines testText))))
      as Hg.
    destruct (generateText (world ra) _) as [[reason|text] w0]; simpl in *;
      [split; [exact Hg|reflexivity]|].
    destruct (JSON_parse (strip_fences text)) as [msg|plan]; simpl;
      [split; [exact Hg|reflexivity]|].
    destruct plan; simpl; try (split; [exact Hg|reflexivity]);
      destruct (converts_opt _); simpl; (split; [exact Hg|reflexivity]). }
  destruct (generateExecutionPlan generateText JSON_parse testText
              (step_lines testText) ra) as [[plan|e] rb]; simpl in Hplan, Hrep.
  2:{ destruct Hplan as [_ Hr]. rewrite Hr in Hrep. injection Hrep as <-.
      exfalso. apply Hfin. reflexivity. }
  pose proof (run_steps_keeps_report World now callTool ToNumber (step_lines testText)
                (plan_items ToNumber plan) 0 rb) as Hkeep.
  pose proof (run_steps_clock (step_lines testText) (plan_items ToNumber plan)
                Hcall 0%nat rb) as Hclock.
  destruct (run_steps now callTool ToNumber (step_lines testText) 0
              (plan_items ToNumber plan) rb) as [[u|e] rc]; simpl in Hkeep, Hclock, Hrep.
  2:{ destruct Hplan as [_ Hr]. rewrite Hkeep, Hr in Hrep. injection Hrep as <-.
      exfalso. apply Hfin. reflexivity. }
  unfold finish, generateReport in Hrep. simpl in Hrep.
  destruct (writeReport _ _); simpl in Hrep;
    [|destruct (0 <? Results.failed (testResults rc))%nat; simpl in Hrep];
    injection Hrep as <-; simpl;
    (split; [reflexivity|]; split; [reflexivity|]; split; [reflexivity|];
     eexists; split; [reflexivity|]; split; [reflexivity|]; lia).
Qed.

Lemma passed_records (steps : list JsValue) :
  (forall w toolName arguments,
      exists result,
        fst (callTool w toolName arguments) = Resolved result /\
        isError result = false /\ returned_false result = false) ->
  all_params steps = true ->
  forall recs,
    Forall2 (fun step rec => exists w, rec = record_of now callTool w step)
            (map Some steps) recs ->
    count_status "passed" recs = List.length steps /\
    count_status "failed" recs = 0%nat.
Proof.
  intros Hok. induction steps as [|step steps IH]; intros Hp recs H;
    inversion H as [|x rec l recs' (w0 & Hrec) Hrest]; subst; [split; reflexivity|].
  unfold all_params in Hp. cbn [forallb] in Hp. apply andb_prop in Hp.
  destruct Hp as [Hp Hps].
  destruct (IH Hps recs' Hrest) as [IHp IHf].
  change (record_of now callTool w0 (Some step) :: recs')
    with ([record_of now callTool w0 (Some step)] ++ recs')%list.
  rewrite !count_status_app, !count_status_record, IHp, IHf.
  assert (Hst : Action.status (record_of now callTool w0 (Some step)) = "passed").
  { unfold record_of, settle, call_of.
    destruct (prop (Some step) "params") as [arguments|]; [|discriminate].
    destruct (Hok w0 (step_toolName (Some step)) arguments) as (result & Hr & He & Hf).
    destruct (callTool w0 (step_toolName (Some step)) arguments) as [outcome w1].
    simpl in Hr. subst outcome. simpl. rewrite He, Hf. reflexivity. }
  rewrite Hst. split; reflexivity.
Qed.

(** X9: when every provider call resolves without the error flag and
    without a negative result, and the report is written without an error,
    a plan within the step lines whose steps all carry a string tool,
    [params] and a step index that can be converted to a number passes: one
    provider call and one passed record per step, no failure, a report that
    says [pass], and [runTest] returns the results. *)
Theorem successful_run_passes testText testName (r : Runner World) text w steps :
  generateText (world r)
    (buildPlanningPrompt r testText (List.length (step_lines testText)))
  = (inr text, w) ->
  JSON_parse (strip_fences text) = inr (JArr steps) ->
  all_tools steps = true ->
  all_indexes steps = true ->
  all_params steps = true ->
  (List.length steps <= List.length (step_lines testText))%nat ->
  (forall w toolName arguments,
      exists result,
        fst (callTool w toolName arguments) = Resolved result /\
        isError result = false /\ returned_false result = false) ->
  (forall w rep, writeReport w rep = None) ->
  Results.failed (testResults r) = 0%nat ->
  let out := runTest' testText testName r in
  fst out = Normal (testResults (snd out)) /\
  Results.passed (testResults (snd out))
  = (Results.passed (testResults r) + List.length steps)%nat /\
  Results.failed (testResults (snd out)) = 0%nat /\
  List.length (Results.actions (testResults (snd out)))
  = (List.length (Results.actions (testResults r)) + List.length steps)%nat /\
  List.length (calls (snd out)) = (List.length (calls r) + List.length steps)%nat /\
  exists rep,
    testReport (snd out) = Some rep /\ Report.testResult rep = "pass" /\
    Report.passedActions rep = (Results.passed (testResults r) + List.length steps)%nat.
Proof.
  intros Hgen Hparse Htools Hidx Hparams Hlen Hok Hwrite Hzero. cbv zeta.
  assert (Hne : Forall (fun l => nonempty l = true) (step_lines testText)).
  { apply (Forall_impl _ (P := fun l => startsWith "-" (trim l) = true /\ nonempty l = true));
      [intros l [_ H]; exact H|apply step_lines_dash]. }
  pose proof (all_executable_within (step_lines testText) steps Hne Htools Hidx 0%nat Hlen)
    as Hall.
  destruct (runTest_completes testText testName r text w (JArr steps) Hgen Hparse
              ltac:(discriminate) eq_refl Hall)
    as (recs & rep & (Hc & Ha & Hp & Hf & _) & Hrecs & Hr & _ & _ & Hpa & _ & _ & Hres & Hout).
  rewrite Hwrite in Hout.
  cbn [plan_items] in Hc, Hrecs.
  destruct (passed_records steps Hok Hparams recs Hrecs) as [Hcp Hcf].
  rewrite Hcp in Hp. rewrite Hcf, Hzero in Hf. simpl in Hf.
  rewrite Hf in Hout, Hres. simpl in Hout, Hres.
  split; [exact Hout|]. split; [exact Hp|]. split; [exact Hf|].
  split.
  { rewrite Ha, List.length_app. f_equal.
    rewrite <- (Forall2_length Hrecs). apply length_map. }
  split.
  { rewrite Hc, List.length_app. f_equal.
    clear - Hparams. induction steps as [|step steps IH]; [reflexivity|].
    unfold all_params in Hparams. cbn [forallb] in Hparams.
    apply andb_prop in Hparams. destruct Hparams as [Hp Hps].
    cbn [map flat_map]. rewrite List.length_app, (IH Hps). unfold step_calls.
    destruct (prop (Some step) "params"); [reflexivity|discriminate]. }
  exists rep. split; [exact Hr|]. split; [exact Hres|]. rewrite Hpa. exact Hp.
Qed.

End PlanFacts.

(** X1 at a plan of one step whose index, 7, lies beyond the two step
    lines of the test. *)
Lemma short_plan_runs_in_full_witness :
  let r := new_runner Inputs.catalog 0%nat in
  let r' := snd (Demo.run Inputs.always_ok (Json.stringify Cases.plan_far) Cases.known_plans
                   Inputs.catalog Inputs.two_lines) in
  exists recs rep,
    Results.actions (testResults r') = (Results.actions (testResults r) ++ recs)%list /\
    Forall2 (fun step rec =>
               Action.tool rec = mcp_label (prop (Some step) "tool") /\
               Action.params rec = prop (Some step) "params")
            [Demo.step 7 "browser_click" false] recs /\
    testReport r' = Some rep /\ finalized rep /\
    Report.actions rep = Results.actions (testResults r').
Proof.
  apply (@short_plan_runs_in_full Demo.World Demo.now
           (Demo.callTool Inputs.always_ok)
           (Demo.generateText (Json.stringify Cases.plan_far))
           (Demo.JSON_parse Cases.known_plans) Demo.ToNumber Demo.writeReport
           Inputs.two_lines "demo.test.yml" (new_runner Inputs.catalog 0%nat)
           (Json.stringify Cases.plan_far) 1%nat [Demo.step 7 "browser_click" false]).
  - reflexivity.
  - reflexivity.
  - reflexivity.
  - reflexivity.
  - simpl. lia.
Defined.


(** X2 at a run from a fresh runner in which one step passes and one
    fails. *)
Lemma counters_consistent_witness :
  let r' := snd (Demo.run Inputs.click_fails Inputs.plan_two_text Inputs.known
                   Inputs.catalog Inputs.two_lines) in
  consistent (testResults r') /\
  forall rep,
    testReport r' = Some rep -> finalized rep ->
    Report.totalActions rep = (Report.passedActions rep + Report.failedActions rep)%nat /\
    Report.totalActions rep = List.length (Report.actions rep) /\
    Report.passedActions rep = count_status "passed" (Report.actions rep) /\
    Report.failedActions rep = count_status "failed" (Report.actions rep).
Proof.
  apply (@counters_consistent Demo.World Demo.now
           (Demo.callTool Inputs.click_fails) (Demo.generateText Inputs.plan_two_text)
           (Demo.JSON_parse Inputs.known) Demo.ToNumber Demo.writeReport
           Inputs.two_lines "demo.test.yml" (new_runner Inputs.catalog 0%nat)).
  split; [reflexivity|]. split; [reflexivity|]. constructor.
Defined.


(** X3 at a run of two steps that both pass. *)
Lemma normal_return_is_pass_witness :
  let out := Demo.run Inputs.always_ok Inputs.plan_two_text Inputs.known
               Inputs.catalog Inputs.two_lines in
  Results.passed (testResults (snd out)) = 2%nat /\
  testResults (snd out) = testResults (snd out) /\
  Results.failed (testResults (snd out)) = 0%nat /\
  exists rep,
    testReport (snd out) = Some rep /\ finalized rep /\
    Report.testResult rep = "pass" /\ Report.failedActions rep = 0%nat /\
    Report.actions rep = Results.actions (testResults (snd out)).
Proof.
  split; [reflexivity|].
  apply (@normal_return_is_pass Demo.World Demo.now
           (Demo.callTool Inputs.always_ok) (Demo.generateText Inputs.plan_two_text)
           (Demo.JSON_parse Inputs.known) Demo.ToNumber Demo.writeReport
           Inputs.two_lines "demo.test.yml" (new_runner Inputs.catalog 0%nat)
           (testResults (snd (Demo.run Inputs.always_ok Inputs.plan_two_text Inputs.known
                                Inputs.catalog Inputs.two_lines)))).
  reflexivity.
Defined.




(** X5 at a step that names a tool and carries no parameters. *)
Lemma step_without_params_recorded_failed_witness :
  let r := new_runner Inputs.catalog 0%nat in
  exists rec r',
    run_step Demo.now (Demo.callTool Inputs.always_ok) Demo.ToNumber
      Inputs.one_line 0 Cases.step_no_params r = (Normal tt, r') /\
    world r' = world r /\ calls r' = calls r /\
    Results.actions (testResults r') = (Results.actions (testResults r) ++ [rec])%list /\
    Results.failed (testResults r') = S (Results.failed (testResults r)) /\
    Results.passed (testResults r') = Results.passed (testResults r) /\
    Action.status rec = "failed" /\
    Action.error rec = Some "Cannot read properties of undefined (reading 'substring')" /\
    Action.duration rec = 0%Z /\ Action.screenshot rec = None /\
    Action.params rec = None.
Proof.
  apply (@step_without_params_recorded_failed Demo.World Demo.now
           (Demo.callTool Inputs.always_ok) Demo.ToNumber
           Inputs.one_line 0%nat Cases.step_no_params (new_runner Inputs.catalog 0%nat));
    reflexivity.
Defined.


(** X6 at a provider whose transport is closed. *)
Lemma rejected_call_recorded_failed_witness :
  let r := new_runner Inputs.catalog 0%nat in
  exists rec r',
    run_step Demo.now (Demo.callTool Cases.rejects) Demo.ToNumber
      Inputs.one_line 0 Inputs.click_step r = (Normal tt, r') /\
    world r' = 1%nat /\ calls r' = (calls r ++ [("browser_click", JObj [])])%list /\
    Results.actions (testResults r') = (Results.actions (testResults r) ++ [rec])%list /\
    Results.failed (testResults r') = S (Results.failed (testResults r)) /\
    Results.passed (testResults r') = Results.passed (testResults r) /\
    Action.status rec = "failed" /\
    Action.error rec = Some "socket closed" /\
    Action.duration rec = 0%Z /\ Action.screenshot rec = None.
Proof.
  apply (@rejected_call_recorded_failed Demo.World Demo.now
           (Demo.callTool Cases.rejects) Demo.ToNumber
           Inputs.one_line 0%nat Inputs.click_step (new_runner Inputs.catalog 0%nat)
           "browser_click" (JObj []) "socket closed" 1%nat);
    reflexivity.
Defined.


(** X7 at a plan of three steps whose second step has no tool. *)
Lemma malformed_step_aborts_witness :
  let r := new_runner Inputs.catalog 0%nat in
  let out := Demo.run Inputs.always_ok (Json.stringify Cases.plan_broken) Cases.known_plans
               Inputs.catalog Inputs.two_lines in
  exists e recs,
    fst out = Throw e /\
    calls (snd out)
    = (calls r ++ flat_map invocation
                    (map Some [Demo.step 1 "browser_navigate" false]))%list /\
    Results.actions (testResults (snd out))
    = (Results.actions (testResults r) ++ recs)%list /\
    List.length recs = 1%nat /\
    testReport (snd out)
    = Some (initial_report "demo.test.yml" Inputs.two_lines (Demo.now 0%nat)).
Proof.
  apply (@malformed_step_aborts Demo.World Demo.now
           (Demo.callTool Inputs.always_ok)
           (Demo.generateText (Json.stringify Cases.plan_broken))
           (Demo.JSON_parse Cases.known_plans) Demo.ToNumber Demo.writeReport
           Inputs.two_lines "demo.test.yml" (new_runner Inputs.catalog 0%nat)
           (Json.stringify Cases.plan_broken) 1%nat
           [Demo.step 1 "browser_navigate" false]
           [Demo.step 2 "browser_click" false]
           (JObj [("stepIndex", JNum 2); ("params", JObj [])])).
  - reflexivity.
  - reflexivity.
  - reflexivity.
  - reflexivity.
  - simpl. lia.
  - left. reflexivity.
Defined.

(** A plan whose only step has a step index that cannot be converted: the
    subtraction in the log line throws, no tool is invoked, nothing is
    recorded and the report is not finalized. *)
Example unconvertible_step_index_aborts :
  let out := Demo.run Inputs.always_ok (Json.stringify Cases.plan_bad_index)
               Cases.known_plans Inputs.catalog Inputs.two_lines in
  fst out = Throw (TypeError "Cannot convert object to primitive value") /\
  calls (snd out) = [] /\
  Results.actions (testResults (snd out)) = [] /\
  testReport (snd out)
  = Some (initial_report "demo.test.yml" Inputs.two_lines (Demo.now 0%nat)).
Proof. cbv zeta. repeat split; reflexivity. Qed.


(** X8 on the scripted clock, which advances by 25 ms per awaited call:
    one planning call and two provider calls. *)
Lemma report_duration_witness :
  exists rep,
    testReport (snd (Demo.run Inputs.always_ok Inputs.plan_two_text Inputs.known
                       Inputs.catalog Inputs.two_lines)) = Some rep /\
    Report.duration rep = Some 75%Z /\
    Report.testName rep = "demo.test.yml" /\ Report.testText rep = Inputs.two_lines /\
    Report.startTime rep = Demo.now 0%nat /\
    exists endTime,
      Report.endTime rep = Some endTime /\
      Report.duration rep = Some (endTime - Demo.now 0%nat)%Z /\
      (0 <= endTime - Demo.now 0%nat)%Z.
Proof.
  eexists. split; [vm_compute; reflexivity|]. split; [reflexivity|].
  apply (@report_duration Demo.World Demo.now
           (Demo.callTool Inputs.always_ok) (Demo.generateText Inputs.plan_two_text)
           (Demo.JSON_parse Inputs.known) Demo.ToNumber Demo.writeReport
           Inputs.two_lines "demo.test.yml" (new_runner Inputs.catalog 0%nat)).
  - intros w toolName arguments. unfold Demo.now, Demo.callTool. simpl snd. lia.
  - intros w prompt. unfold Demo.now, Demo.generateText. simpl snd. lia.
  - vm_compute. reflexivity.
  - unfold finalized. simpl. discriminate.
Defined.


(** X9 at a provider that always succeeds and a plan of two steps. *)
Lemma successful_run_passes_witness :
  let r := new_runner Inputs.catalog 0%nat in
  let out := Demo.run Inputs.always_ok Inputs.plan_two_text Inputs.known
               Inputs.catalog Inputs.two_lines in
  fst out = Normal (testResults (snd out)) /\
  Results.passed (testResults (snd out)) = (Results.passed (testResults r) + 2)%nat /\
  Results.failed (testResults (snd out)) = 0%nat /\
  List.length (Results.actions (testResults (snd out)))
  = (List.length (Results.actions (testResults r)) + 2)%nat /\
  List.length (calls (snd out)) = (List.length (calls r) + 2)%nat /\
  exists rep,
    testReport (snd out) = Some rep /\ Report.testResult rep = "pass" /\
    Report.passedActions rep = (Results.passed (testResults r) + 2)%nat.
Proof.
  apply (@successful_run_passes Demo.World Demo.now
           (Demo.callTool Inputs.always_ok) (Demo.generateText Inputs.plan_two_text)
           (Demo.JSON_parse Inputs.known) Demo.ToNumber Demo.writeReport
           Inputs.two_lines "demo.test.yml" (new_runner Inputs.catalog 0%nat)
           Inputs.plan_two_text 1%nat
           [Demo.step 1 "browser_navigate" false; Demo.step 2 "browser_click" false]).
  - reflexivity.
  - reflexivity.
  - reflexivity.
  - reflexivity.
  - reflexivity.
  - simpl. lia.
  - intros w toolName arguments. eexists. split; [reflexivity|]. split; reflexivity.
  - intros w rep. reflexivity.
  - reflexivity.
Defined.


(** ** Recorded screenshots and the report generator *)

Lemma ends_here_ext (lit e : string) :
  toLowerCase e = toLowerCase lit -> ends_here lit e = true.
Proof.
  intros H. unfold ends_here.
  pose proof (strip_ci_complete lit e EmptyString H) as Hc.
  rewrite app_empty_r in Hc. rewrite Hc. reflexivity.
Qed.

Lemma is_screenshot_file_ext (x e : string) :
  is_image_ext e -> is_screenshot_file (x ++ e) = true.
Proof.
  intros He. induction x as [|c x IH].
  - destruct e as [|a e']; [destruct (image_ext_nonempty _ He); reflexivity|].
    cbn [append is_screenshot_file].
    destruct He as [H|[H|H]];
      [rewrite (ends_here_ext ".png" _ H)
      |rewrite (ends_here_ext ".jpg" _ H)
      |rewrite (ends_here_ext ".jpeg" _ H)];
      rewrite ?orb_true_r; reflexivity.
  - cbn [append is_screenshot_file]. rewrite IH. apply orb_true_r.
Qed.

Lemma extracted_path_shape (result : McpResult) (p : string) :
  extractScreenshotPath result = Some p ->
  exists file,
    p = screenshotsDir ++ "/" ++ file /\
    has_slash file = false /\
    is_screenshot_file file = true /\
    Path.basename p = file /\
    embedded_path p = p.
Proof.
  intros Hp.
  destruct (content result) as [blocks|] eqn:Hc.
  2:{ unfold extractScreenshotPath in Hp. rewrite Hc in Hp. discriminate. }
  rewrite (extractScreenshotPath_matches result blocks Hc) in Hp.
  destruct (image_matches (fullText blocks)) as [|m0 ms] eqn:Hm; [discriminate|].
  destruct (image_matches_last (fullText blocks) m0 ms Hm)
    as (pre & post & _ & (stem & e & Hme & _ & _ & He) & _).
  injection Hp as <-.
  pose proof (image_ext_no_slash e He) as Hs.
  assert (Hbase : Path.basename (last ms m0) = Path.last_segment stem ++ e).
  { unfold Path.basename. rewrite Hme, (strip_trailing_slashes_ext stem e He).
    apply last_segment_app. exact Hs. }
  rewrite Hbase.
  set (file := Path.last_segment stem ++ e).
  assert (Hfile : has_slash file = false).
  { unfold file. rewrite has_slash_app, last_segment_has_no_slash, Hs. reflexivity. }
  assert (Hjoin : Path.join screenshotsDir file = screenshotsDir ++ "/" ++ file).
  { unfold Path.join. destruct file eqn:E; [|reflexivity].
    exfalso. unfold file in E. destruct (Path.last_segment stem); simpl in E;
      [exact (image_ext_nonempty e He E)|discriminate]. }
  assert (Hback : Path.basename (screenshotsDir ++ "/" ++ file) = file).
  { assert (Heq : screenshotsDir ++ "/" ++ file
                   = (screenshotsDir ++ "/" ++ Path.last_segment stem) ++ e).
    { unfold file. rewrite app_assoc_s. reflexivity. }
    unfold Path.basename.
    rewrite Heq, (strip_trailing_slashes_ext _ e He), <- Heq.
    apply (last_segment_after_slash screenshotsDir file Hfile). }
  exists file. rewrite Hjoin. split; [reflexivity|]. split; [exact Hfile|].
  split; [apply is_screenshot_file_ext; exact He|].
  split; [exact Hback|].
  unfold embedded_path. rewrite Hback. exact Hjoin.
Qed.

(** X10: the path [extractScreenshotPath] returns is the screenshots
    directory followed by one file name: the name has no slash, passes the
    filter of [findScreenshots], and is what the report generator gets
    back with [path.basename]; joining it to the screenshots directory, as
    [embedScreenshot] does, gives the recorded path again. *)
Theorem screenshot_path_round_trip (result : McpResult) (p : string) :
  extractScreenshotPath result = Some p ->
  exists file,
    p = screenshotsDir ++ "/" ++ file /\
    has_slash file = false /\
    is_screenshot_file file = true /\
    Path.basename p = file /\
    embedded_path p = p.
Proof.
  apply extracted_path_shape.
Qed.

(** X10 at a result whose text names two image files, the second behind a
    directory. *)
Lemma screenshot_path_round_trip_witness :
  exists file,
    "mcp-workspace/test-screenshots/shot2.jpg" = screenshotsDir ++ "/" ++ file /\
    has_slash file = false /\
    is_screenshot_file file = true /\
    Path.basename "mcp-workspace/test-screenshots/shot2.jpg" = file /\
    embedded_path "mcp-workspace/test-screenshots/shot2.jpg"
    = "mcp-workspace/test-screenshots/shot2.jpg".
Proof.
  apply (screenshot_path_round_trip Cases.shot_in_directory). reflexivity.
Defined.

(** ** Code fences *)

Lemma remove_fence_from_drop (fence s : string) :
  forall k, remove_fence_from fence k s = remove_fence fence (drop k s).
Proof.
  induction s as [|c r IH]; intros [|k]; try reflexivity.
  cbn [remove_fence_from drop]. apply IH.
Qed.

Lemma remove_fence_keep (fence : string) (c : ascii) (r : string) :
  startsWith fence (String c r) = false ->
  remove_fence fence (String c r) = String c (remove_fence fence r).
Proof. intros H. unfold remove_fence. cbn [remove_fence_from]. rewrite H. reflexivity. Qed.

Lemma remove_fence_match (fence : string) (c : ascii) (r : string) :
  startsWith fence (String c r) = true ->
  exists k, remove_fence fence (String c r) = remove_fence fence (drop k r).
Proof.
  intros H. unfold remove_fence at 1. cbn [remove_fence_from]. rewrite H.
  eexists. apply remove_fence_from_drop.
Qed.

Lemma drop_length (k : nat) (s : string) : (String.length (drop k s) <= String.length s)%nat.
Proof.
  revert s. induction k as [|k IH]; intros [|c r]; simpl; try lia.
  specialize (IH r). lia.
Qed.

Lemma fence_head (x : string) :
  startsWith "`" (remove_fence "```" x) = true -> startsWith "`" x = true.
Proof.
  destruct x as [|c r]; [discriminate|].
  destruct (startsWith "```" (String c r)) eqn:E.
  - intros _. cbn [startsWith] in *. apply andb_prop in E. destruct E as [E _].
    rewrite E. reflexivity.
  - rewrite (remove_fence_keep _ _ _ E). cbn [startsWith]. auto.
Qed.

Lemma fence_head2 (x : string) :
  startsWith "``" (remove_fence "```" x) = true -> startsWith "``" x = true.
Proof.
  destruct x as [|c r]; [discriminate|].
  destruct (startsWith "```" (String c r)) eqn:E.
  - intros _. cbn [startsWith] in *.
    apply andb_prop in E. destruct E as [E1 E].
    destruct r as [|c2 r2]; [discriminate|].
    apply andb_prop in E. destruct E as [E2 _].
    rewrite E1, E2. reflexivity.
  - rewrite (remove_fence_keep _ _ _ E). intros H.
    cbn [startsWith] in H. apply andb_prop in H. destruct H as [H1 H2].
    pose proof (fence_head r) as Hh. cbn [startsWith]. rewrite H1.
    destruct (remove_fence "```" r) as [|a y] eqn:Er; [discriminate|].
    apply andb_prop in H2. destruct H2 as [H2 _].
    assert (Hr : startsWith "`" r = true).
    { apply Hh. cbn [startsWith]. rewrite H2. reflexivity. }
    destruct r as [|c2 r2]; [discriminate|].
    cbn [startsWith] in Hr. apply andb_prop in Hr. destruct Hr as [Hr _].
    rewrite Hr. reflexivity.
Qed.

Lemma remove_fence_clean :
  forall n s, (String.length s <= n)%nat -> includes "```" (remove_fence "```" s) = false.
Proof.
  induction n as [|n IH]; intros [|c r] Hlen; try reflexivity; [simpl in Hlen; lia|].
  simpl in Hlen.
  destruct (startsWith "```" (String c r)) eqn:E.
  - destruct (remove_fence_match _ _ _ E) as (k & ->).
    apply IH. pose proof (drop_length k r). lia.
  - rewrite (remove_fence_keep _ _ _ E). cbn [includes].
    rewrite (IH r ltac:(lia)), orb_false_r.
    destruct (startsWith "```" (String c (remove_fence "```" r))) eqn:E'; [|reflexivity].
    exfalso. cbn [startsWith] in E, E'.
    apply andb_prop in E'. destruct E' as [E1 E2].
    assert (H2 : startsWith "``" r = true).
    { apply fence_head2. cbn [startsWith].
      destruct (remove_fence "```" r) as [|a y]; [discriminate|]. exact E2. }
    rewrite E1 in E. cbn [startsWith] in H2.
    destruct r as [|a y]; [discriminate|]. rewrite H2 in E. discriminate.
Qed.

Lemma startsWith_app (p a b : string) :
  startsWith p a = true -> startsWith p (a ++ b) = true.
Proof.
  revert a. induction p as [|x p IH]; intros [|c a] H; try reflexivity; [discriminate|].
  cbn [append startsWith] in *. apply andb_prop in H. destruct H as [H1 H2].
  rewrite H1, (IH a H2). reflexivity.
Qed.

Lemma includes_app (p a b : string) : includes p a = true -> includes p (a ++ b) = true.
Proof.
  induction a as [|c a IH]; intros H.
  - cbn [includes] in H. rewrite orb_false_r in H.
    destruct p; [|discriminate]. destruct b; reflexivity.
  - cbn [append includes] in *. apply orb_prop in H. destruct H as [H|H].
    + pose proof (startsWith_app p (String c a) b H) as H'. cbn [append] in H'.
      rewrite H'. reflexivity.
    + rewrite (IH H). apply orb_true_r.
Qed.

Lemma includes_trimStart (p s : string) :
  includes p (trimStart s) = true -> includes p s = true.
Proof.
  induction s as [|c r IH]; [auto|]. cbn [trimStart].
  destruct (is_space c); [|auto]. intros H. cbn [includes]. rewrite (IH H).
  apply orb_true_r.
Qed.

Lemma trimEnd_prefix (s : string) : exists w, s = trimEnd s ++ w /\ all_space w = true.
Proof.
  induction s as [|c r (w & Hr & Hw)]; [exists EmptyString; split; reflexivity|].
  cbn [trimEnd]. destruct (trimEnd r) as [|a y] eqn:E.
  - destruct (is_space c) eqn:Hc.
    + exists (String c r). split; [reflexivity|]. cbn [all_space]. rewrite Hc.
      simpl in Hr. subst w. exact Hw.
    + exists r. split; [reflexivity|]. simpl in Hr. subst w. exact Hw.
  - exists w. cbn [append] in *. rewrite <- Hr. split; [reflexivity|exact Hw].
Qed.

(** X11: the text handed to [JSON.parse] never contains a code fence,
    whatever the planner replied. *)
Theorem no_fence_reaches_the_parser (reply : string) :
  includes "```" (strip_fences reply) = false.
Proof.
  unfold strip_fences, trim.
  set (stripped := remove_fence "```" (remove_fence "```json" reply)).
  destruct (includes "```" (trimEnd (trimStart stripped))) eqn:E; [|reflexivity].
  destruct (trimEnd_prefix (trimStart stripped)) as (w & Hw & _).
  pose proof (includes_app "```" _ w E) as H. rewrite <- Hw in H.
  apply includes_trimStart in H.
  unfold stripped in H.
  rewrite (remove_fence_clean _ _ (Nat.le_refl _)) in H. discriminate.
Qed.

Lemma all_space_trimStart (w : string) : all_space w = true -> trimStart w = EmptyString.
Proof.
  induction w as [|c w IH]; [reflexivity|]. cbn [all_space trimStart].
  intros H. apply andb_prop in H. destruct H as [Hc Hw]. rewrite Hc. exact (IH Hw).
Qed.

Lemma all_space_trimEnd (w : string) : all_space w = true -> trimEnd w = EmptyString.
Proof.
  induction w as [|c w IH]; [reflexivity|]. cbn [all_space trimEnd].
  intros H. apply andb_prop in H. destruct H as [Hc Hw]. rewrite (IH Hw), Hc. reflexivity.
Qed.

Lemma trimEnd_app_space (s w : string) : all_space w = true -> trimEnd (s ++ w) = trimEnd s.
Proof.
  intros Hw. induction s as [|c s IH]; [exact (all_space_trimEnd w Hw)|].
  cbn [append trimEnd]. rewrite IH. reflexivity.
Qed.

Lemma trim_app_space (s w : string) : all_space w = true -> trim (s ++ w) = trim s.
Proof.
  intros Hw. unfold trim. induction s as [|c s IH].
  - cbn [append]. rewrite (all_space_trimStart w Hw). reflexivity.
  - cbn [append trimStart]. destruct (is_space c); [exact IH|].
    apply (trimEnd_app_space (String c s) w Hw).
Qed.

Lemma backtick_head (fence : string) (c : ascii) (x : string) :
  startsWith "`" fence = true -> Ascii.eqb c "`" = false ->
  startsWith fence (String c x) = false.
Proof.
  destruct fence as [|a f]; [discriminate|]. cbn [startsWith].
  intros H Hc. apply andb_prop in H. destruct H as [H _].
  apply Ascii.eqb_eq in H. subst a. rewrite Ascii.eqb_sym, Hc. reflexivity.
Qed.

Lemma remove_fence_plain (fence t rest : string) :
  startsWith "`" fence = true -> no_backtick t = true ->
  remove_fence fence (t ++ rest) = t ++ remove_fence fence rest.
Proof.
  intros Hf. unfold no_backtick. induction t as [|c t IH]; [reflexivity|].
  cbn [list_ascii_of_string forallb append]. intros H.
  apply andb_prop in H. destruct H as [Hc Ht]. apply negb_true_iff in Hc.
  rewrite (remove_fence_keep fence c (t ++ rest) (backtick_head fence c _ Hf Hc)).
  rewrite (IH Ht). reflexivity.
Qed.

(** X12: a reply without backticks of its own is recovered from its
    fenced forms: with a [json] fence, with a bare fence, or with no fence
    at all, what reaches [JSON.parse] is the trimmed reply. *)
Theorem fenced_reply_is_unwrapped (t : string) :
  no_backtick t = true ->
  strip_fences ("```json" ++ nl ++ t ++ nl ++ "```") = trim t /\
  strip_fences ("```" ++ nl ++ t ++ nl ++ "```") = trim t /\
  strip_fences t = trim t.
Proof.
  intros Ht.
  assert (Hjson : forall rest, remove_fence "```json" (t ++ rest)
                               = t ++ remove_fence "```json" rest).
  { intros rest. apply remove_fence_plain; [reflexivity|exact Ht]. }
  assert (Hbare : forall rest, remove_fence "```" (t ++ rest)
                               = t ++ remove_fence "```" rest).
  { intros rest. apply remove_fence_plain; [reflexivity|exact Ht]. }
  assert (Hend : strip_fences (t ++ nl ++ "```") = trim t).
  { unfold strip_fences. rewrite Hjson.
    change (remove_fence "```json" (nl ++ "```")) with (nl ++ "```").
    rewrite Hbare. change (remove_fence "```" (nl ++ "```")) with nl.
    apply trim_app_space. reflexivity. }
  split; [|split].
  - rewrite <- Hend. reflexivity.
  - rewrite <- Hend. reflexivity.
  - rewrite <- (app_empty_r t) at 1. unfold strip_fences.
    rewrite Hjson. change (remove_fence "```json" EmptyString) with EmptyString.
    rewrite Hbare. change (remove_fence "```" EmptyString) with EmptyString.
    rewrite app_empty_r. reflexivity.
Qed.

(** X12 at the serialisation of a plan of two steps. *)
Lemma fenced_reply_is_unwrapped_witness :
  strip_fences ("```json" ++ nl ++ Inputs.plan_two_text ++ nl ++ "```")
  = trim Inputs.plan_two_text /\
  strip_fences ("```" ++ nl ++ Inputs.plan_two_text ++ nl ++ "```")
  = trim Inputs.plan_two_text /\
  strip_fences Inputs.plan_two_text = trim Inputs.plan_two_text.
Proof.
  apply (fenced_reply_is_unwrapped Inputs.plan_two_text). vm_compute. reflexivity.
Defined.

(** ** The tool catalog *)

Lemma in_catalog_map_set (k : string) (v : ToolInfo) (m : list (string * ToolInfo))
  (n : string) :
  in_catalog (map_set k v m) n = in_catalog m n || String.eqb k n.
Proof.
  unfold in_catalog. induction m as [|[k' v'] m IH]; [simpl; apply orb_false_r|].
  cbn [map_set]. destruct (String.eqb k k') eqn:E.
  - apply String.eqb_eq in E. subst k'. clear IH. cbn [existsb fst].
    destruct (String.eqb k n); cbn [orb]; [reflexivity|].
    rewrite orb_false_r. reflexivity.
  - cbn [existsb fst]. rewrite IH, orb_assoc. reflexivity.
Qed.

Lemma map_set_keys (k : string) (v : ToolInfo) (m : list (string * ToolInfo)) :
  map fst (map_set k v m)
  = if in_catalog m k then map fst m else (map fst m ++ [k])%list.
Proof.
  unfold in_catalog. induction m as [|[k' v'] m IH]; [reflexivity|].
  cbn [map_set existsb fst]. rewrite (String.eqb_sym k' k).
  destruct (String.eqb k k') eqn:E.
  - apply String.eqb_eq in E. subst k'. reflexivity.
  - cbn [map fst orb]. rewrite IH. destruct (existsb _ m); reflexivity.
Qed.

Lemma in_catalog_keys (m : list (string * ToolInfo)) (n : string) :
  in_catalog m n = true <-> In n (map fst m).
Proof.
  unfold in_catalog. rewrite existsb_exists. split.
  - intros ([k v] & Hin & E). apply String.eqb_eq in E. simpl in E. subst k.
    apply (in_map fst) in Hin. exact Hin.
  - intros H. apply in_map_iff in H. destruct H as ([k v] & <- & Hin).
    exists (k, v). split; [exact Hin|apply String.eqb_refl].
Qed.

Lemma map_set_NoDup (k : string) (v : ToolInfo) (m : list (string * ToolInfo)) :
  NoDup (map fst m) -> NoDup (map fst (map_set k v m)).
Proof.
  intros H. rewrite map_set_keys. destruct (in_catalog m k) eqn:E; [exact H|].
  apply NoDup_app; [exact H|constructor; [intros []|constructor]|].
  intros x Hx [<-|[]]. apply in_catalog_keys in Hx. congruence.
Qed.

Lemma map_set_new (k : string) (v : ToolInfo) (m : list (string * ToolInfo)) :
  in_catalog m k = false -> map_set k v m = (m ++ [(k, v)])%list.
Proof.
  unfold in_catalog. induction m as [|[k' v'] m IH]; [reflexivity|].
  cbn [existsb fst map_set]. rewrite (String.eqb_sym k' k). intros H.
  apply orb_false_elim in H. destruct H as [H1 H2].
  rewrite H1, (IH H2). reflexivity.
Qed.

Lemma map_set_in (k : string) (v : ToolInfo) (m : list (string * ToolInfo)) :
  In (k, v) (map_set k v m).
Proof.
  induction m as [|[k' v'] m IH]; [left; reflexivity|].
  cbn [map_set]. destruct (String.eqb k k'); [left; reflexivity|right; exact IH].
Qed.

Lemma map_set_other (k : string) (v : ToolInfo) (m : list (string * ToolInfo))
  (k' : string) (v' : ToolInfo) :
  k' <> k -> In (k', v') m -> In (k', v') (map_set k v m).
Proof.
  intros Hk. induction m as [|[k2 v2] m IH]; [intros []|].
  cbn [map_set]. intros [H|H].
  - injection H as -> ->. destruct (String.eqb k k') eqn:E.
    + apply String.eqb_eq in E. congruence.
    + left. reflexivity.
  - destruct (String.eqb k k2); right; auto.
Qed.

Section Catalog.

Variable World : Type.

Lemma discover_catalog (listed : list ToolInfo) :
  forall r : Runner World,
    mcpTools (discover listed r)
    = fold_left (fun m t => map_set (name t) t m) listed (mcpTools r).
Proof. reflexivity. Qed.

(** X13: tool discovery keeps one catalog entry per tool name.  A name is
    in the catalog afterwards when it was there before or was listed; the
    entry of a listed name holds what its last listing said; and from the
    empty catalog a listing of distinct names is stored in the order
    listed. *)
Theorem discovery_builds_catalog (listed : list ToolInfo) (r : Runner World) :
  NoDup (map fst (mcpTools r)) ->
  let tools := mcpTools (discover listed r) in
  NoDup (map fst tools) /\
  (forall n, in_catalog tools n = true
             <-> in_catalog (mcpTools r) n = true \/ In n (map name listed)) /\
  (forall before t after,
      listed = (before ++ t :: after)%list -> ~ In (name t) (map name after) ->
      In (name t, t) tools) /\
  (mcpTools r = [] -> NoDup (map name listed) ->
   tools = map (fun t => (name t, t)) listed).
Proof.
  cbv zeta. rewrite discover_catalog. generalize (mcpTools r) as m. clear r.
  induction listed as [|t listed IH]; intros m Hm.
  - cbn [fold_left map]. split; [exact Hm|]. split; [|split].
    + intros n. split; [auto|intros [H|[]]; exact H].
    + intros [|x before] t after H; discriminate.
    + intros -> _. reflexivity.
  - cbn [fold_left].
    destruct (IH (map_set (name t) t m) (map_set_NoDup _ _ _ Hm))
      as (Hnd & Hin & Hlast & Hord).
    split; [exact Hnd|]. split; [|split].
    + intros n. rewrite Hin, in_catalog_map_set. cbn [map In].
      rewrite orb_true_iff, String.eqb_eq. tauto.
    + intros before t0 after Heq Hnot.
      destruct before as [|x before]; cbn [app] in Heq; injection Heq as -> ->.
      * clear - Hnot. revert m.
        assert (Hgen : forall m', In (name t0, t0) m' ->
                  In (name t0, t0)
                     (fold_left (fun m t => map_set (name t) t m) after m')).
        { induction after as [|a after IHa]; intros m' Hin; [exact Hin|].
          cbn [fold_left]. apply IHa.
          - intros H. apply Hnot. right. exact H.
          - apply map_set_other; [|exact Hin].
            intros E. apply Hnot. left. symmetry. exact E. }
        intros m. apply Hgen. apply map_set_in.
      * apply (Hlast before t0 after eq_refl Hnot).
    + intros -> Hdist. cbn [map_set map]. inversion Hdist as [|n l Hn Hl]; subst.
      clear - Hn Hl.
      assert (Hgen : forall pre : list ToolInfo,
                 NoDup (map name (pre ++ listed)) ->
                 fold_left (fun m t => map_set (name t) t m) listed
                           (map (fun t => (name t, t)) pre)
                 = map (fun t => (name t, t)) (pre ++ listed)).
      { clear. induction listed as [|a listed IHl]; intros pre Hd.
        - rewrite app_nil_r. reflexivity.
        - cbn [fold_left]. rewrite map_set_new.
          + change (map (fun t => (name t, t)) pre ++ [(name a, a)])%list
              with (map (fun t => (name t, t)) pre
                    ++ map (fun t => (name t, t)) [a])%list.
            rewrite <- map_app.
            replace (pre ++ a :: listed)%list with ((pre ++ [a]) ++ listed)%list
              by (rewrite <- app_assoc; reflexivity).
            apply IHl. rewrite <- app_assoc. exact Hd.
          + destruct (in_catalog (map (fun t => (name t, t)) pre) (name a)) eqn:E;
              [|reflexivity].
            exfalso. apply in_catalog_keys in E. rewrite map_map in E. cbn [fst] in E.
            rewrite map_app in Hd. apply NoDup_remove_2 in Hd. apply Hd.
            apply in_or_app. left. exact E. }
      apply (Hgen [t]). cbn [app map]. constructor; assumption.
Qed.

Lemma strip_mcp_prefixed (n : string) : strip_mcp ("mcp_" ++ n) = n.
Proof. reflexivity. Qed.

(** The functions advertised to a language model stand one to one for the
    catalog, in catalog order; removing the prefix, as [runTest] does with
    the tool of a step, gives back the name of the tool each function stands
    for, and the advertised parameters are always a schema. *)
Lemma advertised_functions (r : Runner World) :
  map (fun f => strip_mcp (f_name f)) (generateMCPTools r)
  = map (fun entry => name (snd entry)) (mcpTools r) /\
  Forall (fun f => truthy (f_parameters f) = true) (generateMCPTools r).
Proof.
  unfold generateMCPTools. split.
  - rewrite !map_map. apply map_ext. intros [k tool]. reflexivity.
  - apply Forall_forall. intros f Hin. apply in_map_iff in Hin.
    destruct Hin as (tool & <- & _). unfold function_of. cbn [f_parameters].
    destruct (inputSchema tool) as [schema|]; [|reflexivity].
    destruct (truthy schema) eqn:E; [exact E|reflexivity].
Qed.

End Catalog.

(** X13 at the listing of two tools into the empty catalog. *)
Lemma discovery_builds_catalog_witness :
  let listed := map snd [Demo.tool "browser_navigate"; Demo.tool "browser_click"] in
  let tools := Inputs.catalog in
  NoDup (map fst tools) /\
  (forall n, in_catalog tools n = true
             <-> in_catalog [] n = true \/ In n (map name listed)) /\
  (forall before t after,
      listed = (before ++ t :: after)%list -> ~ In (name t) (map name after) ->
      In (name t, t) tools) /\
  (@nil (string * ToolInfo) = [] -> NoDup (map name listed) ->
   tools = map (fun t => (name t, t)) listed).
Proof.
  apply (discovery_builds_catalog nat
           (map snd [Demo.tool "browser_navigate"; Demo.tool "browser_click"])
           (new_runner [] 0%nat)).
  constructor.
Defined.

Section AdvertisedSteps.

Variable World : Type.
Variable now : World -> Z.
Variable callTool : World -> string -> JsValue -> CallOutcome * World.
Variable ToNumber : JsValue -> option Z.
Variable writeReport : World -> Report.t -> option string.

(** X14: a step that names a function as [generateMCPTools] advertises it
    calls the catalog tool the function stands for, under the tool's own
    name; the record of the step keeps the advertised name and puts the
    prefix before it once more. *)
Theorem advertised_step_calls_tool testSteps i step (r : Runner World)
  (f : FunctionTool) (arguments : JsValue) :
  In f (generateMCPTools r) ->
  executable ToNumber testSteps i step = true ->
  prop step "tool" = Some (JStr (f_name f)) ->
  prop step "params" = Some arguments ->
  exists tool rec r',
    In (name tool) (map (fun entry => name (snd entry)) (mcpTools r)) /\
    f = function_of tool /\
    run_step now callTool ToNumber testSteps i step r = (Normal tt, r') /\
    calls r' = (calls r ++ [(name tool, arguments)])%list /\
    Results.actions (testResults r') = (Results.actions (testResults r) ++ [rec])%list /\
    Action.tool rec = "mcp_mcp_" ++ name tool.
Proof.
  intros Hf Hex Htool Hparams.
  unfold generateMCPTools in Hf. apply in_map_iff in Hf.
  destruct Hf as (tool & <- & Hin).
  destruct (run_step_effect World now callTool ToNumber testSteps i step r Hex)
    as (r' & Hrun & Hc & Ha & _).
  exists tool, (record_of now callTool (world r) step), r'.
  split.
  { apply in_map_iff in Hin. destruct Hin as (entry & <- & Hin).
    apply in_map_iff. exists entry. split; [reflexivity|exact Hin]. }
  split; [reflexivity|]. split; [exact Hrun|].
  split.
  { rewrite Hc. unfold step_calls, step_toolName. rewrite Hparams, Htool. reflexivity. }
  split; [exact Ha|].
  destruct (record_of_step World now callTool (world r) step) as [Hlabel _].
  rewrite Hlabel, Htool. reflexivity.
Qed.

End AdvertisedSteps.

(** X14 at a step that names [mcp_browser_click]. *)
Lemma advertised_step_calls_tool_witness :
  let r := new_runner Inputs.catalog 0%nat in
  exists tool rec r',
    In (name tool) (map (fun entry => name (snd entry)) (mcpTools r)) /\
    function_of (snd (Demo.tool "browser_click")) = function_of tool /\
    run_step Demo.now (Demo.callTool Inputs.always_ok) Demo.ToNumber
      Inputs.one_line 0 Cases.prefixed_step r = (Normal tt, r') /\
    calls r' = (calls r ++ [(name tool, JObj [])])%list /\
    Results.actions (testResults r') = (Results.actions (testResults r) ++ [rec])%list /\
    Action.tool rec = "mcp_mcp_" ++ name tool.
Proof.
  apply (advertised_step_calls_tool Demo.World Demo.now
           (Demo.callTool Inputs.always_ok) Demo.ToNumber
           Inputs.one_line 0%nat Cases.prefixed_step (new_runner Inputs.catalog 0%nat)
           (function_of (snd (Demo.tool "browser_click"))) (JObj [])).
  - right. left. reflexivity.
  - reflexivity.
  - reflexivity.
  - reflexivity.
Defined.

(** ** The test files of a path *)

Lemma sort_insert_perm (x : string) (l : list string) : Permutation (x :: l) (sort_insert x l).
Proof.
  induction l as [|y l IH]; [apply Permutation_refl|].
  cbn [sort_insert]. destruct (String.leb x y); [apply Permutation_refl|].
  eapply perm_trans; [apply perm_swap|]. apply perm_skip. exact IH.
Qed.

Lemma sort_perm (l : list string) : Permutation (sort l) l.
Proof.
  induction l as [|x l IH]; [apply perm_nil|].
  cbn [sort fold_right]. apply Permutation_sym.
  eapply perm_trans; [|apply sort_insert_perm].
  apply perm_skip. apply Permutation_sym. exact IH.
Qed.

Lemma sort_insert_sorted (x : string) (l : list string) :
  Sorted (fun a b => String.leb a b = true) l ->
  Sorted (fun a b => String.leb a b = true) (sort_insert x l).
Proof.
  induction 1 as [|y l Hs IH Hd]; [repeat constructor|].
  cbn [sort_insert]. destruct (String.leb x y) eqn:E.
  - constructor; [constructor; assumption|constructor; exact E].
  - constructor; [exact IH|].
    destruct (String.leb_total x y) as [H|H]; [congruence|].
    destruct Hd as [|z l Hyz]; cbn [sort_insert]; [constructor; exact H|].
    destruct (String.leb x z); constructor; assumption.
Qed.

Lemma sort_sorted (l : list string) : Sorted (fun a b => String.leb a b = true) (sort l).
Proof.
  induction l as [|x l IH]; [constructor|]. apply sort_insert_sorted. exact IH.
Qed.

Section TestFilesFacts.

Variable existsSync : string -> bool.
Variable statSync : string -> string + Kind.
Variable readdirSync : string -> string + list string.
Variable path_join : string -> string -> string.
Variable path_resolve : string -> string.

Lemma scan_keeps (dirPath : string) (files : list string) :
  (forall entry, In entry files -> exists k, statSync (path_join dirPath entry) = inr k) ->
  scan statSync path_join path_resolve dirPath files
  = Normal (map (fun entry => path_resolve (path_join dirPath entry))
                (filter (direct_test statSync path_join dirPath) files)).
Proof.
  induction files as [|file rest IH]; intros Hstat; [reflexivity|].
  cbn [scan filter]. unfold direct_test at 1.
  destruct (Hstat file (or_introl eq_refl)) as (k & Hk). rewrite Hk.
  rewrite IH by (intros entry Hin; apply Hstat; right; exact Hin).
  destruct (isFile k && is_test_name file); reflexivity.
Qed.

(** X15: for a directory all of whose entries can be examined,
    [getTestFiles] returns, in ascending order, the resolved paths of the
    entries of that directory itself that are files and are named [.yml] or
    [.yaml]; nothing below a sub-directory is returned. *)
Theorem getTestFiles_of_directory (dirPath : string) (entries : list string) :
  existsSync dirPath = true ->
  statSync dirPath = inr IsDirectory ->
  readdirSync dirPath = inr entries ->
  (forall entry, In entry entries ->
                 exists k, statSync (path_join dirPath entry) = inr k) ->
  exists testFiles,
    getTestFiles existsSync statSync readdirSync path_join path_resolve dirPath
    = Normal testFiles /\
    Sorted (fun a b => String.leb a b = true) testFiles /\
    Permutation testFiles
      (map (fun entry => path_resolve (path_join dirPath entry))
           (filter (direct_test statSync path_join dirPath) entries)).
Proof.
  intros Hex Hstat Hdir Hentries.
  unfold getTestFiles. rewrite Hex, Hstat, Hdir. cbn [negb isFile isDirectory].
  rewrite (scan_keeps dirPath entries Hentries).
  eexists. split; [reflexivity|]. split; [apply sort_sorted|apply sort_perm].
Qed.

End TestFilesFacts.

(** X15 at a directory with two test files, a text file and a
    sub-directory whose name ends in [.yml]. *)
Lemma getTestFiles_of_directory_witness :
  exists testFiles,
    getTestFiles Suite.existsSync Suite.statSync Suite.readdirSync
      Suite.path_join Suite.path_resolve "tests"
    = Normal testFiles /\
    Sorted (fun a b => String.leb a b = true) testFiles /\
    Permutation testFiles
      (map (fun entry => Suite.path_resolve (Suite.path_join "tests" entry))
           (filter (direct_test Suite.statSync Suite.path_join "tests")
                   ["nested.yml"; "b.yml"; "notes.txt"; "a.yaml"])).
Proof.
  apply (getTestFiles_of_directory Suite.existsSync Suite.statSync Suite.readdirSync
           Suite.path_join Suite.path_resolve "tests"
           ["nested.yml"; "b.yml"; "notes.txt"; "a.yaml"]).
  - reflexivity.
  - reflexivity.
  - reflexivity.
  - intros entry [<-|[<-|[<-|[<-|[]]]]]; eexists; reflexivity.
Defined.

(** The files found in that directory. *)
Example suite_files :
  getTestFiles Suite.existsSync Suite.statSync Suite.readdirSync
    Suite.path_join Suite.path_resolve "tests"
  = Normal ["/work/tests/a.yaml"; "/work/tests/b.yml"].
Proof. reflexivity. Qed.

(** ** The batch driver *)

Section BatchFacts.

Variable World : Type.
Variable now : World -> Z.
Variable callTool : World -> string -> JsValue -> CallOutcome * World.
Variable generateText : World -> PlanningPrompt -> (string + string) * World.
Variable JSON_parse : string -> string + JsValue.
Variable ToNumber : JsValue -> option Z.
Variable writeReport : World -> Report.t -> option string.
Variable existsSync : string -> bool.
Variable statSync : string -> string + Kind.
Variable readdirSync : string -> string + list string.
Variable path_join : string -> string -> string.
Variable path_resolve : string -> string.
Variable mkdirSync : World -> option string * World.
Variable connect : World -> option string * World.
Variable listTools : World -> (string + list ToolInfo) * World.
Variable close : World -> option string * World.
Variable readFileSync : World -> string -> (string + string) * World.

Local Abbreviation attempt' :=
  (attempt now callTool generateText JSON_parse ToNumber writeReport
     mkdirSync connect listTools readFileSync).
Local Abbreviation run_file' :=
  (run_file now callTool generateText JSON_parse ToNumber writeReport
     mkdirSync connect listTools close readFileSync).
Local Abbreviation run_files' :=
  (run_files now callTool generateText JSON_parse ToNumber writeReport
     mkdirSync connect listTools close readFileSync).
Local Abbreviation main' :=
  (main now callTool generateText JSON_parse ToNumber writeReport
     existsSync statSync readdirSync path_join path_resolve
     mkdirSync connect listTools close readFileSync).

Lemma runTest_normal_no_failure testText testName (r : Runner World) (t : Results.t) :
  fst (runTest now callTool generateText JSON_parse ToNumber writeReport testText testName r)
  = Normal t ->
  Results.failed t = 0%nat.
Proof.
  intros Hout.
  destruct (runTest_outcomes World now callTool generateText JSON_parse ToNumber writeReport
              testText testName r)
    as [(e & _ & He & _)
       |(plan & executed & rest & recs & _ & _ & _ & _ &
         [(e & step & rest' & He & _)|(_ & rep & _ & _ & _ & _ & _ & _ & _ & Ho)])];
    try (rewrite He in Hout; discriminate).
  rewrite Ho in Hout.
  destruct (writeReport _ rep); [discriminate|].
  destruct (Nat.ltb_spec 0 (Results.failed
              (testResults (snd (runTest now callTool generateText JSON_parse ToNumber writeReport
                                   testText testName r)))));
    [discriminate|].
  injection Hout as <-. lia.
Qed.

Lemma attempt_normal_no_failure testFile testName (r : Runner World) (t : Results.t) :
  fst (fst (attempt' testFile testName r)) = Normal t -> Results.failed t = 0%nat.
Proof.
  unfold attempt.
  destruct (initializeMCP mkdirSync connect listTools r) as [[[u|e] r1] client];
    [|discriminate].
  destruct (readFileSync (world r1) testFile) as [[reason|testText] w]; [discriminate|].
  pose proof (runTest_normal_no_failure testText testName (set_world w r1) t) as H.
  destruct (runTest now callTool generateText JSON_parse ToNumber writeReport testText testName
              (set_world w r1)) as [c r2].
  exact H.
Qed.

Lemma count_entries_app (st : string) (l1 l2 : list Summary) :
  count_entries st (l1 ++ l2) = (count_entries st l1 + count_entries st l2)%nat.
Proof. unfold count_entries. rewrite filter_app, List.length_app. reflexivity. Qed.

Lemma tally_tallied (testName : string) (c : Completion Results.t) (t : Totals) :
  (forall result, c = Normal result -> Results.failed result = 0%nat) ->
  tallied t ->
  tallied (tally testName c t) /\
  map s_testName (allResults (tally testName c t))
  = (map s_testName (allResults t) ++ [testName])%list.
Proof.
  intros Hc (Hp & Hf & Hall). destruct c as [result|err]; cbn [tally].
  - split; [|cbn [allResults]; rewrite map_app; reflexivity].
    unfold tallied. cbn [allResults totalPassed totalFailed].
    rewrite !count_entries_app, Hp, Hf. cbn. split; [lia|]. split; [lia|].
    apply Forall_app. split; [exact Hall|]. constructor; [|constructor].
    left. unfold passed_entry. cbn. rewrite (Hc result eq_refl).
    repeat split. eexists. reflexivity.
  - split; [|cbn [allResults]; rewrite map_app; reflexivity].
    unfold tallied. cbn [allResults totalPassed totalFailed].
    rewrite !count_entries_app, Hp, Hf. cbn. split; [lia|]. split; [lia|].
    apply Forall_app. split; [exact Hall|]. constructor; [|constructor].
    right. unfold failed_entry. cbn. repeat split. eexists. reflexivity.
Qed.

Lemma run_file_cases provider apiKey testFile (t : Totals) (w : World) :
  tallied t ->
  (exists e, createLLM (Some provider) apiKey = Throw e /\
             run_file' provider apiKey testFile t w = (Some e, t, w))
  \/
  (exists llm, createLLM (Some provider) apiKey = Normal llm) /\
  tallied (snd (fst (run_file' provider apiKey testFile t w))) /\
  map s_testName (allResults (snd (fst (run_file' provider apiKey testFile t w))))
  = (map s_testName (allResults t) ++ [Path.basename testFile])%list.
Proof.
  intros Ht. unfold run_file.
  destruct (createLLM (Some provider) apiKey) as [llm|e].
  2:{ left. exists e. split; reflexivity. }
  right. split; [exists llm; reflexivity|].
  pose proof (attempt_normal_no_failure testFile (Path.basename testFile)
                (new_runner [] w)) as Hno.
  destruct (attempt' testFile (Path.basename testFile) (new_runner [] w))
    as [[c r] client].
  cbn [fst] in Hno.
  destruct (tally_tallied (Path.basename testFile) c t) as [H1 H2]; [|exact Ht|].
  { intros result ->. apply Hno. reflexivity. }
  destruct client; [destruct (close (world r)) as [[reason|] w']|];
    cbn [fst snd]; split; assumption.
Qed.

Lemma run_files_cases provider apiKey (testFiles : list string) :
  forall (t : Totals) (w : World),
    tallied t ->
    let out := run_files' provider apiKey testFiles t w in
    tallied (snd (fst out)) /\
    exists done rest,
      testFiles = (done ++ rest)%list /\
      map s_testName (allResults (snd (fst out)))
      = (map s_testName (allResults t) ++ map Path.basename done)%list /\
      (fst (fst out) = None -> rest = [] /\
         (testFiles <> [] -> exists llm, createLLM (Some provider) apiKey = Normal llm)).
Proof.
  induction testFiles as [|testFile files IH]; intros t w Ht; cbv zeta.
  - cbn [run_files fst snd]. split; [exact Ht|]. exists [], [].
    split; [reflexivity|]. split; [cbn [map]; rewrite app_nil_r; reflexivity|].
    intros _. split; [reflexivity|]. intros H. congruence.
  - cbn [run_files].
    destruct (run_file_cases provider apiKey testFile t w Ht)
      as [(e & Hllm & ->)|(Hllm & Ht1 & Hn1)].
    + cbn [fst snd]. split; [exact Ht|]. exists [], (testFile :: files).
      split; [reflexivity|]. split; [cbn [map]; rewrite app_nil_r; reflexivity|].
      discriminate.
    + destruct (run_file' provider apiKey testFile t w) as [[[e|] t1] w1];
        cbn [fst snd] in Ht1, Hn1.
      * cbn [fst snd]. split; [exact Ht1|]. exists [testFile], files.
        split; [reflexivity|]. split; [exact Hn1|]. discriminate.
      * destruct (IH t1 w1 Ht1) as (Ht2 & done & rest & Hfiles & Hnames & Hend).
        split; [exact Ht2|]. exists (testFile :: done), rest.
        split; [rewrite Hfiles; reflexivity|].
        split.
        { rewrite Hnames, Hn1. cbn [map]. rewrite <- app_assoc. reflexivity. }
        intros Hnone. destruct (Hend Hnone) as [Hrest _].
        split; [exact Hrest|]. intros _. exact Hllm.
Qed.

Lemma tallied_no_results : tallied no_results.
Proof. repeat split. constructor. Qed.

(** X16: whatever happens to the tests, the summary [main] keeps is
    consistent: the two totals count the passed and the failed entries, so
    they add up to the number of entries; every entry is a pass with no
    failed step or a failure with its error message; the entries stand for
    the first test files, in order, under their base names, and for all of
    them unless an error escaped the loop. *)
Theorem summary_is_consistent (env : Env) (w : World) :
  let ending := fst (fst (main' env w)) in
  let t := snd (fst (main' env w)) in
  totalPassed t = count_entries "PASSED" (allResults t) /\
  totalFailed t = count_entries "FAILED" (allResults t) /\
  (totalPassed t + totalFailed t = List.length (allResults t))%nat /\
  Forall (fun s => passed_entry s \/ failed_entry s) (allResults t) /\
  (allResults t = [] \/
   exists testPath testFiles done rest,
     argv2 env = Some testPath /\
     getTestFiles existsSync statSync readdirSync path_join path_resolve testPath
     = Normal testFiles /\
     testFiles = (done ++ rest)%list /\
     map s_testName (allResults t) = map Path.basename done /\
     ((forall e, ending <> Escaped e) -> rest = [])).
Proof.
  cbv zeta.
  assert (Hsum : forall t, tallied t ->
            totalPassed t = count_entries "PASSED" (allResults t) /\
            totalFailed t = count_entries "FAILED" (allResults t) /\
            (totalPassed t + totalFailed t = List.length (allResults t))%nat /\
            Forall (fun s => passed_entry s \/ failed_entry s) (allResults t)).
  { intros t (Hp & Hf & Hall). split; [exact Hp|]. split; [exact Hf|].
    split; [|exact Hall]. rewrite Hp, Hf. clear Hp Hf.
    induction Hall as [|s l [Hs|Hs] _ IH]; [reflexivity| |];
      destruct Hs as (Hst & _);
      change (s :: l) with ([s] ++ l)%list;
      rewrite !count_entries_app, List.length_app; unfold count_entries at 1 3;
      cbn [filter]; rewrite Hst; cbn; lia. }
  assert (Hempty : forall x : Ending * Totals * World,
            snd (fst x) = no_results ->
            totalPassed (snd (fst x)) = count_entries "PASSED" (allResults (snd (fst x))) /\
            totalFailed (snd (fst x)) = count_entries "FAILED" (allResults (snd (fst x))) /\
            (totalPassed (snd (fst x)) + totalFailed (snd (fst x))
             = List.length (allResults (snd (fst x))))%nat /\
            Forall (fun s => passed_entry s \/ failed_entry s) (allResults (snd (fst x))) /\
            (allResults (snd (fst x)) = [] \/
             exists testPath testFiles done rest,
               argv2 env = Some testPath /\
               getTestFiles existsSync statSync readdirSync path_join path_resolve testPath
               = Normal testFiles /\
               testFiles = (done ++ rest)%list /\
               map s_testName (allResults (snd (fst x))) = map Path.basename done /\
               ((forall e, fst (fst x) <> Escaped e) -> rest = []))).
  { intros x ->. destruct (Hsum no_results tallied_no_results) as (H1 & H2 & H3 & H4).
    repeat (split; [assumption|]). left. reflexivity. }
  unfold main.
  destruct (OPENAI_API_KEY env) as [[|k0 key]|]; try (apply Hempty; reflexivity).
  destruct (argv2 env) as [[|p0 testPath]|]; try (apply Hempty; reflexivity).
  destruct (getTestFiles existsSync statSync readdirSync path_join path_resolve
              (String p0 testPath)) as [[|f files]|e] eqn:Hfiles;
    try (apply Hempty; reflexivity).
  destruct (run_files_cases (config_provider env) (Some (String k0 key)) (f :: files)
              no_results w tallied_no_results)
    as (Ht & done & rest & Hsplit & Hnames & Hend).
  cbn [no_results allResults map app] in Hnames.
  destruct (run_files' (config_provider env) (Some (String k0 key)) (f :: files)
              no_results w) as [[[e|] t] w'] eqn:Hrun; cbn [fst snd] in *.
  - destruct (Hsum t Ht) as (H1 & H2 & H3 & H4).
    repeat (split; [assumption|]). right.
    exists (String p0 testPath), (f :: files), done, rest.
    split; [reflexivity|]. split; [exact Hfiles|]. split; [exact Hsplit|].
    split; [exact Hnames|]. intros Hne. exfalso. apply (Hne e). reflexivity.
  - destruct (Hend eq_refl) as [Hrest _].
    destruct (0 <? totalFailed t)%nat; cbn [fst snd];
      destruct (Hsum t Ht) as (H1 & H2 & H3 & H4);
      (repeat (split; [assumption|])); right;
      exists (String p0 testPath), (f :: files), done, rest;
      (split; [reflexivity|]); (split; [exact Hfiles|]); (split; [exact Hsplit|]);
      (split; [exact Hnames|]); intros _; exact Hrest.
Qed.

(** X17: [main] runs to its end, neither calling [process.exit] nor letting
    an error escape, only when the key and the path were given, the path
    held at least one test file, the provider was one of the two supported,
    and every test file has a [PASSED] entry with no failed step.  (How the
    process ends when it is interrupted is the business of the handlers the
    module installs, not of [main].) *)
Theorem main_returns_only_when_all_passed (env : Env) (w : World) :
  let ending := fst (fst (main' env w)) in
  let t := snd (fst (main' env w)) in
  ending = Returned ->
  exists key testPath testFiles,
    OPENAI_API_KEY env = Some key /\ key <> EmptyString /\
    argv2 env = Some testPath /\
    getTestFiles existsSync statSync readdirSync path_join path_resolve testPath
    = Normal testFiles /\
    testFiles <> [] /\
    (config_provider env = "openai" \/ config_provider env = "gemini") /\
    map s_testName (allResults t) = map Path.basename testFiles /\
    Forall passed_entry (allResults t) /\
    totalPassed t = List.length testFiles /\ totalFailed t = 0%nat.
Proof.
  cbv zeta. unfold main.
  destruct (OPENAI_API_KEY env) as [[|k0 key]|] eqn:Hkey; try discriminate.
  destruct (argv2 env) as [[|p0 testPath]|]; try discriminate.
  destruct (getTestFiles existsSync statSync readdirSync path_join path_resolve
              (String p0 testPath)) as [[|f files]|e] eqn:Hfiles; try discriminate.
  destruct (run_files_cases (config_provider env) (Some (String k0 key)) (f :: files)
              no_results w tallied_no_results)
    as ((Hp & Hf & Hall) & done & rest & Hsplit & Hnames & Hend).
  cbn [no_results allResults map app] in Hnames.
  destruct (run_files' (config_provider env) (Some (String k0 key)) (f :: files)
              no_results w) as [[[e|] t] w'] eqn:Hrun; cbn [fst snd] in *;
    [discriminate|].
  destruct (Hend eq_refl) as [-> Hllm].
  destruct (Nat.ltb_spec 0 (totalFailed t)) as [Hlt|Hge]; cbn [fst snd];
    [discriminate|]. intros _.
  exists (String k0 key), (String p0 testPath), (f :: files).
  rewrite app_nil_r in Hsplit. subst done.
  assert (Hzero : totalFailed t = 0%nat) by lia.
  assert (Hpassed : Forall passed_entry (allResults t)).
  { rewrite Hzero in Hf. clear - Hf Hall.
    induction Hall as [|s l [Hs|Hs] _ IH]; [constructor| |].
    - constructor; [exact Hs|]. apply IH.
      change (s :: l) with ([s] ++ l)%list in Hf.
      rewrite count_entries_app in Hf. lia.
    - exfalso. destruct Hs as (Hst & _).
      change (s :: l) with ([s] ++ l)%list in Hf.
      rewrite count_entries_app in Hf. unfold count_entries at 1 in Hf.
      cbn [filter] in Hf. rewrite Hst in Hf. cbn in Hf. lia. }
  split; [reflexivity|]. split; [discriminate|]. split; [reflexivity|].
  split; [exact Hfiles|]. split; [discriminate|].
  split.
  { destruct (Hllm ltac:(discriminate)) as (llm & Hcreate).
    unfold createLLM in Hcreate.
    destruct (config_provider env) as [|c0 p]; [discriminate|].
    destruct (String.eqb (String c0 p) "openai") eqn:E1;
      [left; apply String.eqb_eq; exact E1|].
    destruct (String.eqb (String c0 p) "gemini") eqn:E2;
      [right; apply String.eqb_eq; exact E2|discriminate]. }
  split; [exact Hnames|]. split; [exact Hpassed|].
  split; [|exact Hzero].
  assert (Hlen : List.length (allResults t) = List.length (f :: files)).
  { rewrite <- (length_map s_testName), Hnames, length_map. reflexivity. }
  rewrite <- Hlen, Hp. clear - Hpassed.
  induction Hpassed as [|s l (Hst & _) _ IH]; [reflexivity|].
  change (s :: l) with ([s] ++ l)%list.
  rewrite count_entries_app, List.length_app, IH. unfold count_entries.
  cbn [filter]. rewrite Hst. reflexivity.
Qed.

End BatchFacts.

(** X16 at a suite of two test files in which every click fails. *)
Lemma summary_is_consistent_witness :
  let ending := fst (fst (Suite.run_suite Inputs.click_fails)) in
  let t := snd (fst (Suite.run_suite Inputs.click_fails)) in
  totalPassed t = count_entries "PASSED" (allResults t) /\
  totalFailed t = count_entries "FAILED" (allResults t) /\
  (totalPassed t + totalFailed t = List.length (allResults t))%nat /\
  Forall (fun s => passed_entry s \/ failed_entry s) (allResults t) /\
  (allResults t = [] \/
   exists testPath testFiles done rest,
     argv2 Suite.env = Some testPath /\
     getTestFiles Suite.existsSync Suite.statSync Suite.readdirSync
       Suite.path_join Suite.path_resolve testPath
     = Normal testFiles /\
     testFiles = (done ++ rest)%list /\
     map s_testName (allResults t) = map Path.basename done /\
     ((forall e, ending <> Escaped e) -> rest = [])).
Proof.
  apply (summary_is_consistent Demo.World Demo.now
           (Demo.callTool Inputs.click_fails) (Demo.generateText Inputs.plan_two_text)
           (Demo.JSON_parse Inputs.known) Demo.ToNumber Demo.writeReport
           Suite.existsSync Suite.statSync Suite.readdirSync
           Suite.path_join Suite.path_resolve
           Suite.mkdirSync Suite.connect Suite.listTools Suite.close Suite.readFileSync
           Suite.env 0%nat).
Defined.

(** X17 at a suite of two test files whose steps all pass. *)
Lemma main_returns_only_when_all_passed_witness :
  let t := snd (fst (Suite.run_suite Inputs.always_ok)) in
  exists key testPath testFiles,
    OPENAI_API_KEY Suite.env = Some key /\ key <> EmptyString /\
    argv2 Suite.env = Some testPath /\
    getTestFiles Suite.existsSync Suite.statSync Suite.readdirSync
      Suite.path_join Suite.path_resolve testPath
    = Normal testFiles /\
    testFiles <> [] /\
    (config_provider Suite.env = "openai" \/ config_provider Suite.env = "gemini") /\
    map s_testName (allResults t) = map Path.basename testFiles /\
    Forall passed_entry (allResults t) /\
    totalPassed t = List.length testFiles /\ totalFailed t = 0%nat.
Proof.
  apply (main_returns_only_when_all_passed Demo.World Demo.now
           (Demo.callTool Inputs.always_ok) (Demo.generateText Inputs.plan_two_text)
           (Demo.JSON_parse Inputs.known) Demo.ToNumber Demo.writeReport
           Suite.existsSync Suite.statSync Suite.readdirSync
           Suite.path_join Suite.path_resolve
           Suite.mkdirSync Suite.connect Suite.listTools Suite.close Suite.readFileSync
           Suite.env 0%nat).
  vm_compute. reflexivity.
Defined.

(** The same suite when every click fails: both tests are run, both are
    reported as failed, and the process exits with 1. *)
Example suite_with_failures :
  let out := Suite.run_suite Inputs.click_fails in
  fst (fst out) = Exit 1 /\
  allResults (snd (fst out))
  = [{| s_testName := "a.yaml"; s_status := "FAILED"; s_passed := None;
        s_failed := None; s_error := Some "Test failed" |};
     {| s_testName := "b.yml"; s_status := "FAILED"; s_passed := None;
        s_failed := None; s_error := Some "Test failed" |}] /\
  totalPassed (snd (fst out)) = 0%nat /\ totalFailed (snd (fst out)) = 2%nat.
Proof. vm_compute. repeat split. Qed.

(** ** The timeline of a run *)

Section TimelineFacts.

Variable World : Type.
Variable now : World -> Z.
Variable callTool : World -> string -> JsValue -> CallOutcome * World.
Variable generateText : World -> PlanningPrompt -> (string + string) * World.
Variable JSON_parse : string -> string + JsValue.
Variable ToNumber : JsValue -> option Z.
Variable writeReport : World -> Report.t -> option string.

Hypothesis callTool_clock :
  forall w toolName arguments, (now w <= now (snd (callTool w toolName arguments)))%Z.

Lemma settle_later (w : World) (step : option JsValue) :
  (now w <= now (snd (settle now callTool w step)))%Z.
Proof.
  unfold settle, call_of.
  destruct (prop step "params") as [arguments|]; [|simpl; lia].
  pose proof (callTool_clock w (step_toolName step) arguments) as H.
  destruct (callTool w (step_toolName step) arguments). exact H.
Qed.

Lemma record_of_times (w : World) (step : option JsValue) :
  Action.timestamp (record_of now callTool w step)
  = now (snd (settle now callTool w step)) /\
  (0 <= Action.duration (record_of now callTool w step)
   <= now (snd (settle now callTool w step)) - now w)%Z.
Proof.
  split; [reflexivity|].
  pose proof (settle_later w step) as Hlater. revert Hlater.
  unfold record_of, settle, call_of.
  destruct (prop step "params") as [arguments|]; [|simpl; lia].
  destruct (callTool w (step_toolName step) arguments) as [[result|reason] w'];
    cbn [fst snd classify]; [|simpl; lia].
  destruct (isError result); [simpl; lia|].
  destruct (returned_false result); simpl; lia.
Qed.

Lemma timeline_cons (lo mid hi : Z) (rec : Action.t) (recs : list Action.t) :
  (lo <= mid)%Z ->
  Action.timestamp rec = mid ->
  (0 <= Action.duration rec <= mid - lo)%Z ->
  (mid <= hi)%Z ->
  timeline mid hi recs ->
  timeline lo hi (rec :: recs).
Proof.
  intros Hlo Hts Hd Hhi (Hsorted & Hbounds & Hdur & Htotal).
  split; [|split; [|split]].
  - constructor; [exact Hsorted|].
    apply (Forall_impl _ (P := fun r => (mid <= Action.timestamp r <= hi)%Z));
      [intros r Hr; lia|exact Hbounds].
  - constructor; [lia|].
    apply (Forall_impl _ (P := fun r => (mid <= Action.timestamp r <= hi)%Z));
      [intros r Hr; lia|exact Hbounds].
  - constructor; [lia|exact Hdur].
  - cbn [total_duration fold_right]. fold (total_duration recs). lia.
Qed.

Lemma run_steps_timeline testSteps items :
  forall i (r : Runner World),
    let r' := snd (run_steps now callTool ToNumber testSteps i items r) in
    (now (world r) <= now (world r'))%Z /\
    exists recs,
      Results.actions (testResults r') = (Results.actions (testResults r) ++ recs)%list /\
      timeline (now (world r)) (now (world r')) recs.
Proof.
  induction items as [|step items IH]; intros i r; cbv zeta.
  - cbn [run_steps ret snd]. split; [lia|]. exists []. rewrite app_nil_r.
    split; [reflexivity|]. repeat split; try constructor. cbn. lia.
  - cbn [run_steps]. unfold bind.
    destruct (executable ToNumber testSteps i step) eqn:E.
    + destruct (run_step_ran World now callTool ToNumber testSteps i step r E)
        as (r1 & Hrun & (_ & Ha & _) & Hw).
      rewrite Hrun.
      destruct (IH (S i) r1) as (Hclock & recs & Ha' & Htl).
      destruct (record_of_times (world r) step) as (Hts & Hd).
      pose proof (settle_later (world r) step) as Hlater.
      rewrite <- Hw in Hts, Hd, Hlater.
      split; [lia|].
      exists (record_of now callTool (world r) step :: recs).
      split; [rewrite Ha', Ha, <- app_assoc; reflexivity|].
      apply (timeline_cons _ (now (world r1))); assumption.
    + destruct (run_step_not_executable World now callTool ToNumber testSteps i step r E)
        as (e & Hrun).
      rewrite Hrun. cbn [snd]. split; [lia|]. exists []. rewrite app_nil_r.
      split; [reflexivity|]. repeat split; try constructor. cbn. lia.
Qed.

Lemma timeline_widen (lo lo' hi : Z) (recs : list Action.t) :
  (lo' <= lo)%Z -> timeline lo hi recs -> timeline lo' hi recs.
Proof.
  intros Hlo (Hsorted & Hbounds & Hdur & Htotal).
  split; [exact Hsorted|]. split; [|split; [exact Hdur|lia]].
  apply (Forall_impl _ (P := fun r => (lo <= Action.timestamp r <= hi)%Z));
    [intros r Hr; lia|exact Hbounds].
Qed.

(** X18: when the clock never runs backwards across the awaited calls, the
    finalized report of a run that started without records is a timeline:
    the timestamps of its actions never decrease and lie between the start
    and the end time of the report, no duration is negative, and the
    durations add up to no more than the duration of the report. *)
Theorem report_is_a_timeline testText testName (r : Runner World) (rep : Report.t)
  (endTime : Z) :
  (forall w prompt, now w <= now (snd (generateText w prompt)))%Z ->
  Results.actions (testResults r) = [] ->
  testReport (snd (runTest now callTool generateText JSON_parse ToNumber writeReport
                     testText testName r)) = Some rep ->
  Report.endTime rep = Some endTime ->
  timeline (Report.startTime rep) endTime (Report.actions rep) /\
  Report.duration rep = Some (endTime - Report.startTime rep)%Z.
Proof.
  intros Hgen Hfresh Hrep Hend.
  rewrite (runTest_phases World now callTool generateText JSON_parse ToNumber writeReport) in Hrep.
  cbv zeta in Hrep.
  set (ra := set_testReport _ r) in Hrep.
  assert (Hplan : (now (world r)
                   <= now (world (snd (generateExecutionPlan generateText JSON_parse
                                         testText (step_lines testText) ra))))%Z).
  { unfold generateExecutionPlan.
    pose proof (Hgen (world ra)
                  (buildPlanningPrompt ra testText (List.length (step_lines testText))))
      as Hg.
    destruct (generateText (world ra) _) as [[reason|text] w0]; simpl in *; [exact Hg|].
    destruct (JSON_parse (strip_fences text)) as [msg|plan]; simpl; [exact Hg|].
    destruct plan; simpl; try exact Hg; destruct (converts_opt _); exact Hg. }
  destruct (plan_preserves World generateText JSON_parse testText (step_lines testText) ra)
    as (_ & Ht & Hr & _).
  destruct (generateExecutionPlan generateText JSON_parse testText
              (step_lines testText) ra) as [[plan|e] rb]; cbn [fst snd] in *.
  2:{ rewrite Hr in Hrep. injection Hrep as <-. discriminate. }
  pose proof (run_steps_keeps_report World now callTool ToNumber (step_lines testText)
                (plan_items ToNumber plan) 0 rb) as Hkeep.
  destruct (run_steps_timeline (step_lines testText) (plan_items ToNumber plan) 0%nat rb)
    as (Hclock & recs & Ha & Htl).
  destruct (run_steps now callTool ToNumber (step_lines testText) 0
              (plan_items ToNumber plan) rb) as [[u|e] rc]; cbn [fst snd] in *.
  2:{ rewrite Hkeep, Hr in Hrep. injection Hrep as <-. discriminate. }
  rewrite Ht in Ha. change (testResults ra) with (testResults r) in Ha.
  rewrite Hfresh in Ha. cbn [app] in Ha.
  unfold finish, generateReport in Hrep. simpl in Hrep.
  destruct (writeReport _ _); simpl in Hrep;
    [|destruct (0 <? Results.failed (testResults rc))%nat; simpl in Hrep];
    injection Hrep as <-; simpl in *; injection Hend as <-;
    (split; [|reflexivity]); rewrite Ha;
    apply (timeline_widen (now (world rb))); assumption.
Qed.

End TimelineFacts.

(** X18 on the scripted clock, at a run of two steps. *)
Lemma report_is_a_timeline_witness :
  exists rep,
    testReport (snd (Demo.run Inputs.always_ok Inputs.plan_two_text Inputs.known
                       Inputs.catalog Inputs.two_lines)) = Some rep /\
    map Action.timestamp (Report.actions rep) = [1700000000050; 1700000000075]%Z /\
    timeline (Report.startTime rep) 1700000000075 (Report.actions rep) /\
    Report.duration rep = Some (1700000000075 - Report.startTime rep)%Z.
Proof.
  assert (Hclock : forall w toolName arguments,
             (Demo.now w
              <= Demo.now (snd (Demo.callTool Inputs.always_ok w toolName arguments)))%Z).
  { intros w toolName arguments. unfold Demo.now, Demo.callTool. simpl snd. lia. }
  eexists. split; [vm_compute; reflexivity|]. split; [reflexivity|].
  apply (report_is_a_timeline Demo.World Demo.now
           (Demo.callTool Inputs.always_ok) (Demo.generateText Inputs.plan_two_text)
           (Demo.JSON_parse Inputs.known) Demo.ToNumber Demo.writeReport Hclock
           Inputs.two_lines "demo.test.yml" (new_runner Inputs.catalog 0%nat)).
  - intros w prompt. unfold Demo.now, Demo.generateText. simpl snd. lia.
  - reflexivity.
  - vm_compute. reflexivity.
  - reflexivity.
Defined.

Section RecordedScreenshots.

Variable World : Type.
Variable now : World -> Z.
Variable callTool : World -> string -> JsValue -> CallOutcome * World.
Variable generateText : World -> PlanningPrompt -> (string + string) * World.
Variable JSON_parse : string -> string + JsValue.
Variable ToNumber : JsValue -> option Z.
Variable writeReport : World -> Report.t -> option string.

Lemma record_of_screenshot (w : World) (step : option JsValue) (p : string) :
  Action.screenshot (record_of now callTool w step) = Some p ->
  Action.status (record_of now callTool w step) = "passed" /\
  exists result, extractScreenshotPath result = Some p.
Proof.
  unfold record_of.
  destruct (fst (settle now callTool w step)) as [[result duration]|err];
    unfold step_outcome, pushed_record, or_null;
    cbn [Action.screenshot Action.status Outcome.screenshot Outcome.status];
    [|discriminate].
  destruct (extractScreenshotPath result) as [q|] eqn:E; [|discriminate].
  destruct (nonempty q); [|discriminate]. intros [= ->].
  split; [reflexivity|]. exists result. exact E.
Qed.

(** X19: every screenshot a run records belongs to a passed step and is
    the screenshots directory, a slash and one image file name; the path
    [embedScreenshot] looks up first, [path.join] of the screenshots
    directory and [path.basename] of the recorded path, is the recorded
    path itself.  Which file, if any, ends up embedded depends on the file
    system and is not stated. *)
Theorem recorded_screenshot_is_first_lookup testText testName (r : Runner World) :
  let r' := snd (runTest now callTool generateText JSON_parse ToNumber writeReport
                   testText testName r) in
  exists recs,
    Results.actions (testResults r') = (Results.actions (testResults r) ++ recs)%list /\
    Forall (fun rec =>
              forall p, Action.screenshot rec = Some p ->
                Action.status rec = "passed" /\
                embedded_path p = p /\
                exists file,
                  p = screenshotsDir ++ "/" ++ file /\ has_slash file = false /\
                  is_screenshot_file file = true) recs.
Proof.
  cbv zeta.
  destruct (runTest_appends World now callTool generateText JSON_parse ToNumber writeReport
              testText testName r) as (executed & recs & Ha & _ & Hrecs & _).
  exists recs. split; [exact Ha|].
  apply (Forall2_records World now callTool _ executed recs); [|exact Hrecs].
  intros w step p Hp.
  destruct (record_of_screenshot w step p Hp) as (Hst & result & Hres).
  destruct (extracted_path_shape result p Hres) as (file & Hfile & Hs & Himg & _ & Hemb).
  split; [exact Hst|]. split; [exact Hemb|]. exists file. repeat split; assumption.
Qed.

End RecordedScreenshots.

(** X19 at a run whose first step records a screenshot. *)
Lemma recorded_screenshot_is_first_lookup_witness :
  let r := new_runner Inputs.catalog 0%nat in
  let r' := snd (Demo.run Inputs.click_fails Inputs.plan_two_text Inputs.known
                   Inputs.catalog Inputs.two_lines) in
  exists recs,
    Results.actions (testResults r') = (Results.actions (testResults r) ++ recs)%list /\
    Forall (fun rec =>
              forall p, Action.screenshot rec = Some p ->
                Action.status rec = "passed" /\
                embedded_path p = p /\
                exists file,
                  p = screenshotsDir ++ "/" ++ file /\ has_slash file = false /\
                  is_screenshot_file file = true) recs.
Proof.
  apply (recorded_screenshot_is_first_lookup Demo.World Demo.now
           (Demo.callTool Inputs.click_fails) (Demo.generateText Inputs.plan_two_text)
           (Demo.JSON_parse Inputs.known) Demo.ToNumber Demo.writeReport
           Inputs.two_lines "demo.test.yml" (new_runner Inputs.catalog 0%nat)).
Defined.

(** ** Predefined screenshot names *)

Lemma word_like_app (a b : string) : word_like (a ++ b) = word_like a && word_like b.
Proof.
  unfold word_like. induction a as [|c a IH]; [reflexivity|].
  cbn [append list_ascii_of_string forallb]. rewrite IH, andb_assoc. reflexivity.
Qed.

Lemma word_like_uint (d : Decimal.uint) : word_like (NilEmpty.string_of_uint d) = true.
Proof.
  induction d; [reflexivity| | | | | | | | | |];
    cbn [NilEmpty.string_of_uint]; unfold word_like in *;
    cbn [list_ascii_of_string forallb]; rewrite IHd; reflexivity.
Qed.

Lemma word_like_number (z : Z) : word_like (Json.number z) = true.
Proof.
  unfold Json.number, NilZero.string_of_int.
  assert (H : forall d, word_like (NilZero.string_of_uint d) = true).
  { intros d. unfold NilZero.string_of_uint.
    destruct d; try reflexivity; apply word_like_uint. }
  destruct (Z.to_int z) as [d|d]; [apply H|].
  change (String "-" (NilZero.string_of_uint d)) with ("-" ++ NilZero.string_of_uint d).
  rewrite word_like_app, H. reflexivity.
Qed.

Lemma word_char_sanitized (c : ascii) :
  word_char (lower (if is_name_char c then c else "_"%char)) = true.
Proof. destruct c as [[] [] [] [] [] [] [] []]; reflexivity. Qed.

Lemma word_like_sanitize (s : string) : word_like (toLowerCase (sanitize s)) = true.
Proof.
  unfold word_like. induction s as [|c s IH]; [reflexivity|].
  cbn [sanitize toLowerCase list_ascii_of_string forallb].
  rewrite word_char_sanitized, IH. reflexivity.
Qed.

Lemma word_like_padStart2 (s : string) : word_like s = true -> word_like (padStart2 s) = true.
Proof.
  destruct s as [|c [|c' s]]; intros H; [reflexivity| |exact H].
  unfold padStart2. change (String "0" (String c EmptyString)) with ("0" ++ String c EmptyString).
  rewrite word_like_app, H. reflexivity.
Qed.

Lemma word_like_no_slash (s : string) : word_like s = true -> has_slash s = false.
Proof.
  unfold word_like, has_slash. induction s as [|c s IH]; [reflexivity|].
  cbn [list_ascii_of_string forallb existsb]. intros H.
  apply andb_prop in H. destruct H as [Hc Hs]. rewrite (IH Hs), orb_false_r.
  unfold word_char in Hc. apply andb_prop in Hc. destruct Hc as [_ Hc].
  apply negb_true_iff in Hc. rewrite Ascii.eqb_sym. exact Hc.
Qed.

Lemma lower_dot (c : ascii) : Ascii.eqb (lower ".") (lower c) = Ascii.eqb "." c.
Proof. destruct c as [[] [] [] [] [] [] [] []]; reflexivity. Qed.

Lemma ext_at_word (c : ascii) (s : string) :
  word_char c = true -> ext_at (String c s) = None.
Proof.
  intros Hc. unfold word_char in Hc. apply andb_prop in Hc. destruct Hc as [Hc _].
  apply andb_prop in Hc. destruct Hc as [_ Hc]. apply negb_true_iff in Hc.
  rewrite Ascii.eqb_sym in Hc.
  unfold ext_at. cbn [strip_ci]. rewrite lower_dot, Hc. reflexivity.
Qed.

Lemma lazy_token_word (x : string) :
  word_like x = true -> lazy_token (x ++ ".png") = Some (String.length x + 4)%nat.
Proof.
  unfold word_like. induction x as [|c x IH]; [reflexivity|].
  cbn [list_ascii_of_string forallb]. intros H.
  apply andb_prop in H. destruct H as [Hc Hx].
  cbn [append lazy_token]. rewrite (ext_at_word c _ Hc).
  unfold word_char in Hc. apply andb_prop in Hc. destruct Hc as [Hc _].
  apply andb_prop in Hc. destruct Hc as [Ht _]. rewrite Ht, (IH Hx). reflexivity.
Qed.

Lemma image_matches_word (x : string) :
  x <> EmptyString -> word_like x = true ->
  image_matches (x ++ ".png") = [x ++ ".png"].
Proof.
  destruct x as [|c x]; [congruence|]. intros _ H.
  assert (Hat : image_at (String c x ++ ".png") = Some (String.length (String c x ++ ".png"))).
  { unfold word_like in H. cbn [list_ascii_of_string forallb] in H.
    apply andb_prop in H. destruct H as [Hc Hx].
    cbn [append image_at]. rewrite (lazy_token_word x Hx).
    unfold word_char in Hc. apply andb_prop in Hc. destruct Hc as [Hc _].
    apply andb_prop in Hc. destruct Hc as [Ht _]. rewrite Ht.
    cbn [option_map String.length]. rewrite length_append. reflexivity. }
  change (String c x ++ ".png") with (String c (x ++ ".png")) at 1.
  rewrite image_matches_step.
  change (String c (x ++ ".png")) with (String c x ++ ".png").
  rewrite Hat.
  pose proof (take_app (String c x ++ ".png") EmptyString) as Htake.
  pose proof (drop_app (String c x ++ ".png") EmptyString) as Hdrop.
  rewrite app_empty_r in Htake, Hdrop. rewrite Htake, Hdrop. reflexivity.
Qed.

(** X20: the name [generateScreenshotName] builds for an action type made
    of file-name characters is one image file name as the runner reads it:
    the image expression matches it whole, it has no slash and passes the
    filter of [findScreenshots], and a tool result that reports it makes
    [extractScreenshotPath] return that very name inside the screenshots
    directory. *)
Theorem generated_name_is_recovered (testName : string) (actionIndex : nat)
  (actionType : string) (timestamp : Z) :
  word_like actionType = true ->
  let name := generateScreenshotName testName actionIndex actionType timestamp in
  image_matches name = [name] /\
  has_slash name = false /\
  is_screenshot_file name = true /\
  extractScreenshotPath {| content := Some [text_block name]; isError := false |}
  = Some (screenshotsDir ++ "/" ++ name).
Proof.
  intros Htype. cbv zeta.
  set (stem := toLowerCase (sanitize testName) ++ "_action"
               ++ padStart2 (Json.number (Z.of_nat actionIndex + 1)) ++ "_"
               ++ actionType ++ "_" ++ Json.number timestamp).
  assert (Hname : generateScreenshotName testName actionIndex actionType timestamp
                  = stem ++ ".png").
  { unfold generateScreenshotName, stem. rewrite !app_assoc_s. reflexivity. }
  assert (Hword : word_like stem = true).
  { unfold stem.
    rewrite !word_like_app, word_like_sanitize, Htype, word_like_number,
      (word_like_padStart2 _ (word_like_number _)). reflexivity. }
  assert (Hne : stem <> EmptyString).
  { unfold stem. destruct (toLowerCase (sanitize testName)); discriminate. }
  rewrite Hname.
  assert (Hext : is_image_ext ".png") by (left; reflexivity).
  assert (Hslash : has_slash (stem ++ ".png") = false).
  { rewrite has_slash_app, (word_like_no_slash stem Hword). reflexivity. }
  split; [apply image_matches_word; assumption|].
  split; [exact Hslash|].
  split; [apply is_screenshot_file_ext; exact Hext|].
  rewrite (extractScreenshotPath_matches
             {| content := Some [text_block (stem ++ ".png")]; isError := false |}
             [text_block (stem ++ ".png")] eq_refl).
  change (fullText [text_block (stem ++ ".png")]) with (stem ++ ".png").
  rewrite (image_matches_word stem Hne Hword). cbn [last].
  unfold Path.basename.
  rewrite (strip_trailing_slashes_ext stem ".png" Hext),
    (last_segment_no_slash _ Hslash).
  unfold Path.join. destruct stem; [congruence|reflexivity].
Qed.

(** X20 at the third action of a test, a click. *)
Lemma generated_name_is_recovered_witness :
  let name := generateScreenshotName "Login Flow.yml" 2 "click" 1700000000000 in
  name = "login_flow_yml_action03_click_1700000000000.png" /\
  image_matches name = [name] /\
  has_slash name = false /\
  is_screenshot_file name = true /\
  extractScreenshotPath {| content := Some [text_block name]; isError := false |}
  = Some (screenshotsDir ++ "/" ++ name).
Proof.
  split; [reflexivity|].
  apply (generated_name_is_recovered "Login Flow.yml" 2%nat "click" 1700000000000%Z).
  reflexivity.
Defined.

(** ** A failing planner *)

Section PlannerFacts.

Variable World : Type.
Variable now : World -> Z.
Variable callTool : World -> string -> JsValue -> CallOutcome * World.
Variable generateText : World -> PlanningPrompt -> (string + string) * World.
Variable JSON_parse : string -> string + JsValue.
Variable ToNumber : JsValue -> option Z.
Variable writeReport : World -> Report.t -> option string.

(** X21: when the call of the planner is rejected, [runTest] throws the
    planner's error as it is, not as an invalid plan: no tool has been
    invoked, no action recorded, and the report is left as it was created,
    not finalized. *)
Theorem planner_failure_aborts testText testName (r : Runner World)
  (reason : string) (w : World) :
  generateText (world r)
    (buildPlanningPrompt r testText (List.length (step_lines testText)))
  = (inl reason, w) ->
  let out := runTest now callTool generateText JSON_parse ToNumber writeReport
               testText testName r in
  fst out = Throw (new_Error reason) /\
  world (snd out) = w /\
  calls (snd out) = calls r /\
  testResults (snd out) = testResults r /\
  testReport (snd out) = Some (initial_report testName testText (now (world r))).
Proof.
  intros Hgen. cbv zeta.
  rewrite (runTest_phases World now callTool generateText JSON_parse ToNumber).
  cbv zeta. unfold generateExecutionPlan.
  cbn [world set_testReport mcpTools buildPlanningPrompt].
  change (buildPlanningPrompt
            (set_testReport
               (Some (initial_report testName testText (now (world r)))) r)
            testText (List.length (step_lines testText)))
    with (buildPlanningPrompt r testText (List.length (step_lines testText))).
  rewrite Hgen. repeat split.
Qed.

End PlannerFacts.

(** X21 at a planner that answers with a rate limit. *)
Lemma planner_failure_aborts_witness :
  let r := new_runner Inputs.catalog 0%nat in
  let out := runTest Demo.now (Demo.callTool Inputs.always_ok) Outage.planner
               (Demo.JSON_parse Inputs.known) Demo.ToNumber Demo.writeReport
               Inputs.two_lines "demo.test.yml" r in
  fst out = Throw (new_Error "429 Too Many Requests") /\
  world (snd out) = 1%nat /\
  calls (snd out) = calls r /\
  testResults (snd out) = testResults r /\
  testReport (snd out)
  = Some (initial_report "demo.test.yml" Inputs.two_lines (Demo.now (world r))).
Proof.
  apply (planner_failure_aborts Demo.World Demo.now (Demo.callTool Inputs.always_ok)
           Outage.planner (Demo.JSON_parse Inputs.known) Demo.ToNumber Demo.writeReport
           Inputs.two_lines "demo.test.yml" (new_runner Inputs.catalog 0%nat)
           "429 Too Many Requests" 1%nat).
  reflexivity.
Defined.
